(** * telegram-media-fetcher: job queue, selection store, progress pipeline, worker

  A shallow embedding of the coordination core of the bot
  (src/app/queue.py, src/app/state.py, src/app/downloader.py,
  src/app/telegram/worker.py, src/app/telegram/worker_loop.py,
  src/app/telegram/handlers.py) together with the properties the
  specification states about it.

  Conventions used throughout:
  - Python [int] is [Z]; Python [float] is an exact rational [Q]
    (finite values only, arithmetic without rounding);
  - a Python [dict] keyed by strings is a [gmap string _];
  - code that mutates an object is a function from the old state to
    the new state and the produced output;
  - an [await]-free block of a coroutine runs atomically on the
    single-threaded event loop, so it is one transition. *)

From Stdlib Require Import ZArith QArith Qround Qminmax Lqa String Ascii List Lia Bool DecimalString.
From stdpp Require Import base option list gmap strings fin_maps sorting.

Import ListNotations.
Local Open Scope string_scope.
Local Open Scope list_scope.
Local Open Scope Z_scope.

(* ===================================================================== *)
(** * src/app/queue.py                                                    *)
(* ===================================================================== *)

Module Queue.

(** [DownloadJob], a frozen dataclass. *)
Record DownloadJob : Type := mkJob {
  chat_id : Z;
  request_url : string;
  urls : list string;
  max_height : option Z;
  playlist_items : option string;
  progress_message_id : Z
}.

(** [DownloadQueue]: the list [self._items].  The condition variable
    [self._cond] carries no data; its lock makes each method body one
    atomic block, except for the suspension inside [get]. *)
Record DownloadQueue : Type := mkQueue { items : list DownloadJob }.

(** [DownloadQueue.__init__] *)
Definition new_queue : DownloadQueue := mkQueue [].

(** [DownloadQueue.qsize] *)
Definition qsize (q : DownloadQueue) : Z := Z.of_nat (length (items q)).

(** [DownloadQueue.enqueue]: append, then [pos = len(self._items)]. *)
Definition enqueue (q : DownloadQueue) (job : DownloadJob) : DownloadQueue * Z :=
  let q' := mkQueue (items q ++ [job]) in
  let pos := Z.of_nat (length (items q')) in
  (q', pos).

(** One pass through the body of [DownloadQueue.get] under the lock:
    [while not self._items: await self._cond.wait()] leaves the
    caller suspended ([None]) when the list is empty, otherwise
    [self._items.pop(0)] is returned. *)
Definition get (q : DownloadQueue) : option (DownloadJob * DownloadQueue) :=
  match items q with
  | [] => None
  | job :: rest => Some (job, mkQueue rest)
  end.

(** [DownloadQueue.snapshot]: [list(self._items)], the queue is kept. *)
Definition snapshot (q : DownloadQueue) : DownloadQueue * list DownloadJob :=
  (q, items q).

(** ** Producers and the single consumer on the event loop *)

(** What the scheduler may run next. [Resume] is the consumer waking
    up inside [self._cond.wait()] (after a [notify], or spuriously)
    and testing the loop condition again. *)
Inductive op : Type :=
| CallEnqueue (job : DownloadJob)
| CallGet
| Resume
| CallSnapshot.

Inductive consumer : Type := Idle | Waiting.

Record system : Type := mkSystem {
  queue : DownloadQueue;
  cons : consumer;
  received : list DownloadJob;       (* jobs returned by [get], in order *)
  positions : list Z                 (* values returned by [enqueue] *)
}.

Definition init : system := mkSystem new_queue Idle [] [].

(** The consumer runs the body of [get] once. *)
Definition consumer_turn (s : system) : system :=
  match get (queue s) with
  | None => mkSystem (queue s) Waiting (received s) (positions s)
  | Some (job, q') => mkSystem q' Idle (received s ++ [job]) (positions s)
  end.

Definition step (s : system) (o : op) : system :=
  match o with
  | CallEnqueue job =>
      let '(q', pos) := enqueue (queue s) job in
      mkSystem q' (cons s) (received s) (positions s ++ [pos])
  | CallGet =>
      match cons s with
      | Idle => consumer_turn s
      | Waiting => s   (* the only consumer is suspended inside [get] *)
      end
  | Resume =>
      match cons s with
      | Waiting => consumer_turn s
      | Idle => s
      end
  | CallSnapshot => mkSystem (fst (snapshot (queue s))) (cons s) (received s) (positions s)
  end.

Definition run (ops : list op) (s : system) : system := fold_left step ops s.

(** The jobs handed to [enqueue] by a schedule, in call order. *)
Fixpoint enqueued (ops : list op) : list DownloadJob :=
  match ops with
  | [] => []
  | CallEnqueue job :: ops' => job :: enqueued ops'
  | _ :: ops' => enqueued ops'
  end.

(** Whether an operation is one of the removing kind. *)
Definition is_dequeue (o : op) : bool :=
  match o with
  | CallGet | Resume => true
  | _ => false
  end.

(** ** Two sample jobs *)

Definition job_a : DownloadJob := mkJob 7 "http://x/a" ["http://x/a"] (Some 720) None 11.
Definition job_b : DownloadJob := mkJob 8 "http://x/b" ["http://x/b"] None (Some "3") 12.

End Queue.

(* ===================================================================== *)
(** * Python values and built-ins used by the modelled code              *)
(* ===================================================================== *)

Module Py.

(** The scalar values a loosely typed dictionary entry can hold.
    A missing key read with [dict.get] is [PNone]. *)
Inductive value : Type :=
| PNone
| PBool (b : bool)
| PInt (z : Z)
| PFloat (q : Q)
| PStr (s : string).

(** [a < b] on floats. *)
Definition Qlt_bool (a b : Q) : bool := negb (Qle_bool b a).

(** Truth value of an object, as [or], [and] and [if] test it. *)
Definition truthy (v : value) : bool :=
  match v with
  | PNone => false
  | PBool b => b
  | PInt z => negb (z =? 0)
  | PFloat q => negb (Qeq_bool q 0)
  | PStr s => negb (String.eqb s "")
  end.

(** [a or b] *)
Definition or_ (a b : value) : value := if truthy a then a else b.

(** [isinstance(v, (int, float))] and, when it holds, [float(v)];
    [bool] is a subclass of [int]. *)
Definition as_number (v : value) : option Q :=
  match v with
  | PBool b => Some (if b then 1%Q else 0%Q)
  | PInt z => Some (inject_Z z)
  | PFloat q => Some q
  | _ => None
  end.

(** [v == s] for a string literal [s]. *)
Definition eq_str (v : value) (s : string) : bool :=
  match v with
  | PStr s' => String.eqb s' s
  | _ => false
  end.

(** [max(a, b)] and [min(a, b)] with two arguments: the first one
    wins a tie. *)
Definition max (a b : Q) : Q := if Qlt_bool a b then b else a.
Definition min (a b : Q) : Q := if Qlt_bool b a then b else a.

(** [int(x)] of a float: truncation towards zero. *)
Definition int_of_float (x : Q) : Z := Z.quot (Qnum x) (Zpos (Qden x)).

(** [str(n)] of an int. *)
Definition str_of_int (n : Z) : string := NilZero.string_of_int (Z.to_int n).

(** [str.isspace] on the ASCII range. *)
Definition isspace (c : ascii) : bool :=
  let n := nat_of_ascii c in
  ((9 <=? n)%nat && (n <=? 13)%nat) || ((28 <=? n)%nat && (n <=? 32)%nat).

Fixpoint lstrip_with (f : ascii -> bool) (s : string) : string :=
  match s with
  | EmptyString => EmptyString
  | String c s' => if f c then lstrip_with f s' else s
  end.

Definition rev_string (s : string) : string :=
  string_of_list_ascii (rev (list_ascii_of_string s)).

Definition strip_with (f : ascii -> bool) (s : string) : string :=
  rev_string (lstrip_with f (rev_string (lstrip_with f s))).

(** Texts are held in UTF-8. The white space of [str.isspace] beyond
    ASCII, by its bytes: U+0085 and U+00A0 take two bytes, *)
Definition isspace2 (c1 c2 : ascii) : bool :=
  let a := nat_of_ascii c1 in
  let b := nat_of_ascii c2 in
  Nat.eqb a 194 && (Nat.eqb b 133 || Nat.eqb b 160).

(** and U+1680, U+2000 to U+200A, U+2028, U+2029, U+202F, U+205F and
    U+3000 take three. *)
Definition isspace3 (c1 c2 c3 : ascii) : bool :=
  let a := nat_of_ascii c1 in
  let b := nat_of_ascii c2 in
  let c := nat_of_ascii c3 in
  (Nat.eqb a 225 && Nat.eqb b 154 && Nat.eqb c 128)
  || (Nat.eqb a 226 && Nat.eqb b 128
      && (((128 <=? c)%nat && (c <=? 138)%nat)
          || Nat.eqb c 168 || Nat.eqb c 169 || Nat.eqb c 175))
  || (Nat.eqb a 226 && Nat.eqb b 129 && Nat.eqb c 159)
  || (Nat.eqb a 227 && Nat.eqb b 128 && Nat.eqb c 128).

(** The text without the white-space characters it starts with. With
    [back] set the text is read last byte first, so the bytes of a
    character arrive in reverse. *)
Fixpoint lstrip_from (back : bool) (s : string) : string :=
  match s with
  | EmptyString => EmptyString
  | String c1 s1 =>
      if isspace c1 then lstrip_from back s1
      else
        match s1 with
        | EmptyString => s
        | String c2 s2 =>
            if (if back then isspace2 c2 c1 else isspace2 c1 c2) then lstrip_from back s2
            else
              match s2 with
              | EmptyString => s
              | String c3 s3 =>
                  if (if back then isspace3 c3 c2 c1 else isspace3 c1 c2 c3)
                  then lstrip_from back s3
                  else s
              end
        end
  end.

(** [s.lstrip()] and [s.rstrip()] *)
Definition lstrip (s : string) : string := lstrip_from false s.
Definition rstrip (s : string) : string := rev_string (lstrip_from true (rev_string s)).

(** [s.strip()] *)
Definition strip (s : string) : string := rstrip (lstrip s).

(** [s.strip(chars)] *)
Definition strip_chars (chars : string) (s : string) : string :=
  strip_with (fun c => existsb (Ascii.eqb c) (list_ascii_of_string chars)) s.

(** [s.startswith(p)] *)
Definition startswith (s p : string) : bool := String.prefix p s.

End Py.

(* ===================================================================== *)
(** * src/app/state.py                                                    *)
(* ===================================================================== *)

Module State.

(** [PlaylistEntry] of src/app/downloader.py, a frozen dataclass. *)
Record PlaylistEntry : Type := mkEntry {
  index : Z;
  title : string;
  entry_url : string;
  duration_sec : option Z
}.

(** [PendingSelection], a mutable dataclass. *)
Record PendingSelection : Type := mkPending {
  chat_id : Z;
  user_id : Z;
  url : string;
  playlist_entries : list PlaylistEntry;
  selected_indices : gset Z;
  heights : list Z;
  selected_height : option Z;
  created_at : Q
}.

(** [InMemoryState]: the dictionary [self.pending] and [self._ttl_sec]. *)
Record InMemoryState : Type := mkState {
  pending : gmap string PendingSelection;
  _ttl_sec : Q
}.

(** [InMemoryState.__init__] *)
Definition new_state (ttl_sec : Q) : InMemoryState := mkState ∅ ttl_sec.

(** [InMemoryState.create]; [token] is what [new_token()] drew. *)
Definition create (st : InMemoryState) (token : string) (p : PendingSelection)
  : InMemoryState * string :=
  (mkState (<[token := p]> (pending st)) (_ttl_sec st), token).

(** [(time.time() - pending.created_at) > self._ttl_sec] *)
Definition expired (st : InMemoryState) (now : Q) (p : PendingSelection) : bool :=
  Py.Qlt_bool (_ttl_sec st) (now - created_at p).

(** [InMemoryState.get]; [now] is the reading of [time.time()]. *)
Definition get (st : InMemoryState) (now : Q) (token : string)
  : InMemoryState * option PendingSelection :=
  match pending st !! token with
  | None => (st, None)
  | Some p =>
      if expired st now p
      then (mkState (delete token (pending st)) (_ttl_sec st), None)
      else (st, Some p)
  end.

(** [InMemoryState.pop] *)
Definition pop (st : InMemoryState) (now : Q) (token : string)
  : InMemoryState * option PendingSelection :=
  match pending st !! token with
  | None => (st, None)
  | Some p =>
      if expired st now p
      then (mkState (delete token (pending st)) (_ttl_sec st), None)
      else (mkState (delete token (pending st)) (_ttl_sec st), pending st !! token)
  end.

(** ** A sample store *)

(** A selection created at time 100, held under a TTL of 60 seconds. *)
Definition sample_pending : PendingSelection :=
  mkPending 7 42 "http://x/a" [] ∅ [360; 720] None 100.

Definition sample_store : InMemoryState :=
  fst (create (new_state 60) "a1b2c3d4e5f60718" sample_pending).

End State.

(* ===================================================================== *)
(** * src/app/downloader.py: the progress hook of [download_urls]        *)
(* ===================================================================== *)

Module Downloader.
Import Py.

(** The raw progress dictionary a transfer hands to [hook], reduced
    to the keys [hook] reads with [progress.get]. *)
Record progress : Type := mkProgress {
  status : value;
  filename : value;
  total_bytes : value;
  total_bytes_estimate : value;
  downloaded_bytes : value;
  _percent_str : value
}.

(** One call [progress_cb(phase, percent)]. *)
Definition cb_call : Type := (string * option Q)%type.

(** The variables [hook] closes over: [last_percent["v"]],
    [processing_announced["v"]], [file_downloaded], [file_total]. *)
Record closure : Type := mkClosure {
  last_percent : Z;
  processing_announced : bool;
  file_downloaded : gmap string Q;
  file_total : gmap string Q
}.

Definition closure_init : closure := mkClosure (-1) false ∅ ∅.

Definition set_last_percent (st : closure) (pi : Z) : closure :=
  mkClosure pi (processing_announced st) (file_downloaded st) (file_total st).

Definition set_processing_announced (st : closure) (b : bool) : closure :=
  mkClosure (last_percent st) b (file_downloaded st) (file_total st).

Definition set_file_downloaded (st : closure) (key : string) (d : Q) : closure :=
  mkClosure (last_percent st) (processing_announced st)
            (<[key := d]> (file_downloaded st)) (file_total st).

Definition set_file_total (st : closure) (key : string) (t : Q) : closure :=
  mkClosure (last_percent st) (processing_announced st)
            (file_downloaded st) (<[key := t]> (file_total st)).

(** [_emit_processing]; [cb] tells whether [progress_cb is not None]. *)
Definition _emit_processing (cb : bool) (st : closure) : closure * list cb_call :=
  if negb cb then (st, [])
  else if processing_announced st then (st, [])
  else (set_processing_announced st true, [("processing", None)]).

(** [_emit_download_percent] *)
Definition _emit_download_percent (cb : bool) (st : closure) (p : Q)
  : closure * list cb_call :=
  if negb cb then (st, [])
  else
    let pi := int_of_float (max 0 (min 100 p)) in
    if pi =? last_percent st then (st, [])
    else (set_last_percent st pi, [("download", Some (inject_Z pi))]).

(** [isinstance(v, (int, float)) and v > 0] *)
Definition positive_number (v : value) : option Q :=
  match as_number v with
  | Some q => if Qlt_bool 0 q then Some q else None
  | None => None
  end.

(** [isinstance(v, (int, float)) and v >= 0] *)
Definition nonneg_number (v : value) : option Q :=
  match as_number v with
  | Some q => if Qle_bool 0 q then Some q else None
  | None => None
  end.

(** [filename if isinstance(filename, str) and filename else "__unknown__"] *)
Definition stream_key (progress : progress) : string :=
  match filename progress with
  | PStr s => if negb (String.eqb s "") then s else "__unknown__"
  | _ => "__unknown__"
  end.

(** The two conditional stores of a ["downloading"] event. *)
Definition record_download (st : closure) (key : string) (progress : progress) : closure :=
  let downloaded := downloaded_bytes progress in
  let total := or_ (total_bytes progress) (total_bytes_estimate progress) in
  let st :=
    match nonneg_number downloaded with
    | Some d => set_file_downloaded st key d
    | None => st
    end in
  match positive_number total with
  | Some t => set_file_total st key t
  | None => st
  end.

(** The body of the loop [for k, t in file_total.items()]. *)
Definition add_done (fd : gmap string Q) (sum_done : Q) (kt : string * Q) : Q :=
  let '(k, t) := kt in
  if Qle_bool t 0 then sum_done
  else
    let d := default 0%Q (fd !! k) in
    let d := if Qlt_bool d 0 then 0%Q else d in
    let d := if Qlt_bool t d then t else d in
    (sum_done + d)%Q.

(** The aggregation block: [None] when [totals] is empty, otherwise
    the percent handed to [_emit_download_percent]. Exact arithmetic
    makes the sums independent of the iteration order. Floats are
    held as exact rationals: the quotient is the one binary64 gives
    where no operation of the block rounds, as for whole byte counts
    with a hundredfold sum of at most 2^53, and can differ from it in
    the last place elsewhere. *)
Definition aggregate (st : closure) : option Q :=
  let totals := List.filter (fun t => Qlt_bool 0 t) (map snd (map_to_list (file_total st))) in
  match totals with
  | [] => None
  | _ :: _ =>
      let sum_total := fold_left Qplus totals 0%Q in
      let sum_done := fold_left (add_done (file_downloaded st)) (map_to_list (file_total st)) 0%Q in
      Some (100 * sum_done / sum_total)%Q
  end.

Section Hook.

(** Python's [float(s)] on a string, [None] for [ValueError]. *)
Variable float_of_str : string -> option Q.

(** [hook]. The optional [raw_progress_hook] is called first with
    its exceptions swallowed and touches none of the closure, so it
    is left out. *)
Definition hook (cb : bool) (st : closure) (progress : progress)
  : closure * list cb_call :=
  let status := status progress in
  if eq_str status "postprocessing" || eq_str status "processing"
  then _emit_processing cb st
  else
    let key := stream_key progress in
    if eq_str status "finished" then
      let total := or_ (total_bytes progress) (total_bytes_estimate progress) in
      match positive_number total with
      | Some t => (set_file_downloaded (set_file_total st key t) key t, [])
      | None => (st, [])
      end
    else if negb (eq_str status "downloading") then (st, [])
    else
      let st := record_download st key progress in
      match aggregate st with
      | Some p => _emit_download_percent cb st p
      | None =>
          match _percent_str progress with
          | PStr percent_str =>
              match float_of_str (strip_chars "%" (strip percent_str)) with
              | None => (st, [])
              | Some p =>
                  if Qlt_bool p (inject_Z (last_percent st)) then (st, [])
                  else _emit_download_percent cb st p
              end
          | _ => (st, [])
          end
      end.

(** The hook called once per raw event, in arrival order. *)
Fixpoint run_hook (cb : bool) (st : closure) (events : list progress)
  : closure * list cb_call :=
  match events with
  | [] => (st, [])
  | e :: events' =>
      let '(st1, out1) := hook cb st e in
      let '(st2, out2) := run_hook cb st1 events' in
      (st2, out1 ++ out2)
  end.

End Hook.

(** The integer percents among the emitted calls. *)
Fixpoint download_percents (calls : list cb_call) : list Z :=
  match calls with
  | [] => []
  | (phase, Some p) :: calls' =>
      if String.eqb phase "download" then int_of_float p :: download_percents calls'
      else download_percents calls'
  | (_, None) :: calls' => download_percents calls'
  end.

(** The phase-only notifications among the emitted calls. *)
Definition is_processing_call (c : cb_call) : bool :=
  match c with
  | (phase, None) => String.eqb phase "processing"
  | _ => false
  end.

(** The calls announcing the processing phase among the emitted calls. *)
Definition processing_calls (calls : list cb_call) : list cb_call :=
  List.filter is_processing_call calls.

(** Whether a raw event carries a processing status. *)
Definition is_processing_event (e : progress) : bool :=
  eq_str (status e) "postprocessing" || eq_str (status e) "processing".

(** Each element differs from the one before it, [prev] standing
    before the first. *)
Fixpoint no_repeat_after (prev : Z) (l : list Z) : Prop :=
  match l with
  | [] => True
  | x :: l' => x <> prev /\ no_repeat_after x l'
  end.

(** What one call of [_emit_download_percent] can do. *)
Inductive emit_result (st : closure) : closure * list cb_call -> Prop :=
| EmitNothing : emit_result st (st, [])
| EmitPercent (pi : Z) :
    pi <> last_percent st ->
    emit_result st (set_last_percent st pi, [("download", Some (inject_Z pi))]).

(** Every call of [hook] on an event without a processing status. *)
Inductive hook_result (st : closure) : closure * list cb_call -> Prop :=
| HookSilent st' :
    last_percent st' = last_percent st ->
    processing_announced st' = processing_announced st ->
    hook_result st (st', [])
| HookPercent st' (pi : Z) :
    pi <> last_percent st ->
    last_percent st' = pi ->
    processing_announced st' = processing_announced st ->
    hook_result st (st', [("download", Some (inject_Z pi))]).

(** Each element is above the one before it, [prev] standing before
    the first. *)
Fixpoint increasing_after (prev : Z) (l : list Z) : Prop :=
  match l with
  | [] => True
  | x :: l' => prev < x /\ increasing_after x l'
  end.

(** Whether a raw event carries a usable total:
    [isinstance(total, (int, float)) and total > 0]. *)
Definition has_total (e : progress) : bool :=
  match positive_number (or_ (total_bytes e) (total_bytes_estimate e)) with
  | Some _ => true
  | None => false
  end.

(** ** The aggregate percent as the specification words it *)

(** The entry of [known_streams] for one item of [file_total], read
    against the dictionary [fd] of downloaded bytes. *)
Definition stream_of (fd : gmap string Q) (kt : string * Q) : option (Q * Q) :=
  if Qlt_bool 0 (snd kt) then Some (default 0%Q (fd !! fst kt), snd kt) else None.

(** The streams with a known total: (downloaded so far, total). *)
Definition known_streams (st : closure) : list (Q * Q) :=
  omap (stream_of (file_downloaded st)) (map_to_list (file_total st)).

(** [x] clamped into [[lo, hi]]. *)
Definition clamp (lo hi x : Q) : Q := Qmax lo (Qmin hi x).

Definition Qsum (l : list Q) : Q := foldr Qplus 0%Q l.

(** 100 x (sum of downloaded, each clamped into [0, its total]) /
    (sum of the totals). *)
Definition spec_aggregate_percent (streams : list (Q * Q)) : Q :=
  (100 * Qsum (map (fun dt => clamp 0 (snd dt) (fst dt)) streams)
   / Qsum (map snd streams))%Q.

(** A plain parser for unsigned decimal integers, a stand-in for
    [float] in the examples: every string it accepts, [float] reads
    as the same number. *)
Definition float_of_digits (s : string) : option Q :=
  match NilEmpty.uint_of_string s with
  | Some u => Some (inject_Z (Z.of_uint u))
  | None => None
  end.

(** A ["downloading"] event of stream [name] with both byte counts. *)
Definition downloading (name : string) (downloaded total : Z) : progress :=
  mkProgress (PStr "downloading") (PStr name) (PInt total) PNone (PInt downloaded) PNone.

(** A ["finished"] event of stream [name]. *)
Definition finished (name : string) (total : Z) : progress :=
  mkProgress (PStr "finished") (PStr name) (PInt total) PNone (PInt total) PNone.

(** A ["downloading"] event without byte totals, carrying only the
    coarse percent string. *)
Definition coarse (name percent_str : string) : progress :=
  mkProgress (PStr "downloading") (PStr name) PNone PNone PNone (PStr percent_str).


(** A raw event of the post-transfer phase. *)
Definition postprocessing : progress :=
  mkProgress (PStr "postprocessing") PNone PNone PNone PNone PNone.

End Downloader.

(* ===================================================================== *)
(** * src/app/telegram/ui.py                                              *)
(* ===================================================================== *)

Module UI.

Definition nl : string := String (ascii_of_nat 10) EmptyString.

(** [html.escape(text)] with [quote=True]. *)
Fixpoint html_escape (s : string) : string :=
  match s with
  | EmptyString => EmptyString
  | String c s' =>
      let n := nat_of_ascii c in
      (if Nat.eqb n 38 then "&amp;"
       else if Nat.eqb n 60 then "&lt;"
       else if Nat.eqb n 62 then "&gt;"
       else if Nat.eqb n 34 then "&quot;"
       else if Nat.eqb n 39 then "&#x27;"
       else String c EmptyString) ++ html_escape s'
  end%string.

(** [italic] *)
Definition italic (text : string) : string :=
  ("<i>" ++ html_escape text ++ "</i>")%string.

End UI.

(* ===================================================================== *)
(** * src/app/telegram/worker.py: [progress_updater]                      *)
(* ===================================================================== *)

Module Reporter.
Import Py.

(** The local variables of [progress_updater] that live across
    iterations of its loop. *)
Record locals : Type := mkLocals {
  last_sent_percent : Z;
  last_sent_time : Q;
  phase : string;
  last_progress_time : Q;
  last_seen_percent : Z
}.

(** The state before the first iteration; [start_time] is the
    reading of [time.monotonic()] on entry. *)
Definition start (start_time : Q) : locals :=
  mkLocals (-1) 0 "download" start_time 0.

(** How [asyncio.wait_for(progress_updates.get(), timeout=stall_interval)]
    ends, with the reading [now] of [time.monotonic()] taken next. *)
Inductive wakeup : Type :=
| Event (new_phase : string) (percent : option Q) (now : Q)
| StallTimeout (now : Q).

(** [format(n, "02d")] *)
Definition fmt_02d (n : Z) : string :=
  if (0 <=? n) && (n <? 10) then ("0" ++ str_of_int n)%string else str_of_int n.

(** The suffix [(no progress for M:SS)] built from [stalled]. *)
Definition no_progress_note (stalled : Z) : string :=
  let stalled_min := stalled / 60 in
  let stalled_sec := stalled mod 60 in
  ("(no progress for " ++ str_of_int stalled_min ++ ":" ++ fmt_02d stalled_sec ++ ")")%string.

(** One iteration of the [while True] loop. The result holds the
    [text] handed to [safe_edit_italic], if the iteration renders. *)
Definition iteration (min_interval : Q) (st : locals) (w : wakeup)
  : locals * option string :=
  match w with
  | Event new_phase percent now =>
      let phase := if negb (String.eqb new_phase "") then new_phase else phase st in
      let st := mkLocals (last_sent_percent st) (last_sent_time st) phase
                         (last_progress_time st) (last_seen_percent st) in
      if negb (String.eqb phase "download") then
        if Qlt_bool (now - last_sent_time st) min_interval then (st, None)
        else
          (mkLocals (last_sent_percent st) now phase now (last_seen_percent st),
           Some "Processing...")
      else
        match percent with
        | None => (st, None)
        | Some percent =>
            let percent_int := int_of_float percent in
            if percent_int =? last_sent_percent st then (st, None)
            else if Qlt_bool (now - last_sent_time st) min_interval then (st, None)
            else
              (mkLocals percent_int now phase now percent_int,
               Some ("Downloading... " ++ str_of_int percent_int ++ "%")%string)
        end
  | StallTimeout now =>
      if Qlt_bool (now - last_sent_time st) min_interval then (st, None)
      else
        let stalled := int_of_float (now - last_progress_time st) in
        let text :=
          if negb (String.eqb (phase st) "download") then
            ("Processing... " ++ no_progress_note stalled)%string
          else if last_seen_percent st <=? 0 then "Downloading..."
          else
            ("Downloading... " ++ str_of_int (last_seen_percent st) ++ "% "
               ++ no_progress_note stalled)%string in
        (mkLocals (last_sent_percent st) now (phase st)
                  (last_progress_time st) (last_seen_percent st),
         Some text)
  end.

(** The loop over a sequence of wake-ups, with the texts rendered. *)
Fixpoint progress_updater (min_interval : Q) (st : locals) (ws : list wakeup)
  : locals * list string :=
  match ws with
  | [] => (st, [])
  | w :: ws' =>
      let '(st1, out) := iteration min_interval st w in
      let '(st2, outs) := progress_updater min_interval st1 ws' in
      (st2, match out with Some t => t :: outs | None => outs end)
  end.

(** [needle in text] *)
Fixpoint contains (needle text : string) : bool :=
  String.prefix needle text
  || match text with
     | EmptyString => false
     | String _ text' => contains needle text'
     end.

(** The reporter one second after it rendered 42% at time 7, having
    started at time 5 with a minimum render interval of one second. *)
Definition after_42 : locals :=
  fst (iteration 1 (start 5) (Event "download" (Some 42%Q) 7)).


End Reporter.

(* ===================================================================== *)
(** * src/app/telegram/worker_loop.py                                     *)
(* ===================================================================== *)

Module Worker.
Import Py.

(** The exceptions the worker tells apart. [CancelledError] derives
    from [BaseException]; the other two derive from [Exception]. *)
Inductive exn : Type := CancelledError | FileNotFoundError | OtherException.

(** [isinstance(e, Exception)] *)
Definition is_Exception (e : exn) : bool :=
  match e with
  | CancelledError => false
  | FileNotFoundError | OtherException => true
  end.

Inductive outcome (A : Type) : Type :=
| Returned (a : A)
| Raised (e : exn).
Arguments Returned {A} a.
Arguments Raised {A} e.

(** Failures of the blocking filesystem calls ([Path.resolve],
    [shutil.rmtree], [Path.unlink]): all of them are [OSError]s, and
    cancellation is only ever delivered at an [await]. *)
Inductive os_error : Type := ENOENT | EOTHER.

Definition exn_of_os_error (e : os_error) : exn :=
  match e with
  | ENOENT => FileNotFoundError
  | EOTHER => OtherException
  end.

Definition of_os {A : Type} (r : os_error + A) : outcome A :=
  match r with
  | inl e => Raised (exn_of_os_error e)
  | inr a => Returned a
  end.

(** An absolute path, as its components below the filesystem root. *)
Definition path : Type := list string.

(** [Path.name] *)
Definition name (p : path) : string := List.last p EmptyString.

(** [p.is_relative_to(root)] *)
Fixpoint is_relative_to (p root : path) : bool :=
  match root, p with
  | [], _ => true
  | r :: root', c :: p' => String.eqb r c && is_relative_to p' root'
  | _ :: _, [] => false
  end.

(** What the outside world answers to each call the worker makes
    while it processes one job. *)
Record world : Type := mkWorld {
  bot_edit : string -> outcome unit;      (* await bot.edit_message_text(text=..) *)
  ensure_session_dir : path -> outcome path;
  download_urls : path -> outcome (list path);   (* await asyncio.to_thread(..) *)
  progress_task : outcome unit;           (* await progress_task, after cancel() *)
  send_file : path -> outcome unit;
  unlink : path -> os_error + unit;       (* p.unlink(missing_ok=True) *)
  resolve : path -> os_error + path;      (* Path.resolve() *)
  rmtree : path -> os_error + unit        (* shutil.rmtree *)
}.

(** What the worker does to the outside world. [Edit], [Send],
    [Unlink] and [Rmtree] record that the call was made. *)
Inductive action : Type :=
| Edit (text : string)
| Send (p : path)
| Unlink (p : path)
| Rmtree (p : path)
| Log (level message : string).

(** The variables of one loop iteration that its handlers read. *)
Record locals : Type := mkLocals {
  session_dir : option path;
  job_success : bool;
  trace : list action
}.

(** Statements: they run on the locals and return or raise. *)
Definition M (A : Type) : Type := locals -> outcome A * locals.

Definition ret {A : Type} (a : A) : M A := fun l => (Returned a, l).

Definition bind {A B : Type} (c : M A) (k : A -> M B) : M B :=
  fun l =>
    match c l with
    | (Returned a, l') => k a l'
    | (Raised e, l') => (Raised e, l')
    end.

Notation "x <- c ;; k" := (bind c (fun x => k))
  (at level 100, c at next level, right associativity).
Notation "c ;;; k" := (bind c (fun _ => k))
  (at level 100, right associativity).

Definition call {A : Type} (o : outcome A) : M A := fun l => (o, l).

Definition emit (a : action) : M unit :=
  fun l => (Returned tt, mkLocals (session_dir l) (job_success l) (trace l ++ [a])).

Definition set_session_dir (p : path) : M unit :=
  fun l => (Returned tt, mkLocals (Some p) (job_success l) (trace l)).

Definition set_job_success (b : bool) : M unit :=
  fun l => (Returned tt, mkLocals (session_dir l) b (trace l)).

(** [try: c  finally: f] *)
Definition try_finally {A : Type} (c : M A) (f : M unit) : M A :=
  fun l =>
    let '(r, l1) := c l in
    match f l1 with
    | (Returned _, l2) => (r, l2)
    | (Raised e, l2) => (Raised e, l2)
    end.

(** [with contextlib.suppress(asyncio.CancelledError): c] *)
Definition suppress_cancelled (c : M unit) : M unit :=
  fun l =>
    match c l with
    | (Raised CancelledError, l') => (Returned tt, l')
    | r => r
    end.

(** [try: c  except Exception: h] *)
Definition except_Exception (c : M unit) (h : M unit) : M unit :=
  fun l =>
    match c l with
    | (Raised e, l') => if is_Exception e then h l' else (Raised e, l')
    | r => r
    end.

(** [safe_edit_italic] of ui.py. *)
Definition safe_edit_italic (w : world) (text : string) : M unit :=
  except_Exception
    (emit (Edit (UI.italic text)) ;;; call (bot_edit w (UI.italic text)))
    (emit (Log "debug" "safe_edit_italic failed")).

(** [await application.bot.edit_message_text(text=text)] *)
Definition edit_message_text (w : world) (text : string) : M unit :=
  emit (Edit text) ;;; call (bot_edit w text).

(** The [try] body of [_cleanup_session_dir]. *)
Definition cleanup_body (w : world) (session_dir download_root : path) : M unit :=
  root <- call (of_os (resolve w download_root)) ;;
  sd <- call (of_os (resolve w session_dir)) ;;
  if negb (is_relative_to sd root) then
    emit (Log "warning" "Refusing to delete outside download_root")
  else if negb (startswith (name sd) "session-") then
    emit (Log "warning" "Refusing to delete non-session dir")
  else
    emit (Rmtree sd) ;;;
    call (of_os (rmtree w sd)) ;;;
    emit (Log "info" "Cleaned up session dir").

(** [_cleanup_session_dir]: the body under
    [except FileNotFoundError: return] and
    [except Exception: logger.warning(..)]. *)
Definition _cleanup_session_dir (w : world) (session_dir download_root : path) : M unit :=
  fun l =>
    match cleanup_body w session_dir download_root l with
    | (Raised FileNotFoundError, l') => (Returned tt, l')
    | (Raised e, l') =>
        if is_Exception e
        then emit (Log "warning" "Failed to cleanup session dir") l'
        else (Raised e, l')
    | r => r
    end.

(** The loop [for idx, p in enumerate(files, start=1)]. *)
Fixpoint deliver (w : world) (n : nat) (idx : Z) (files : list path) : M unit :=
  match files with
  | [] => ret tt
  | p :: files' =>
      let prefix :=
        if (1 <? n)%nat
        then ("Uploading file to Telegram (" ++ str_of_int idx ++ "/"
                ++ str_of_int (Z.of_nat n) ++ ")")%string
        else "Uploading file to Telegram" in
      safe_edit_italic w (prefix ++ "...")%string ;;;
      emit (Send p) ;;;
      call (send_file w p) ;;;
      except_Exception
        (emit (Unlink p) ;;; call (of_os (unlink w p)))
        (emit (Log "warning" "Failed to delete sent file")) ;;;
      deliver w n (idx + 1) files'
  end.

(** The text of the [except Exception] handler of the job. *)
Definition failure_text (job : Queue.DownloadJob) : string :=
  ("This service cannot download from this URL:" ++ UI.nl
     ++ Queue.request_url job ++ UI.nl ++ UI.nl
     ++ "Please try a different link.")%string.

(** The [try] body of one job. Both ways of leaving it without an
    exception (falling off its end, and the [continue] after an empty
    result) go on to the [finally] clause and then to the next job. *)
Definition job_body (w : world) (download_root : path) (job : Queue.DownloadJob) : M unit :=
  edit_message_text w (UI.italic "Starting download... 0%") ;;;
  emit (Log "info" "Start job") ;;;
  sd <- call (ensure_session_dir w download_root) ;;
  set_session_dir sd ;;;
  emit (Log "info" "Session dir") ;;;
  files <- try_finally
             (call (download_urls w sd))
             (suppress_cancelled (call (progress_task w))) ;;
  match files with
  | [] =>
      emit (Log "warning" "Job finished but no files found") ;;;
      edit_message_text w "Download finished, but the file was not found."
  | _ :: _ =>
      safe_edit_italic w "Download completed... 100%" ;;;
      deliver w (length files) 1 files ;;;
      set_job_success true ;;;
      edit_message_text w "Done." ;;;
      emit (Log "info" "Job done")
  end.

(** The handlers of the job: [except asyncio.CancelledError: raise]
    and [except Exception as exc: ..]. *)
Definition job_handlers (w : world) (job : Queue.DownloadJob) (c : M unit) : M unit :=
  fun l =>
    match c l with
    | (Raised e, l') =>
        if is_Exception e
        then (emit (Log "error" "Job failed") ;;;
              edit_message_text w (failure_text job)) l'
        else (Raised e, l')
    | r => r
    end.

(** The [finally] clause of the job. *)
Definition job_finally (w : world) (download_root : path) : M unit :=
  fun l =>
    match job_success l, session_dir l with
    | true, Some sd => _cleanup_session_dir w sd download_root l
    | _, _ => (Returned tt, l)
    end.

(** The locals at the top of an iteration: [session_dir = None] and
    [job_success = False]. *)
Definition initial : locals := mkLocals None false [].

(** One job: the whole [try] statement inside the loop. *)
Definition process_job (w : world) (download_root : path) (job : Queue.DownloadJob)
  : outcome unit * locals :=
  try_finally
    (job_handlers w job (job_body w download_root job))
    (job_finally w download_root)
    initial.

(** The [while True] loop over the jobs the queue hands out, each
    with the world it meets; it ends when an exception leaves a job.
    The result lists the locals each processed job ended with. The
    refresh of the waiting jobs' positions before each job makes safe
    edits only and is left out. *)
Fixpoint worker_loop (download_root : path) (jobs : list (Queue.DownloadJob * world))
  : outcome unit * list locals :=
  match jobs with
  | [] => (Returned tt, [])
  | (job, w) :: jobs' =>
      match process_job w download_root job with
      | (Returned _, l) =>
          let '(r, ls) := worker_loop download_root jobs' in (r, l :: ls)
      | (Raised e, l) => (Raised e, [l])
      end
  end.

(** Whether the trace holds a call of [shutil.rmtree]. *)
Definition is_rmtree (a : action) : bool :=
  match a with
  | Rmtree _ => true
  | _ => false
  end.

Definition deletes (l : locals) : bool := existsb is_rmtree (trace l).

Definition is_edit_of (text : string) (a : action) : bool :=
  match a with
  | Edit t => String.eqb t text
  | _ => false
  end.

Definition renders (text : string) (l : locals) : bool :=
  existsb (is_edit_of text) (trace l).

(** ** Properties of statements *)

(** The statement [c] leaves the locals in [P] when it starts in [P],
    whether it returns or raises. *)
Definition keeps (P : locals -> Prop) {A : Type} (c : M A) : Prop :=
  forall l, P l -> P (snd (c l)).

(** A property of the locals that survives a new log entry, edit,
    send or unlink in the trace, and a new [session_dir]. *)
Record stable (P : locals -> Prop) : Prop := mkStable {
  stable_emit : forall l a,
      is_rmtree a = false ->
      P l -> P (mkLocals (session_dir l) (job_success l) (trace l ++ [a]));
  stable_dir : forall l p,
      P l -> P (mkLocals (Some p) (job_success l) (trace l))
}.

(** No call of [shutil.rmtree] so far. *)
Definition untouched (l : locals) : Prop := deletes l = false.

(** No call of [shutil.rmtree] so far, and the job not yet marked
    successful. *)
Definition pending_job (l : locals) : Prop := deletes l = false /\ job_success l = false.

(** The session directory has been created. *)
Definition has_dir (l : locals) : Prop := session_dir l <> None.

(** ** Every way [_cleanup_session_dir] can end *)

(** The locals with more actions in the trace. *)
Definition logged (l : locals) (t : list action) : locals :=
  mkLocals (session_dir l) (job_success l) (trace l ++ t).

Inductive cleanup_end (w : world) (sd root : path) (l : locals) : locals -> Prop :=
| Deleted rroot rsd :
    resolve w root = inr rroot -> resolve w sd = inr rsd ->
    is_relative_to rsd rroot = true -> startswith (name rsd) "session-" = true ->
    rmtree w rsd = inr tt ->
    cleanup_end w sd root l
      (logged l [Rmtree rsd; Log "info" "Cleaned up session dir"])
| GoneAtRmtree rroot rsd :
    resolve w root = inr rroot -> resolve w sd = inr rsd ->
    is_relative_to rsd rroot = true -> startswith (name rsd) "session-" = true ->
    rmtree w rsd = inl ENOENT ->
    cleanup_end w sd root l (logged l [Rmtree rsd])
| FailedAtRmtree rroot rsd :
    resolve w root = inr rroot -> resolve w sd = inr rsd ->
    is_relative_to rsd rroot = true -> startswith (name rsd) "session-" = true ->
    rmtree w rsd = inl EOTHER ->
    cleanup_end w sd root l
      (logged l [Rmtree rsd; Log "warning" "Failed to cleanup session dir"])
| RefusedOutside rroot rsd :
    resolve w root = inr rroot -> resolve w sd = inr rsd ->
    is_relative_to rsd rroot = false ->
    cleanup_end w sd root l
      (logged l [Log "warning" "Refusing to delete outside download_root"])
| RefusedName rroot rsd :
    resolve w root = inr rroot -> resolve w sd = inr rsd ->
    is_relative_to rsd rroot = true -> startswith (name rsd) "session-" = false ->
    cleanup_end w sd root l
      (logged l [Log "warning" "Refusing to delete non-session dir"])
| GoneAtResolve :
    resolve w root = inl ENOENT
    \/ (exists rroot, resolve w root = inr rroot /\ resolve w sd = inl ENOENT) ->
    cleanup_end w sd root l l
| FailedAtResolve :
    resolve w root = inl EOTHER
    \/ (exists rroot, resolve w root = inr rroot /\ resolve w sd = inl EOTHER) ->
    cleanup_end w sd root l (logged l [Log "warning" "Failed to cleanup session dir"]).

(** ** Sample worlds *)

Definition sample_job : Queue.DownloadJob :=
  Queue.mkJob 7 "http://x/a" ["http://x/a"] (Some 720) None 11.

Definition sample_root : path := ["srv"; "downloads"].

Definition sample_session : path :=
  ["srv"; "downloads"; "session-20260101-000000-abcdef12"].

(** Everything works: one file is produced and delivered. *)
Definition world_ok : world :=
  mkWorld (fun _ => Returned tt)
          (fun _ => Returned sample_session)
          (fun sd => Returned [sd ++ ["a.mp4"]])
          (Raised CancelledError)
          (fun _ => Returned tt)
          (fun _ => inr tt)
          (fun p => inr p)
          (fun _ => inr tt).

(** As [world_ok], but the final edit of the status message to
    "Done." fails (the message was deleted, say). *)
Definition world_done_fails : world :=
  mkWorld (fun text => if String.eqb text "Done." then Raised OtherException
                       else Returned tt)
          (ensure_session_dir world_ok) (download_urls world_ok)
          (progress_task world_ok) (send_file world_ok)
          (unlink world_ok) (resolve world_ok) (rmtree world_ok).

(** As [world_ok], but the download itself fails. *)
Definition world_download_fails : world :=
  mkWorld (bot_edit world_ok)
          (ensure_session_dir world_ok) (fun _ => Raised OtherException)
          (progress_task world_ok) (send_file world_ok)
          (unlink world_ok) (resolve world_ok) (rmtree world_ok).

(** As [world_ok], but the session directory resolves, through a
    symbolic link, to a place outside the download root. *)
Definition world_aliased : world :=
  mkWorld (bot_edit world_ok)
          (ensure_session_dir world_ok) (download_urls world_ok)
          (progress_task world_ok) (send_file world_ok)
          (unlink world_ok)
          (fun p => if decide (p = sample_session) then inr ["home"; "session-x"] else inr p)
          (rmtree world_ok).


(** As [world_ok], but [shutil.rmtree] fails on the session
    directory (a file in it is still held open, say). *)
Definition world_rmtree_fails : world :=
  mkWorld (bot_edit world_ok)
          (ensure_session_dir world_ok) (download_urls world_ok)
          (progress_task world_ok) (send_file world_ok)
          (unlink world_ok) (resolve world_ok) (fun _ => inl EOTHER).


(** ** The wording of the cleanup checks *)

(** [p] lies below [root] and is not [root] itself. *)
Definition is_descendant (p root : path) : bool :=
  is_relative_to p root && (length root <? length p)%nat.

Definition is_digit (c : ascii) : bool :=
  let n := nat_of_ascii c in (48 <=? n)%nat && (n <=? 57)%nat.

Definition is_hex (c : ascii) : bool :=
  let n := nat_of_ascii c in is_digit c || ((97 <=? n)%nat && (n <=? 102)%nat).

(** The text has one character per element of the pattern, each
    accepted by its element. *)
Fixpoint matches (pattern : list (ascii -> bool)) (s : string) : bool :=
  match pattern, s with
  | [], EmptyString => true
  | f :: pattern', String c s' => f c && matches pattern' s'
  | _, _ => false
  end.

(** The names [new_session_id] of src/app/downloader.py builds:
    "session-", the UTC time as [%Y%m%d-%H%M%S], a dash and eight
    hexadecimal digits. *)
Definition is_session_id (s : string) : bool :=
  matches (map Ascii.eqb (list_ascii_of_string "session-")
             ++ repeat is_digit 8 ++ [Ascii.eqb "-"%char]
             ++ repeat is_digit 6 ++ [Ascii.eqb "-"%char]
             ++ repeat is_hex 8) s.

(** A download root that is itself named like a session. *)
Definition session_named_root : path := ["srv"; "session-data"].

(** The session directory created under that root. *)
Definition session_under_root : path :=
  session_named_root ++ ["session-20260101-000000-abcdef12"].

(** As [world_ok] under that root, but the session directory
    resolves, through a symbolic link, to the download root itself. *)
Definition world_root_alias : world :=
  mkWorld (bot_edit world_ok)
          (fun _ => Returned session_under_root) (download_urls world_ok)
          (progress_task world_ok) (send_file world_ok)
          (unlink world_ok)
          (fun p => if decide (p = session_under_root) then inr session_named_root else inr p)
          (rmtree world_ok).

End Worker.

(* ===================================================================== *)
(** * src/app/telegram/keyboards.py                                       *)
(* ===================================================================== *)

Module Keyboards.
Import Py.

(** [InlineKeyboardButton(text, callback_data=..)]. Texts are held in
    UTF-8. *)
Record InlineKeyboardButton : Type := mkButton {
  text : string;
  callback_data : string
}.

(** [InlineKeyboardMarkup(rows)] *)
Definition InlineKeyboardMarkup : Type := list (list InlineKeyboardButton).

Definition bytes (l : list nat) : string := string_of_list_ascii (map ascii_of_nat l).

(** The radio button U+1F518, the white circle U+26AA, and the arrows
    U+2B05 and U+27A1, each followed by the variation selector U+FE0F. *)
Definition radio_button : string := bytes [240; 159; 148; 152]%nat.
Definition white_circle : string := bytes [226; 154; 170]%nat.
Definition left_arrow : string := bytes [226; 172; 133; 239; 184; 143]%nat.
Definition right_arrow : string := bytes [226; 158; 161; 239; 184; 143]%nat.

(** A byte that continues a character of UTF-8 text. *)
Definition is_continuation (c : ascii) : bool :=
  let n := nat_of_ascii c in (128 <=? n)%nat && (n <? 192)%nat.

(** [s[:n]]: the first [n] characters of UTF-8 text. *)
Fixpoint take_chars (n : nat) (s : string) : string :=
  match s with
  | EmptyString => EmptyString
  | String c s' =>
      if is_continuation c then String c (take_chars n s')
      else
        match n with
        | O => EmptyString
        | S n' => String c (take_chars n' s')
        end
  end.

(** [l[start:stop]] *)
Definition slice {A : Type} (l : list A) (start stop : Z) : list A :=
  let len := Z.of_nat (length l) in
  let norm := fun i => if i <? 0 then Z.max 0 (i + len) else Z.min i len in
  firstn (Z.to_nat (norm stop - norm start)) (skipn (Z.to_nat (norm start)) l).

(** [_fmt_duration] *)
Definition _fmt_duration (sec : option Z) : string :=
  match sec with
  | None => ""
  | Some sec =>
      if (sec =? 0) || (sec <=? 0) then ""
      else
        let minutes := sec / 60 in
        let seconds := sec mod 60 in
        (" (" ++ str_of_int minutes ++ ":" ++ Reporter.fmt_02d seconds ++ ")")%string
  end.

(** The row built for one playlist entry. *)
Definition entry_row (token : string) (pending : State.PendingSelection)
           (entry : State.PlaylistEntry) : list InlineKeyboardButton :=
  let checked :=
    if bool_decide (State.index entry ∈ State.selected_indices pending)
    then radio_button else white_circle in
  [mkButton (checked ++ " " ++ str_of_int (State.index entry) ++ ". "
               ++ take_chars 40 (State.title entry)
               ++ _fmt_duration (State.duration_sec entry))%string
            ("pl:" ++ token ++ ":t" ++ str_of_int (State.index entry))%string].

(** [max(1, (total + page_size - 1) // page_size)] *)
Definition page_count (total page_size : Z) : Z :=
  Z.max 1 ((total + page_size - 1) / page_size).

(** [max(0, min(page, page_count - 1))] *)
Definition clamp_page (page count : Z) : Z := Z.max 0 (Z.min page (count - 1)).

(** The navigation row of page [page] out of [count]. *)
Definition nav_row (token : string) (page count : Z) : list InlineKeyboardButton :=
  (if 0 <? page
   then [mkButton left_arrow ("pl:" ++ token ++ ":p" ++ str_of_int (page - 1))%string]
   else [])
  ++ [mkButton (str_of_int (page + 1) ++ "/" ++ str_of_int count)%string
               ("pl:" ++ token ++ ":noop")%string]
  ++ (if page <? count - 1
      then [mkButton right_arrow ("pl:" ++ token ++ ":p" ++ str_of_int (page + 1))%string]
      else []).

(** [playlist_page_keyboard]; [None] is the [ZeroDivisionError] of a
    zero [page_size]. *)
Definition playlist_page_keyboard (token : string) (pending : State.PendingSelection)
           (page page_size : Z) : option InlineKeyboardMarkup :=
  if page_size =? 0 then None
  else
    let total := Z.of_nat (length (State.playlist_entries pending)) in
    let count := page_count total page_size in
    let page := clamp_page page count in
    let start := page * page_size in
    let stop := Z.min total (start + page_size) in
    let rows := map (entry_row token pending)
                    (slice (State.playlist_entries pending) start stop) in
    Some (rows ++ [nav_row token page count]).

(** [quality_keyboard] *)
Definition quality_keyboard (token : string) (heights : list Z) : InlineKeyboardMarkup :=
  [mkButton "Best" ("q:" ++ token ++ ":best")%string]
  :: map (fun h => [mkButton ("Up to " ++ str_of_int h ++ "p")%string
                             ("q:" ++ token ++ ":h" ++ str_of_int h)%string])
         (slice heights 0 6).

(** The rows of a playlist keyboard that stand for entries: all but
    the navigation row, which comes last. *)
Definition entry_rows (kb : option InlineKeyboardMarkup) : InlineKeyboardMarkup :=
  match kb with
  | Some rows => removelast rows
  | None => []
  end.

(** Whether a text holds no colon. *)
Fixpoint colon_free (s : string) : bool :=
  match s with
  | EmptyString => true
  | String c s' => negb (Ascii.eqb c ":"%char) && colon_free s'
  end.

End Keyboards.

(* ===================================================================== *)
(** * src/app/telegram/handlers.py: the selection callbacks               *)
(* ===================================================================== *)

Module Handlers.
Import Py.

(** The parts of a Telegram update the callbacks read. *)
Record User : Type := mkUser { id : Z }.

Record Message : Type := mkMessage { chat_id : Z; message_id : Z }.

Record CallbackQuery : Type := mkQuery {
  from_user : option User;
  message : option Message;
  data : option string
}.

Record Update : Type := mkUpdate { callback_query : option CallbackQuery }.

(** [_validate_selection_owner] *)
Definition _validate_selection_owner (update : Update) (pending : State.PendingSelection)
  : bool :=
  match callback_query update with
  | None => false
  | Some query =>
      if match from_user query with
         | Some u => negb (id u =? State.user_id pending)
         | None => false
         end
      then false
      else
        match message query with
        | None => false
        | Some m => if negb (chat_id m =? State.chat_id pending) then false else true
        end
  end.

(** The objects of [Services] the callbacks change, and whether the
    worker task has been started. *)
Record services : Type := mkServices {
  state : State.InMemoryState;
  queue : Queue.DownloadQueue;
  worker_started : bool
}.

(** The calls a callback makes on the query and the bot. Each of them
    is taken to return normally. *)
Inductive reply : Type :=
| Answer (text : option string) (show_alert : bool)
| EditText (text : string)
| EditQuality (token : string) (heights : list Z)
| EditMarkup (markup : Keyboards.InlineKeyboardMarkup).

(** How a callback ends: by returning, with the [ValueError] raised
    while unpacking [query.data] or reading a number from it, or with
    the [ZeroDivisionError] of a page size of zero. *)
Inductive ending : Type := Done | ValueError | ZeroDivisionError.

(** [s.split(":", 2)] unpacked into exactly three names. *)
Fixpoint cut_colon (s : string) : option (string * string) :=
  match s with
  | EmptyString => None
  | String c s' =>
      if Ascii.eqb c ":"%char then Some (EmptyString, s')
      else
        match cut_colon s' with
        | Some (a, b) => Some (String c a, b)
        | None => None
        end
  end.

Definition split3 (s : string) : option (string * string * string) :=
  match cut_colon s with
  | None => None
  | Some (a, rest) =>
      match cut_colon rest with
      | None => None
      | Some (b, c) => Some (a, b, c)
      end
  end.

(** [action[1:]] *)
Definition tail1 (s : string) : string :=
  match s with
  | EmptyString => EmptyString
  | String _ s' => s'
  end.

(** [next(iter(sorted(indices)), None)] *)
Definition first_sorted (indices : gset Z) : option Z :=
  foldr (fun x acc => match acc with
                      | None => Some x
                      | Some y => Some (Z.min x y)
                      end) None (elements indices).

Definition with_state (sv : services) (st : State.InMemoryState) : services :=
  mkServices st (queue sv) (worker_started sv).

(** An attribute assignment on the [PendingSelection] object that
    [state.get] returned: the object is the one held by the store, so
    the store sees the new value. *)
Definition assign (sv : services) (token : string) (p : State.PendingSelection) : services :=
  with_state sv (State.mkState (<[token := p]> (State.pending (state sv)))
                               (State._ttl_sec (state sv))).

Definition set_selected_indices (p : State.PendingSelection) (s : gset Z)
  : State.PendingSelection :=
  State.mkPending (State.chat_id p) (State.user_id p) (State.url p)
                  (State.playlist_entries p) s (State.heights p)
                  (State.selected_height p) (State.created_at p).

Definition set_selected_height (p : State.PendingSelection) (h : option Z)
  : State.PendingSelection :=
  State.mkPending (State.chat_id p) (State.user_id p) (State.url p)
                  (State.playlist_entries p) (State.selected_indices p) (State.heights p)
                  h (State.created_at p).

(** [enqueue_from_pending]; [now] is the clock read by [state.pop]. *)
Definition enqueue_from_pending (now : Q) (sv : services) (token : string)
  (progress_message_id : Z) : services * list reply :=
  match State.pop (state sv) now token with
  | (st, None) => (with_state sv st, [])
  | (st, Some pending) =>
      let playlist_items :=
        match State.playlist_entries pending with
        | [] => None
        | _ :: _ =>
            let chosen_idx := default 1 (first_sorted (State.selected_indices pending)) in
            Some (str_of_int chosen_idx)
        end in
      let job := Queue.mkJob (State.chat_id pending) (State.url pending)
                             [State.url pending] (State.selected_height pending)
                             playlist_items progress_message_id in
      let '(q, pos) := Queue.enqueue (queue sv) job in
      (mkServices st q true,
       [EditText (UI.italic ("Added to the queue. Position: " ++ str_of_int pos ++ "."
                               ++ UI.nl ++ "Please wait..."))])
  end%string.

Definition message_id_of (query : CallbackQuery) : Z :=
  match message query with
  | Some m => message_id m
  | None => 0   (* not reached: the owner check has seen the message *)
  end.

Section Callbacks.

(** Python's [int(s)] on a string, [None] for [ValueError]. *)
Variable int_of_str : string -> option Z.

(** [services.config.playlist_page_size] *)
Variable page_size : Z.

(** [on_playlist_callback]; [now] is the clock read by [state.get],
    [later] the one read by [state.pop]. *)
Definition on_playlist_callback (now later : Q) (sv : services) (update : Update)
  : services * list reply * ending :=
  match callback_query update with
  | None => (sv, [], Done)
  | Some query =>
      match data query with
      | None => (sv, [], Done)
      | Some d =>
          let out := [Answer None false] in
          match split3 d with
          | None => (sv, out, ValueError)
          | Some (_, token, action) =>
              match State.get (state sv) now token with
              | (st, None) =>
                  (with_state sv st,
                   out ++ [EditText "This selection session has expired. Please send the link again."],
                   Done)
              | (st, Some pending) =>
                  let sv := with_state sv st in
                  if negb (_validate_selection_owner update pending) then
                    (sv, out ++ [Answer (Some "This selection is not for you.") true], Done)
                  else if String.eqb action "noop" then (sv, out, Done)
                  else if String.eqb action "all" || String.eqb action "none" then
                    (sv, out ++ [Answer (Some "You can only select one file now") true], Done)
                  else if String.eqb action "done" then
                    if decide (State.selected_indices pending = ∅) then
                      (sv, out ++ [Answer (Some "Select a file first") true], Done)
                    else if (2 <=? length (State.heights pending))%nat then
                      (sv, out ++ [EditQuality token (State.heights pending)], Done)
                    else
                      let '(sv, r) := enqueue_from_pending later sv token (message_id_of query) in
                      (sv, out ++ r, Done)
                  else if startswith action "p" then
                    match int_of_str (tail1 action) with
                    | None => (sv, out, ValueError)
                    | Some page =>
                        match Keyboards.playlist_page_keyboard token pending page page_size with
                        | None => (sv, out, ZeroDivisionError)
                        | Some markup => (sv, out ++ [EditMarkup markup], Done)
                        end
                    end
                  else if startswith action "t" then
                    match int_of_str (tail1 action) with
                    | None => (sv, out, ValueError)
                    | Some idx =>
                        let pending := set_selected_indices pending {[idx]} in
                        let sv := assign sv token pending in
                        if (2 <=? length (State.heights pending))%nat then
                          (sv, out ++ [EditQuality token (State.heights pending)], Done)
                        else
                          let '(sv, r) := enqueue_from_pending later sv token (message_id_of query) in
                          (sv, out ++ r, Done)
                    end
                  else (sv, out, Done)
              end
          end
      end
  end.

(** [on_quality_callback] *)
Definition on_quality_callback (now later : Q) (sv : services) (update : Update)
  : services * list reply * ending :=
  match callback_query update with
  | None => (sv, [], Done)
  | Some query =>
      match data query with
      | None => (sv, [], Done)
      | Some d =>
          let out := [Answer None false] in
          match split3 d with
          | None => (sv, out, ValueError)
          | Some (_, token, action) =>
              match State.get (state sv) now token with
              | (st, None) =>
                  (with_state sv st,
                   out ++ [EditText "This selection session has expired. Please send the link again."],
                   Done)
              | (st, Some pending) =>
                  let sv := with_state sv st in
                  if negb (_validate_selection_owner update pending) then
                    (sv, out ++ [Answer (Some "This selection is not for you.") true], Done)
                  else if String.eqb action "best" then
                    let sv := assign sv token (set_selected_height pending None) in
                    let '(sv, r) := enqueue_from_pending later sv token (message_id_of query) in
                    (sv, out ++ [Answer (Some "Selected: best") false] ++ r, Done)
                  else if startswith action "h" then
                    match int_of_str (tail1 action) with
                    | None => (sv, out, ValueError)
                    | Some h =>
                        let sv := assign sv token (set_selected_height pending (Some h)) in
                        let '(sv, r) := enqueue_from_pending later sv token (message_id_of query) in
                        (sv,
                         out ++ [Answer (Some ("Selected: up to " ++ str_of_int h ++ "p")%string) false] ++ r,
                         Done)
                    end
                  else (sv, out, Done)
              end
          end
      end
  end.

End Callbacks.

(** A plain parser for signed decimal integers, a stand-in for [int]
    in the examples: every string it accepts, [int] reads as the same
    number. *)
Definition int_of_digits (s : string) : option Z :=
  match NilEmpty.int_of_string s with
  | Some i => Some (Z.of_int i)
  | None => None
  end.

(** What a rejected click is answered with. *)
Definition rejection : list reply :=
  [Answer None false; Answer (Some "This selection is not for you.") true].

(** What both callbacks answer for a token whose selection has
    expired. *)
Definition expired_reply : list reply :=
  [Answer None false;
   EditText "This selection session has expired. Please send the link again."].

(** ** A sample selection and two clicks on its buttons *)

(** A playlist selection of user 42 in chat 7, created at time 100
    under a TTL of one day. *)
Definition sample_pending : State.PendingSelection :=
  State.mkPending 7 42 "http://x/list"
                  [State.mkEntry 1 "one" "http://x/1" None;
                   State.mkEntry 2 "two" "http://x/2" None]
                  ∅ [720] None 100.

Definition sample_services : services :=
  mkServices (fst (State.create (State.new_state 86400) "a1b2c3d4e5f60718" sample_pending))
             Queue.new_queue false.

(** User [user] clicks the button "pick entry 2" in chat 7. *)
Definition click_entry_2 (user : Z) : Update :=
  mkUpdate (Some (mkQuery (Some (mkUser user)) (Some (mkMessage 7 11))
                          (Some "pl:a1b2c3d4e5f60718:t2"))).


End Handlers.

(* ===================================================================== *)
(** * src/app/telegram/worker.py: [update_waiting_queue_positions]        *)
(* ===================================================================== *)

Module Positions.
Import Py.

(** One call [safe_edit_italic(application, chat_id=.., message_id=..,
    text=..)], with the text as the bot receives it. *)
Record edit : Type := mkEdit {
  edit_chat_id : Z;
  edit_message_id : Z;
  edit_text : string
}.

(** [f"In queue. Position: {pos}.\nPlease wait..."] *)
Definition waiting_text (pos : Z) : string :=
  ("In queue. Position: " ++ str_of_int pos ++ "." ++ UI.nl ++ "Please wait...")%string.

(** [enumerate(l, start=start)] *)
Fixpoint enumerate {A : Type} (start : Z) (l : list A) : list (Z * A) :=
  match l with
  | [] => []
  | x :: l' => (start, x) :: enumerate (start + 1) l'
  end.

(** [update_waiting_queue_positions]: the edits it issues, in order.
    Each edit is a safe edit, whose failure is swallowed. *)
Definition update_waiting_queue_positions (q : Queue.DownloadQueue)
  : Queue.DownloadQueue * list edit :=
  let '(q', waiting) := Queue.snapshot q in
  (q',
   map (fun pj : Z * Queue.DownloadJob =>
          mkEdit (Queue.chat_id (snd pj)) (Queue.progress_message_id (snd pj))
                 (UI.italic (waiting_text (fst pj))))
       (enumerate 1 waiting)).

(** The edit that tells [job] it waits at position [pos]. *)
Definition told (job : Queue.DownloadJob) (pos : Z) : edit :=
  mkEdit (Queue.chat_id job) (Queue.progress_message_id job) (UI.italic (waiting_text pos)).

End Positions.

(* ===================================================================== *)
(** * What a run of the reporter or of the worker lets one observe       *)
(* ===================================================================== *)

Module Observed.

(** The clock readings at which the iterations of [progress_updater]
    rendered. *)
Fixpoint render_times (min_interval : Q) (st : Reporter.locals) (ws : list Reporter.wakeup)
  : list Q :=
  match ws with
  | [] => []
  | w :: ws' =>
      let '(st1, out) := Reporter.iteration min_interval st w in
      let now := match w with
                 | Reporter.Event _ _ now => now
                 | Reporter.StallTimeout now => now
                 end in
      match out with
      | Some _ => now :: render_times min_interval st1 ws'
      | None => render_times min_interval st1 ws'
      end
  end.

(** Each reading is at least [gap] after the one before it, [prev]
    standing before the first. *)
Fixpoint spaced (gap prev : Q) (l : list Q) : Prop :=
  match l with
  | [] => True
  | x :: l' => (gap <= x - prev)%Q /\ spaced gap x l'
  end.

(** The files handed to [send_file], in call order. *)
Definition sent (l : Worker.locals) : list Worker.path :=
  omap (fun a => match a with
                 | Worker.Send p => Some p
                 | _ => None
                 end) (Worker.trace l).

(** The files on which [unlink] was called, in call order. *)
Definition unlinked (l : Worker.locals) : list Worker.path :=
  omap (fun a => match a with
                 | Worker.Unlink p => Some p
                 | _ => None
                 end) (Worker.trace l).

(** The clock reading of a wake-up. *)
Definition wakeup_time (w : Reporter.wakeup) : Q :=
  match w with
  | Reporter.Event _ _ now => now
  | Reporter.StallTimeout now => now
  end.

(** The actions that hand over or remove a produced file. *)
Definition is_delivery (a : Worker.action) : bool :=
  match a with
  | Worker.Send _ | Worker.Unlink _ => true
  | _ => false
  end.

(** The files sent and unlinked so far, and the success flag. *)
Definition obs (ps us : list Worker.path) (b : bool) (l : Worker.locals) : Prop :=
  sent l = ps /\ unlinked l = us /\ Worker.job_success l = b.

(** [send_file] returned for every file of the list. *)
Definition all_sent (w : Worker.world) (files : list Worker.path) : Prop :=
  Forall (fun p => Worker.send_file w p = Worker.Returned tt) files.

(** How far the delivery loop got: [k] files were handed to
    [send_file], the first [k'] of them were sent and then unlinked. *)
Definition progress_of (w : Worker.world) (files : list Worker.path)
           (ps us : list Worker.path) (l : Worker.locals) : Prop :=
  exists k k' : nat,
    sent l = ps ++ firstn k files
    /\ unlinked l = us ++ firstn k' files
    /\ (k' <= k)%nat /\ (k <= S k')%nat /\ (k <= length files)%nat
    /\ all_sent w (firstn k' files).

(** What the body of a job leaves behind: nothing sent or unlinked
    and no success, or a delivery of the files the download returned
    that got some way through them. *)
Definition body_delivery (w : Worker.world) (root : Worker.path) (l : Worker.locals) : Prop :=
  (sent l = [] /\ unlinked l = [] /\ Worker.job_success l = false)
  \/ exists sd files,
      Worker.ensure_session_dir w root = Worker.Returned sd
      /\ Worker.download_urls w sd = Worker.Returned files
      /\ progress_of w files [] [] l
      /\ (Worker.job_success l = true ->
          sent l = files /\ unlinked l = files /\ all_sent w files).

(** A float that holds a whole number. *)
Definition whole (q : Q) : bool := Qeq_bool q (inject_Z (Qfloor q)).

(** The totals of the streams are whole numbers of bytes, and a
    hundred times their sum is at most 2^53: on such streams binary64
    carries out the sums, the product and the quotient of the
    aggregation block without rounding, as the exact arithmetic of
    [Downloader.aggregate] does. *)
Definition exact_totals (streams : list (Q * Q)) : Prop :=
  Forall (fun dt => whole (snd dt) = true) streams
  /\ (100 * Downloader.Qsum (map snd streams) <= inject_Z (2 ^ 53))%Q.

(** As [Worker.world_ok], but the download returns no file. *)
Definition world_no_files : Worker.world :=
  Worker.mkWorld (Worker.bot_edit Worker.world_ok)
                 (Worker.ensure_session_dir Worker.world_ok)
                 (fun _ => Worker.Returned [])
                 (Worker.progress_task Worker.world_ok) (Worker.send_file Worker.world_ok)
                 (Worker.unlink Worker.world_ok) (Worker.resolve Worker.world_ok)
                 (Worker.rmtree Worker.world_ok).

End Observed.

(* ===================================================================== *)
(** * Predicates on texts                                                 *)
(* ===================================================================== *)

Module Text.

(** Whether every character of a text satisfies [f]. *)
Fixpoint string_forall (f : ascii -> bool) (s : string) : bool :=
  match s with
  | EmptyString => true
  | String c s' => f c && string_forall f s'
  end.

(** The characters that open or close markup or an attribute value. *)
Definition is_markup (c : ascii) : bool :=
  let n := nat_of_ascii c in
  Nat.eqb n 60 || Nat.eqb n 62 || Nat.eqb n 34 || Nat.eqb n 39.

(** The characters [html.escape] replaces. *)
Definition is_special (c : ascii) : bool :=
  is_markup c || Nat.eqb (nat_of_ascii c) 38.

End Text.

(* ===================================================================== *)
(** * src/app/config.py: the [.env] loader                                *)
(* ===================================================================== *)

Module Config.
Import Py.

Definition double_quote : ascii := ascii_of_nat 34.
Definition single_quote : ascii := ascii_of_nat 39.

(** The last character of a text. *)
Fixpoint last_char (s : string) : option ascii :=
  match s with
  | EmptyString => None
  | String c EmptyString => Some c
  | String _ s' => last_char s'
  end.

(** [s[:-1]] *)
Fixpoint drop_last (s : string) : string :=
  match s with
  | EmptyString => EmptyString
  | String _ EmptyString => EmptyString
  | String c s' => String c (drop_last s')
  end.

(** [_strip_quotes] *)
Definition _strip_quotes (value : string) : string :=
  let value := strip value in
  match value with
  | String first rest =>
      match last_char rest with
      | Some last =>
          if Ascii.eqb first last
             && (Ascii.eqb first double_quote || Ascii.eqb first single_quote)
          then drop_last rest
          else value
      | None => value
      end
  | EmptyString => value
  end.

(** [line.split("=", 1)] when ["=" in line]. *)
Fixpoint cut_equals (s : string) : option (string * string) :=
  match s with
  | EmptyString => None
  | String c s' =>
      if Ascii.eqb c "="%char then Some (EmptyString, s')
      else
        match cut_equals s' with
        | Some (a, b) => Some (String c a, b)
        | None => None
        end
  end.

(** The body of the loop of [load_dotenv] for one line of the file,
    on the process environment [environ]. *)
Definition load_line (environ : gmap string string) (raw_line : string)
  : gmap string string :=
  let line := strip raw_line in
  if String.eqb line "" || startswith line "#" then environ
  else
    match cut_equals line with
    | None => environ
    | Some (key, value) =>
        let key := strip key in
        let value := _strip_quotes value in
        if String.eqb key "" then environ
        else
          match environ !! key with
          | Some _ => environ
          | None => <[key := value]> environ
          end
    end.

(** [load_dotenv]; [file] holds the lines of the file, [None] when
    the path does not exist. *)
Definition load_dotenv (file : option (list string)) (environ : gmap string string)
  : gmap string string :=
  match file with
  | None => environ
  | Some lines => fold_left load_line lines environ
  end.

End Config.

(* ===================================================================== *)
(** * src/app/downloader.py: helpers of [probe_url]                       *)
(* ===================================================================== *)

Module Probe.
Import Py.

(** [is_valid_url] *)
Definition is_valid_url (url : string) : bool :=
  let url := strip url in
  startswith url "http://" || startswith url "https://".

(** A format dictionary, reduced to the keys [available_heights]
    reads. *)
Record format : Type := mkFormat {
  height : value;
  vcodec : value
}.

(** [isinstance(v, int)] and, when it holds, the number. *)
Definition as_int (v : value) : option Z :=
  match v with
  | PBool b => Some (if b then 1 else 0)
  | PInt z => Some z
  | _ => None
  end.

(** The height one element of [formats] adds to the set, if any;
    [None] stands for an element that is not a dictionary. *)
Definition video_height (fmt : option format) : option Z :=
  match fmt with
  | None => None
  | Some fmt =>
      match as_int (height fmt) with
      | Some h =>
          if (0 <? h) && truthy (vcodec fmt) && negb (eq_str (vcodec fmt) "none")
          then Some h else None
      | None => None
      end
  end.

(** [sorted(s, reverse=True)] of a set of ints. *)
Definition sorted_desc (s : gset Z) : list Z := reverse (merge_sort Z.le (elements s)).

(** [available_heights]; [formats] is [info.get("formats") or []]. *)
Definition available_heights (formats : list (option format)) : list Z :=
  sorted_desc (list_to_set (omap video_height formats)).

End Probe.

(* ===================================================================== *)
(** * src/app/telegram/handlers.py: [on_text_url]                         *)
(* ===================================================================== *)

Module Submission.
Import Py.

(** The parts of a text message the handler reads. *)
Record Message : Type := mkMessage {
  chat_id : Z;
  from_user : option Handlers.User;
  text : option string
}.

Record Update : Type := mkUpdate { message : option Message }.

(** [ProbeResult] of src/app/downloader.py *)
Record ProbeResult : Type := mkProbe {
  supported : bool;
  reason : option string;
  playlist_entries : list State.PlaylistEntry;
  heights : list Z
}.

(** [probe_url]; [extract] stands for the [try] statement, which
    asks yt-dlp about the URL and returns a [ProbeResult] from its
    body or from either of its handlers. *)
Definition probe_url (extract : string -> ProbeResult) (url : string) : ProbeResult :=
  if negb (Probe.is_valid_url url)
  then mkProbe false (Some "Invalid link. Expected an http/https URL.") [] []
  else extract url.

(** What the handler reads from outside: whether [find_ffmpeg()] is
    truthy, yt-dlp, the token drawn by [new_token()], the id of the
    status message, the clock readings when the selection is built
    and when it is popped, and [config.playlist_page_size]. *)
Record env : Type := mkEnv {
  find_ffmpeg : bool;
  extract : string -> ProbeResult;
  new_token : string;
  status_message_id : Z;
  created : Q;
  popped : Q;
  playlist_page_size : Z
}.

(** The calls the handler makes on the message, on the status
    message and, through [enqueue_from_pending], on the bot. Each of
    them is taken to return normally. *)
Inductive call : Type :=
| ReplyText (text : string)
| StatusEdit (text : string) (markup : option Keyboards.InlineKeyboardMarkup)
| BotCall (r : Handlers.reply).

(** How the handler ends: by returning, with the [AttributeError] of
    [update.message.from_user.id] on a message without a sender, or
    with the [ZeroDivisionError] of a page size of zero. *)
Inductive ending : Type := Done | AttributeError | ZeroDivisionError.

(** [_cannot_download_text] *)
Definition _cannot_download_text (url : string) : string :=
  ("This service cannot download from this URL:" ++ UI.nl
   ++ url ++ UI.nl ++ UI.nl
   ++ "Please try a different link.")%string.

(** [_require_ffmpeg_text] *)
Definition _require_ffmpeg_text : string :=
  ("ffmpeg was not found on the server, but downloading video+audio requires merging tracks."
   ++ UI.nl ++ UI.nl
   ++ "How to fix:" ++ UI.nl
   ++ "- Install dependencies: pip install -r requirements.txt" ++ UI.nl
   ++ "- Or install system ffmpeg (macOS): brew install ffmpeg")%string.

(** [on_text_url] *)
Definition on_text_url (e : env) (sv : Handlers.services) (update : Update)
  : Handlers.services * list call * ending :=
  match message update with
  | None => (sv, [], Done)
  | Some msg =>
      match text msg with
      | None => (sv, [], Done)
      | Some t =>
          let url := strip t in
          match from_user msg with
          | None => (sv, [], AttributeError)
          | Some user =>
              if negb (find_ffmpeg e) then (sv, [ReplyText _require_ffmpeg_text], Done)
              else
                let out := [ReplyText (UI.italic "Checking the link...")] in
                let probe := probe_url (extract e) url in
                if negb (supported probe) then
                  (sv, out ++ [StatusEdit (_cannot_download_text url) None], Done)
                else
                  let pending :=
                    State.mkPending (chat_id msg) (Handlers.id user) url
                                    (playlist_entries probe) ∅ (heights probe) None
                                    (created e) in
                  let '(st, token) := State.create (Handlers.state sv) (new_token e) pending in
                  let sv := Handlers.with_state sv st in
                  if (1 <? length (playlist_entries probe))%nat then
                    let text :=
                      ("Multiple files were found at the link: "
                       ++ str_of_int (Z.of_nat (length (playlist_entries probe))) ++ "."
                       ++ UI.nl ++ "Select one file to download.")%string in
                    match Keyboards.playlist_page_keyboard token pending 0
                                                           (playlist_page_size e) with
                    | None => (sv, out, ZeroDivisionError)
                    | Some kb => (sv, out ++ [StatusEdit (UI.italic text) (Some kb)], Done)
                    end
                  else if (2 <=? length (heights probe))%nat then
                    (sv,
                     out ++ [StatusEdit
                               (UI.italic "Multiple quality options are available. Choose: ")
                               (Some (Keyboards.quality_keyboard token (heights probe)))],
                     Done)
                  else
                    let pending :=
                      Handlers.set_selected_indices
                        pending
                        (match playlist_entries probe with
                         | [] => ∅
                         | _ :: _ => {[1]}
                         end) in
                    let sv := Handlers.assign sv token pending in
                    let '(sv, r) :=
                      Handlers.enqueue_from_pending (popped e) sv token (status_message_id e) in
                    (sv, out ++ map BotCall r, Done)
          end
      end
  end.

(** The keyboard a list of calls shows last, if any. *)
Definition shown (calls : list call) : option Keyboards.InlineKeyboardMarkup :=
  match List.last calls (ReplyText "") with
  | StatusEdit _ markup => markup
  | _ => None
  end.

(** ** Sample submissions *)

(** User 42 sends a link in chat 7. *)
Definition sample_update : Update :=
  mkUpdate (Some (mkMessage 7 (Some (Handlers.mkUser 42)) (Some " http://x/list "))).

(** yt-dlp finds a single file and one quality. *)
Definition sample_env : env :=
  mkEnv true (fun _ => mkProbe true None [] [720]) "a1b2c3d4e5f60718" 11 100 101 8.

(** yt-dlp finds the two entries of the sample playlist. *)
Definition sample_playlist_env : env :=
  mkEnv true
        (fun _ => mkProbe true None (State.playlist_entries Handlers.sample_pending) [720])
        "a1b2c3d4e5f60718" 11 100 101 8.

Definition empty_services : Handlers.services :=
  Handlers.mkServices (State.new_state 86400) Queue.new_queue false.

End Submission.


(* ===================================================================== *)
(** * Properties of the job queue                                       *)
(* ===================================================================== *)

Module QueueProofs.
Import Queue.

Lemma enqueued_app (xs ys : list op) :
  enqueued (xs ++ ys) = enqueued xs ++ enqueued ys.
Proof.
  induction xs as [|o xs IH]; simpl; [reflexivity|].
  destruct o; simpl; rewrite IH; reflexivity.
Qed.

Lemma consumer_turn_log (s : system) :
  received (consumer_turn s) ++ items (queue (consumer_turn s))
  = received s ++ items (queue s).
Proof.
  unfold consumer_turn, get.
  destruct (items (queue s)) as [|job rest] eqn:E; simpl.
  - rewrite E. reflexivity.
  - rewrite <- app_assoc. reflexivity.
Qed.

(** The invariant of every transition: what was received followed by
    what still waits is what was enqueued. *)
Lemma step_log (s : system) (o : op) :
  received (step s o) ++ items (queue (step s o))
  = (received s ++ items (queue s)) ++ enqueued [o].
Proof.
  destruct o; simpl.
  - rewrite app_assoc. reflexivity.
  - rewrite app_nil_r. destruct (cons s); [apply consumer_turn_log|reflexivity].
  - rewrite app_nil_r. destruct (cons s); [reflexivity|apply consumer_turn_log].
  - rewrite app_nil_r. reflexivity.
Qed.

Lemma run_log (ops : list op) (s : system) :
  received (run ops s) ++ items (queue (run ops s))
  = (received s ++ items (queue s)) ++ enqueued ops.
Proof.
  revert s. induction ops as [|o ops IH]; intros s; simpl.
  - rewrite app_nil_r. reflexivity.
  - unfold run in IH. rewrite IH, step_log.
    rewrite <- app_assoc. f_equal.
    destruct o; reflexivity.
Qed.

Lemma step_keeps_waiting (s : system) (o : op) :
  is_dequeue o = false ->
  exists tail, items (queue (step s o)) = items (queue s) ++ tail
               /\ received (step s o) = received s.
Proof.
  destruct o; simpl; try discriminate; intros _.
  - exists [job]. split; reflexivity.
  - exists []. rewrite app_nil_r. split; reflexivity.
Qed.

(** A consumer that runs the body of [get] on a queue that holds a
    job leaves [get] with the oldest waiting job. *)
Lemma consumer_turn_receives (s : system) (job : DownloadJob) (rest : list DownloadJob) :
  items (queue s) = job :: rest ->
  consumer_turn s = mkSystem (mkQueue rest) Idle (received s ++ [job]) (positions s).
Proof. intros H. unfold consumer_turn, get. rewrite H. reflexivity. Qed.

(** C3. Whatever the interleaving of [enqueue] calls with the single
    consumer's [get] calls, the jobs received so far followed by the
    jobs still waiting are exactly the jobs enqueued, in enqueue
    order (nothing reordered, duplicated or dropped). [get] on a
    queue that holds a job returns the oldest waiting job and leaves
    the others in their order; on an empty queue it keeps its caller
    waiting and returns nothing. So the consumer, calling [get] or
    waking up inside it while a job waits, receives the oldest
    waiting job next, and that job leaves the queue. An operation
    other than the consumer's [get] removes nothing. *)
Theorem queue_fifo :
  (forall ops : list op,
      received (run ops init) ++ items (queue (run ops init)) = enqueued ops)
  /\ (forall (q : DownloadQueue) (job : DownloadJob) (rest : list DownloadJob),
         items q = job :: rest -> get q = Some (job, mkQueue rest))
  /\ (forall q : DownloadQueue, items q = [] -> get q = None)
  /\ (forall (s : system) (o : op) (job : DownloadJob) (rest : list DownloadJob),
         items (queue s) = job :: rest ->
         (o = CallGet /\ cons s = Idle) \/ (o = Resume /\ cons s = Waiting) ->
         received (step s o) = received s ++ [job]
         /\ items (queue (step s o)) = rest
         /\ cons (step s o) = Idle)
  /\ (forall (q q' : DownloadQueue) (job : DownloadJob),
         get q = Some (job, q') -> items q = job :: items q')
  /\ (forall (s : system) (o : op),
         is_dequeue o = false ->
         received (step s o) = received s
         /\ exists tail, items (queue (step s o)) = items (queue s) ++ tail).
Proof.
  split; [|split; [|split; [|split; [|split]]]].
  - intros ops. rewrite run_log. reflexivity.
  - intros q job rest H. unfold get. rewrite H. reflexivity.
  - intros q H. unfold get. rewrite H. reflexivity.
  - intros s o job rest H [[-> Hc]|[-> Hc]]; cbn [step]; rewrite Hc;
      rewrite (consumer_turn_receives s job rest H); repeat split; reflexivity.
  - intros q q' job. unfold get.
    destruct (items q) as [|j rest]; [discriminate|].
    intros H. injection H as -> <-. reflexivity.
  - intros s o Ho. destruct (step_keeps_waiting s o Ho) as [tail [Ht Hr]].
    split; [exact Hr|]. exists tail. exact Ht.
Qed.

(** The consumer asks first and is suspended, two producers enqueue,
    the consumer wakes up and later asks again, with a snapshot taken
    in between: it has received [job_a] then [job_b]. *)
Lemma queue_fifo_witness :
  received (run [CallGet; CallEnqueue job_a; CallEnqueue job_b; Resume;
                 CallSnapshot; CallGet] init)
  ++ items (queue (run [CallGet; CallEnqueue job_a; CallEnqueue job_b; Resume;
                        CallSnapshot; CallGet] init))
  = [job_a; job_b]
  /\ get (mkQueue [job_a; job_b]) = Some (job_a, mkQueue [job_b])
  /\ received (step (mkSystem (mkQueue [job_a; job_b]) Waiting [] []) Resume) = [] ++ [job_a]
  /\ received (step init (CallEnqueue job_a)) = received init.
Proof.
  split; [|split; [|split]].
  - apply (proj1 queue_fifo
                 [CallGet; CallEnqueue job_a; CallEnqueue job_b; Resume; CallSnapshot; CallGet]).
  - apply (proj1 (proj2 queue_fifo) (mkQueue [job_a; job_b]) job_a [job_b]).
    reflexivity.
  - apply (proj1 (proj2 (proj2 (proj2 queue_fifo)))
                 (mkSystem (mkQueue [job_a; job_b]) Waiting [] []) Resume job_a [job_b]).
    + reflexivity.
    + right. split; reflexivity.
  - apply (proj2 (proj2 (proj2 (proj2 (proj2 queue_fifo)))) init (CallEnqueue job_a)).
    reflexivity.
Defined.

(** C8. [enqueue] puts the job at the tail and returns the number of
    waiting jobs after the insertion, which is the 1-based index at
    which the job now sits. *)
Theorem enqueue_position (q : DownloadQueue) (job : DownloadJob) :
  let '(q', pos) := enqueue q job in
  items q' = items q ++ [job]
  /\ pos = qsize q'
  /\ pos = qsize q + 1
  /\ nth_error (items q') (Z.to_nat (pos - 1)) = Some job.
Proof.
  unfold enqueue, qsize. simpl.
  rewrite length_app. simpl.
  repeat split.
  - lia.
  - replace (Z.to_nat (Z.of_nat (length (items q) + 1) - 1)) with (length (items q)) by lia.
    rewrite nth_error_app2 by lia.
    rewrite Nat.sub_diag. reflexivity.
Qed.

End QueueProofs.

(* ===================================================================== *)
(** * Facts about the Python built-ins                                    *)
(* ===================================================================== *)

Module PyFacts.

Lemma Qlt_bool_true (a b : Q) : (a < b)%Q -> Py.Qlt_bool a b = true.
Proof.
  intros H. unfold Py.Qlt_bool.
  destruct (Qle_bool b a) eqn:E; [|reflexivity].
  apply Qle_bool_iff in E. exfalso. exact (Qlt_not_le _ _ H E).
Qed.

Lemma Qlt_bool_false (a b : Q) : (b <= a)%Q -> Py.Qlt_bool a b = false.
Proof.
  intros H. unfold Py.Qlt_bool.
  apply Qle_bool_iff in H. rewrite H. reflexivity.
Qed.

Lemma Qlt_bool_spec (a b : Q) :
  BoolSpec (a < b)%Q (b <= a)%Q (Py.Qlt_bool a b).
Proof.
  destruct (Qlt_le_dec a b) as [H|H].
  - rewrite (Qlt_bool_true _ _ H). constructor. exact H.
  - rewrite (Qlt_bool_false _ _ H). constructor. exact H.
Qed.

Lemma Qle_bool_spec (a b : Q) :
  BoolSpec (a <= b)%Q (b < a)%Q (Qle_bool a b).
Proof.
  destruct (Qlt_le_dec b a) as [H|H].
  - destruct (Qle_bool a b) eqn:E; constructor; [|exact H].
    apply Qle_bool_iff in E. exfalso. exact (Qlt_not_le _ _ H E).
  - apply Qle_bool_iff in H as E. rewrite E. constructor. exact H.
Qed.

Lemma eq_str_true (v : Py.value) (s : string) :
  Py.eq_str v s = true -> v = Py.PStr s.
Proof.
  destruct v; simpl; try discriminate.
  intros H. apply String.eqb_eq in H. congruence.
Qed.

(** On a non-negative float, [int] is the floor. *)
Lemma int_of_float_floor (x : Q) : (0 <= x)%Q -> Py.int_of_float x = Qfloor x.
Proof.
  destruct x as [n d]. unfold Qle, Py.int_of_float. simpl. intros H.
  apply Z.quot_div_nonneg; lia.
Qed.

Lemma clamp_percent_bounds (p : Q) :
  (0 <= Py.max 0 (Py.min 100 p) <= 100)%Q.
Proof.
  unfold Py.max, Py.min.
  destruct (Qlt_bool_spec p 100); cbv iota;
    match goal with
    | |- context [Py.Qlt_bool ?a ?b] => destruct (Qlt_bool_spec a b); cbv iota
    end;
    lra.
Qed.

Lemma clamp_percent_comp (p q : Q) :
  (p == q)%Q -> (Py.max 0 (Py.min 100 p) == Py.max 0 (Py.min 100 q))%Q.
Proof.
  intros H. unfold Py.max, Py.min.
  destruct (Qlt_bool_spec p 100); destruct (Qlt_bool_spec q 100); cbv iota;
    repeat match goal with
           | |- context [Py.Qlt_bool ?a ?b] => destruct (Qlt_bool_spec a b); cbv iota
           end;
    lra.
Qed.

(** The integer percent [int(max(0.0, min(100.0, p)))] depends on the
    value of [p] only, and lies in 0..100. *)
Lemma percent_int_comp (p q : Q) :
  (p == q)%Q ->
  Py.int_of_float (Py.max 0 (Py.min 100 p)) = Py.int_of_float (Py.max 0 (Py.min 100 q)).
Proof.
  intros H.
  rewrite !int_of_float_floor by apply clamp_percent_bounds.
  apply Qfloor_comp, clamp_percent_comp, H.
Qed.

Lemma percent_int_bounds (p : Q) :
  0 <= Py.int_of_float (Py.max 0 (Py.min 100 p)) <= 100.
Proof.
  rewrite int_of_float_floor by apply clamp_percent_bounds.
  destruct (clamp_percent_bounds p) as [Hlo Hhi].
  split.
  - change 0 with (Qfloor 0). apply Qfloor_resp_le, Hlo.
  - change 100 with (Qfloor 100). apply Qfloor_resp_le, Hhi.
Qed.

End PyFacts.

(* ===================================================================== *)
(** * Properties of the selection session store                          *)
(* ===================================================================== *)

Module StateProofs.
Import State PyFacts.

Lemma get_expired (st : InMemoryState) (now : Q) (token : string) (p : PendingSelection) :
  pending st !! token = Some p ->
  expired st now p = true ->
  get st now token = (mkState (delete token (pending st)) (_ttl_sec st), None).
Proof. intros Hl He. unfold get. rewrite Hl, He. reflexivity. Qed.

Lemma pop_expired (st : InMemoryState) (now : Q) (token : string) (p : PendingSelection) :
  pending st !! token = Some p ->
  expired st now p = true ->
  pop st now token = (mkState (delete token (pending st)) (_ttl_sec st), None).
Proof. intros Hl He. unfold pop. rewrite Hl, He. reflexivity. Qed.

Lemma get_live (st : InMemoryState) (now : Q) (token : string) (p : PendingSelection) :
  pending st !! token = Some p ->
  expired st now p = false ->
  get st now token = (st, Some p).
Proof. intros Hl He. unfold get. rewrite Hl, He. reflexivity. Qed.

(** After [pop], whatever it returned, the token is not in the store. *)
Lemma pop_removes (st : InMemoryState) (now : Q) (token : string) :
  pending (fst (pop st now token)) !! token = None.
Proof.
  unfold pop. destruct (pending st !! token) as [p|] eqn:Hl; simpl.
  - destruct (expired st now p); simpl; apply lookup_delete_eq.
  - exact Hl.
Qed.

Lemma pop_absent (st : InMemoryState) (now : Q) (token : string) :
  pending st !! token = None -> snd (pop st now token) = None.
Proof. intros Hl. unfold pop. rewrite Hl. reflexivity. Qed.

(** C4. A stored selection older than the TTL is reported absent by
    both [get] and [pop], and the lookup itself purges it from the
    store, whatever happened to the token before; and a second [pop]
    of a token always reports absent, at any two clock readings. *)
Theorem lazy_expiry_and_single_take :
  (forall (st : InMemoryState) (token : string) (p : PendingSelection) (now : Q),
      pending st !! token = Some p ->
      (_ttl_sec st < now - created_at p)%Q ->
      snd (get st now token) = None
      /\ snd (pop st now token) = None
      /\ pending (fst (get st now token)) = delete token (pending st)
      /\ pending (fst (pop st now token)) = delete token (pending st)
      /\ pending (fst (get st now token)) !! token = None
      /\ pending (fst (pop st now token)) !! token = None)
  /\ (forall (st : InMemoryState) (token : string) (now1 now2 : Q),
        snd (pop (fst (pop st now1 token)) now2 token) = None).
Proof.
  split.
  - intros st token p now Hl Hold.
    assert (He : expired st now p = true) by (apply Qlt_bool_true; exact Hold).
    rewrite (get_expired _ _ _ _ Hl He), (pop_expired _ _ _ _ Hl He). simpl.
    repeat split; apply lookup_delete_eq.
  - intros st token now1 now2. apply pop_absent, pop_removes.
Qed.

(** A selection created at time 100 under a TTL of 60 seconds is
    looked up for the first time at time 161. *)
Lemma lazy_expiry_witness :
  snd (get sample_store 161 "a1b2c3d4e5f60718") = None
  /\ snd (pop sample_store 161 "a1b2c3d4e5f60718") = None
  /\ pending (fst (get sample_store 161 "a1b2c3d4e5f60718"))
     = delete "a1b2c3d4e5f60718" (pending sample_store)
  /\ pending (fst (pop sample_store 161 "a1b2c3d4e5f60718"))
     = delete "a1b2c3d4e5f60718" (pending sample_store)
  /\ pending (fst (get sample_store 161 "a1b2c3d4e5f60718")) !! "a1b2c3d4e5f60718" = None
  /\ pending (fst (pop sample_store 161 "a1b2c3d4e5f60718")) !! "a1b2c3d4e5f60718" = None.
Proof.
  apply (proj1 lazy_expiry_and_single_take sample_store "a1b2c3d4e5f60718" sample_pending 161%Q).
  - vm_compute. reflexivity.
  - vm_compute. reflexivity.
Defined.

End StateProofs.

(* ===================================================================== *)
(** * Properties of the progress hook                                    *)
(* ===================================================================== *)

Module DownloaderProofs.
Import Py Downloader PyFacts.

Lemma run_hook_cons f cb st e evs :
  run_hook f cb st (e :: evs)
  = (fst (run_hook f cb (fst (hook f cb st e)) evs),
     snd (hook f cb st e) ++ snd (run_hook f cb (fst (hook f cb st e)) evs)).
Proof.
  simpl. destruct (hook f cb st e) as [st1 out1]. simpl.
  destruct (run_hook f cb st1 evs) as [st2 out2]. reflexivity.
Qed.

Lemma run_hook_app f cb st xs ys :
  run_hook f cb st (xs ++ ys)
  = (fst (run_hook f cb (fst (run_hook f cb st xs)) ys),
     snd (run_hook f cb st xs) ++ snd (run_hook f cb (fst (run_hook f cb st xs)) ys)).
Proof.
  revert st. induction xs as [|x xs IH]; intros st.
  - simpl. destruct (run_hook f cb st ys). reflexivity.
  - rewrite <- app_comm_cons, !run_hook_cons, IH. simpl.
    rewrite app_assoc. reflexivity.
Qed.

(** ** What one call of [_emit_download_percent] can do *)

Lemma int_of_float_inject (z : Z) : int_of_float (inject_Z z) = z.
Proof. unfold int_of_float. simpl. apply Z.quot_1_r. Qed.

Lemma emit_download_percent_result cb st p :
  emit_result st (_emit_download_percent cb st p).
Proof.
  unfold _emit_download_percent.
  destruct cb; simpl; [|constructor].
  destruct (Z.eqb_spec (int_of_float (max 0 (min 100 p))) (last_percent st)).
  - constructor.
  - constructor. assumption.
Qed.

Lemma record_download_scalars st key e :
  last_percent (record_download st key e) = last_percent st
  /\ processing_announced (record_download st key e) = processing_announced st.
Proof.
  unfold record_download.
  destruct (nonneg_number _), (positive_number _); simpl; split; reflexivity.
Qed.

Lemma hook_transfer_result f cb st e :
  is_processing_event e = false -> hook_result st (hook f cb st e).
Proof.
  intros Hp. unfold hook. unfold is_processing_event in Hp. rewrite Hp.
  destruct (eq_str (status e) "finished").
  { destruct (positive_number _); constructor; reflexivity. }
  destruct (eq_str (status e) "downloading"); simpl; [|constructor; reflexivity].
  destruct (record_download_scalars st (stream_key e) e) as [Hl Ha].
  set (st1 := record_download st (stream_key e) e) in *.
  assert (Hemit : forall p, hook_result st (_emit_download_percent cb st1 p)).
  { intros p. destruct (emit_download_percent_result cb st1 p).
    - constructor; assumption.
    - constructor; simpl; congruence. }
  destruct (aggregate st1); [apply Hemit|].
  destruct (_percent_str e); try (constructor; assumption).
  destruct (f _); [|constructor; assumption].
  destruct (Qlt_bool _ _); [constructor; assumption|apply Hemit].
Qed.

Lemma hook_processing f cb st e :
  is_processing_event e = true -> hook f cb st e = _emit_processing cb st.
Proof.
  intros Hp. unfold hook. unfold is_processing_event in Hp. rewrite Hp. reflexivity.
Qed.

(** ** The processing latch *)

Lemma processing_calls_app xs ys :
  processing_calls (xs ++ ys) = processing_calls xs ++ processing_calls ys.
Proof. apply List.filter_app. Qed.

Lemma hook_transfer_latch f cb st e :
  is_processing_event e = false ->
  processing_announced (fst (hook f cb st e)) = processing_announced st
  /\ processing_calls (snd (hook f cb st e)) = [].
Proof.
  intros Hp. destruct (hook_transfer_result f cb st e Hp); simpl; split; auto.
Qed.

Lemma run_hook_latch f st evs :
  processing_announced (fst (run_hook f true st evs))
  = processing_announced st || existsb is_processing_event evs
  /\ processing_calls (snd (run_hook f true st evs))
     = if processing_announced st then []
       else if existsb is_processing_event evs then [("processing", None)] else [].
Proof.
  revert st. induction evs as [|e evs IH]; intros st.
  - simpl. rewrite orb_false_r. destruct (processing_announced st); split; reflexivity.
  - rewrite run_hook_cons. cbn [fst snd existsb].
    rewrite processing_calls_app.
    destruct (IH (fst (hook f true st e))) as [IHa IHc]. rewrite IHa, IHc.
    destruct (is_processing_event e) eqn:Hp.
    + rewrite (hook_processing _ _ _ _ Hp). unfold _emit_processing. simpl.
      destruct (processing_announced st) eqn:E; simpl; rewrite ?E; simpl;
        split; reflexivity.
    + destruct (hook_transfer_latch f true st e Hp) as [Ha Hc]. rewrite Ha, Hc.
      simpl. split; reflexivity.
Qed.

(** C7. With a progress callback installed, the calls announcing the
    processing phase over any sequence of raw events of a job are
    [("processing", None)] once if some event carries a processing or
    postprocessing status and none otherwise; the one call is made by
    the first such event, and any later such event makes no call. *)
Theorem processing_latched_once (float_of_str : string -> option Q) :
  (forall events : list progress,
      processing_calls (snd (run_hook float_of_str true closure_init events))
      = if existsb is_processing_event events then [("processing", None)] else [])
  /\ (forall (before : list progress) (e : progress),
         existsb is_processing_event before = false ->
         is_processing_event e = true ->
         snd (hook float_of_str true
                   (fst (run_hook float_of_str true closure_init before)) e)
         = [("processing", None)])
  /\ (forall (before between : list progress) (e e' : progress),
         is_processing_event e = true ->
         is_processing_event e' = true ->
         snd (hook float_of_str true
                   (fst (run_hook float_of_str true closure_init (before ++ e :: between))) e')
         = []).
Proof.
  split; [|split].
  - intros events. destruct (run_hook_latch float_of_str closure_init events) as [_ H].
    exact H.
  - intros before e Hb He.
    destruct (run_hook_latch float_of_str closure_init before) as [Ha _].
    rewrite Hb in Ha. simpl in Ha.
    rewrite (hook_processing _ _ _ _ He). unfold _emit_processing. simpl.
    rewrite Ha. reflexivity.
  - intros before between e e' He He'.
    destruct (run_hook_latch float_of_str closure_init (before ++ e :: between)) as [Ha _].
    rewrite existsb_app in Ha. simpl in Ha. rewrite He in Ha.
    rewrite orb_true_l, orb_true_r in Ha. simpl in Ha.
    rewrite (hook_processing _ _ _ _ He'). unfold _emit_processing. simpl.
    rewrite Ha. reflexivity.
Qed.

(** A merge follows the transfer of two streams and reports its
    status three times: the first report is announced, the later ones
    are not. *)
Lemma processing_latched_once_witness :
  snd (hook float_of_digits true
            (fst (run_hook float_of_digits true closure_init
                           [downloading "A" 100 100; downloading "B" 200 200]))
            postprocessing)
  = [("processing", None)]
  /\ snd (hook float_of_digits true
              (fst (run_hook float_of_digits true closure_init
                             ([downloading "A" 100 100; downloading "B" 200 200]
                                ++ postprocessing :: [postprocessing])))
              postprocessing)
     = [].
Proof.
  split.
  - apply (proj1 (proj2 (processing_latched_once float_of_digits))); reflexivity.
  - apply (proj2 (proj2 (processing_latched_once float_of_digits))); reflexivity.
Defined.

(** ** Coalescing: no integer percent is announced twice in a row *)

Lemma download_percents_app xs ys :
  download_percents (xs ++ ys) = download_percents xs ++ download_percents ys.
Proof.
  induction xs as [|[phase [p|]] xs IH]; simpl; [reflexivity| |exact IH].
  destruct (String.eqb phase "download"); simpl; rewrite IH; reflexivity.
Qed.

Lemma hook_last_percent f cb st e :
  (download_percents (snd (hook f cb st e)) = []
   /\ last_percent (fst (hook f cb st e)) = last_percent st)
  \/ (exists pi, pi <> last_percent st
                 /\ download_percents (snd (hook f cb st e)) = [pi]
                 /\ last_percent (fst (hook f cb st e)) = pi).
Proof.
  destruct (is_processing_event e) eqn:Hp.
  - left. rewrite (hook_processing _ _ _ _ Hp). unfold _emit_processing.
    destruct cb; simpl; [|split; reflexivity].
    destruct (processing_announced st); simpl; split; reflexivity.
  - destruct (hook_transfer_result f cb st e Hp) as [st' Hl Ha|st' pi Hne Hl Ha].
    + left. split; [reflexivity|exact Hl].
    + right. exists pi. simpl. rewrite int_of_float_inject. auto.
Qed.

(** The emitted integer percents of a job never hold the same value
    twice in a row, and the first one differs from the initial -1. *)
Lemma run_hook_no_repeat f cb st events :
  no_repeat_after (last_percent st) (download_percents (snd (run_hook f cb st events))).
Proof.
  revert st. induction events as [|e events IH]; intros st; [exact I|].
  rewrite run_hook_cons. cbn [snd]. rewrite download_percents_app.
  specialize (IH (fst (hook f cb st e))).
  destruct (hook_last_percent f cb st e) as [[Hn Hl]|[pi [Hne [Hp Hl]]]].
  - rewrite Hn, <- Hl. exact IH.
  - rewrite Hp. simpl. split; [exact Hne|]. rewrite <- Hl. exact IH.
Qed.

(** C1 (evaluation at the failing input). The video stream is
    reported at 50 and then at 100 of its 100 bytes, and 50 and 100
    are emitted; then the audio stream starts at 0 of 200 bytes, the
    aggregate is recomputed as 100 x 100 / 300, and the lower percent
    33 is emitted after 100. *)
Theorem aggregate_percent_regresses (float_of_str : string -> option Q) :
  download_percents
    (snd (run_hook float_of_str true closure_init
                   [downloading "video.f137.mp4" 50 100;
                    downloading "video.f137.mp4" 100 100;
                    finished "video.f137.mp4" 100;
                    downloading "audio.f140.m4a" 0 200]))
  = [50; 100; 33].
Proof. vm_compute. reflexivity. Qed.

(** While no percent was emitted, [last_percent] keeps its value. *)
Lemma run_hook_silent f cb st events :
  download_percents (snd (run_hook f cb st events)) = [] ->
  last_percent (fst (run_hook f cb st events)) = last_percent st.
Proof.
  revert st. induction events as [|e events IH]; intros st; [reflexivity|].
  rewrite run_hook_cons. cbn [fst snd]. rewrite download_percents_app.
  intros H. apply app_eq_nil in H as [H1 H2].
  rewrite (IH _ H2).
  destruct (hook_last_percent f cb st e) as [[_ Hl]|[pi [_ [Hp _]]]]; [exact Hl|].
  rewrite Hp in H1. discriminate.
Qed.

(** The integer percents emitted for a job never hold the same value
    twice in a row; and the first call of [_emit_download_percent] of
    a job always emits: as long as the events of the job have led to
    no emission, a call with any percent [p] emits
    [int(max(0.0, min(100.0, p)))] and records it. *)
Theorem emitted_percents_never_repeat (float_of_str : string -> option Q)
        (cb : bool) (events : list progress) :
  no_repeat_after (-1)
    (download_percents (snd (run_hook float_of_str cb closure_init events)))
  /\ (download_percents (snd (run_hook float_of_str cb closure_init events)) = [] ->
      forall p : Q,
        let st := fst (run_hook float_of_str cb closure_init events) in
        let pi := int_of_float (max 0 (min 100 p)) in
        _emit_download_percent true st p
        = (set_last_percent st pi, [("download", Some (inject_Z pi))])
        /\ download_percents (snd (_emit_download_percent true st p)) = [pi]).
Proof.
  split; [apply (run_hook_no_repeat float_of_str cb closure_init events)|].
  intros Hnone p st pi.
  pose proof (run_hook_silent float_of_str cb closure_init events Hnone) as Hl.
  fold st in Hl. cbn [last_percent closure_init] in Hl.
  assert (He : _emit_download_percent true st p
               = (set_last_percent st pi, [("download", Some (inject_Z pi))])).
  { unfold _emit_download_percent. cbn [negb]. fold pi. rewrite Hl.
    destruct (Z.eqb_spec pi (-1)) as [E|_]; [|reflexivity].
    pose proof (percent_int_bounds p) as Hb. fold pi in Hb. lia. }
  split; [exact He|].
  rewrite He. cbn [snd download_percents]. rewrite int_of_float_inject. reflexivity.
Qed.

(** ** The aggregate percent and its specification *)

Lemma emit_download_percent_comp cb st (p q : Q) :
  (p == q)%Q -> _emit_download_percent cb st p = _emit_download_percent cb st q.
Proof.
  intros H. unfold _emit_download_percent.
  rewrite (percent_int_comp p q H). reflexivity.
Qed.

Lemma omap_cons_eq {A B : Type} (f : A -> option B) (x : A) (l : list A) :
  omap f (x :: l) = match f x with Some y => y :: omap f l | None => omap f l end.
Proof. reflexivity. Qed.

Section Streams.

Variable fd : gmap string Q.

Lemma totals_of_streams (items : list (string * Q)) :
  map snd (omap (stream_of fd) items) = List.filter (fun t => Qlt_bool 0 t) (map snd items).
Proof.
  induction items as [|[k t] items IH]; [reflexivity|].
  rewrite omap_cons_eq. cbn [map List.filter snd]. unfold stream_of at 1. cbn [snd fst].
  destruct (Qlt_bool 0 t); cbn [map snd]; rewrite IH; reflexivity.
Qed.

Lemma sum_total_spec (l : list Q) (a : Q) :
  (fold_left Qplus l a == a + Qsum l)%Q.
Proof.
  revert a. induction l as [|x l IH]; intros a; simpl.
  - ring.
  - rewrite IH. ring.
Qed.

(** The two tests of the loop body clamp [d] into [[0, t]]. *)
Lemma loop_clamp (d t : Q) :
  (0 < t)%Q ->
  ((let d1 := if Qlt_bool d 0 then 0 else d in if Qlt_bool t d1 then t else d1)
   == clamp 0 t d)%Q.
Proof.
  intros Ht. unfold clamp. cbv zeta.
  destruct (Qlt_bool_spec d 0); cbv iota;
    match goal with
    | |- context [Qlt_bool ?a ?b] => destruct (Qlt_bool_spec a b); cbv iota
    end;
    try lra.
  - rewrite (Q.min_r t d) by lra. rewrite Q.max_l by lra. reflexivity.
  - rewrite (Q.min_l t d) by lra. rewrite Q.max_r by lra. reflexivity.
  - rewrite (Q.min_r t d) by lra. rewrite Q.max_r by lra. reflexivity.
Qed.

Lemma sum_done_spec (items : list (string * Q)) (a : Q) :
  (fold_left (add_done fd) items a
   == a + Qsum (map (fun dt => clamp 0 (snd dt) (fst dt)) (omap (stream_of fd) items)))%Q.
Proof.
  revert a. induction items as [|[k t] items IH]; intros a.
  - simpl. ring.
  - rewrite omap_cons_eq. cbn [fold_left]. rewrite IH.
    unfold stream_of at 2. unfold add_done at 1. cbn [fst snd].
    change (Qlt_bool 0 t) with (negb (Qle_bool t 0)).
    destruct (Qle_bool_spec t 0) as [Hle|Hlt]; cbn [negb].
    + reflexivity.
    + unfold Qsum. cbn [map foldr fst snd].
      rewrite <- (loop_clamp _ t Hlt). cbv zeta. ring.
Qed.

End Streams.

Lemma known_streams_unfold st :
  known_streams st = omap (stream_of (file_downloaded st)) (map_to_list (file_total st)).
Proof. reflexivity. Qed.

(** The aggregation block computes the specified ratio exactly when
    some stream has a known total. *)
Lemma aggregate_spec st :
  known_streams st <> [] ->
  exists p, aggregate st = Some p
            /\ (p == spec_aggregate_percent (known_streams st))%Q.
Proof.
  intros Hne. unfold aggregate.
  pose proof (totals_of_streams (file_downloaded st) (map_to_list (file_total st))) as Ht.
  rewrite <- known_streams_unfold in Ht. rewrite <- Ht.
  destruct (map snd (known_streams st)) as [|t0 ts] eqn:E.
  - destruct (known_streams st); [congruence|discriminate].
  - eexists. split; [reflexivity|].
    unfold spec_aggregate_percent. rewrite E.
    rewrite sum_total_spec, sum_done_spec, <- known_streams_unfold.
    rewrite !Qplus_0_l. reflexivity.
Qed.

Lemma aggregate_none st : known_streams st = [] -> aggregate st = None.
Proof.
  intros Hn. unfold aggregate.
  pose proof (totals_of_streams (file_downloaded st) (map_to_list (file_total st))) as Ht.
  rewrite <- known_streams_unfold, Hn in Ht. rewrite <- Ht. reflexivity.
Qed.

Lemma hook_downloading f cb st e :
  eq_str (status e) "downloading" = true ->
  known_streams (record_download st (stream_key e) e) <> [] ->
  hook f cb st e
  = _emit_download_percent cb (record_download st (stream_key e) e)
      (spec_aggregate_percent (known_streams (record_download st (stream_key e) e))).
Proof.
  intros Hs Hne. apply eq_str_true in Hs.
  destruct (aggregate_spec _ Hne) as [p [Ha Hp]].
  unfold hook. rewrite Hs. simpl. rewrite Ha.
  apply emit_download_percent_comp, Hp.
Qed.

Lemma hook_finished f cb st e t :
  eq_str (status e) "finished" = true ->
  positive_number (or_ (total_bytes e) (total_bytes_estimate e)) = Some t ->
  hook f cb st e
  = (set_file_downloaded (set_file_total st (stream_key e) t) (stream_key e) t, []).
Proof.
  intros Hs Ht. apply eq_str_true in Hs.
  unfold hook. rewrite Hs. simpl. rewrite Ht. reflexivity.
Qed.


(** ** The fallback path moves forward only *)

Lemma hook_fallback_step f cb st e :
  file_total st = ∅ ->
  has_total e = false ->
  -1 <= last_percent st <= 100 ->
  file_total (fst (hook f cb st e)) = ∅
  /\ -1 <= last_percent (fst (hook f cb st e)) <= 100
  /\ ((download_percents (snd (hook f cb st e)) = []
       /\ last_percent (fst (hook f cb st e)) = last_percent st)
      \/ (exists pi, last_percent st < pi
                     /\ download_percents (snd (hook f cb st e)) = [pi]
                     /\ last_percent (fst (hook f cb st e)) = pi)).
Proof.
  intros Hft Hnt Hb.
  assert (Hpos : positive_number (or_ (total_bytes e) (total_bytes_estimate e)) = None).
  { unfold has_total in Hnt. revert Hnt.
    destruct (positive_number _); [discriminate|reflexivity]. }
  destruct (is_processing_event e) eqn:Hp.
  { rewrite (hook_processing _ _ _ _ Hp). unfold _emit_processing.
    destruct cb; simpl; [|auto].
    destruct (processing_announced st); simpl; auto. }
  unfold hook. unfold is_processing_event in Hp. rewrite Hp, Hpos.
  destruct (eq_str (status e) "finished"); [simpl; auto|].
  destruct (eq_str (status e) "downloading"); simpl; [|auto].
  assert (Hrec : file_total (record_download st (stream_key e) e) = ∅
                 /\ last_percent (record_download st (stream_key e) e) = last_percent st).
  { unfold record_download. rewrite Hpos.
    destruct (nonneg_number _); simpl; auto. }
  revert Hrec. generalize (record_download st (stream_key e) e). intros st1 [Hft1 Hl1].
  assert (Hagg : aggregate st1 = None).
  { apply aggregate_none. unfold known_streams. rewrite Hft1, map_to_list_empty. reflexivity. }
  rewrite Hagg.
  assert (Hquiet : file_total (fst (st1, @nil cb_call)) = ∅
                   /\ -1 <= last_percent (fst (st1, @nil cb_call)) <= 100
                   /\ ((download_percents (snd (st1, @nil cb_call)) = []
                        /\ last_percent (fst (st1, @nil cb_call)) = last_percent st)
                       \/ (exists pi, last_percent st < pi
                                      /\ download_percents (snd (st1, @nil cb_call)) = [pi]
                                      /\ last_percent (fst (st1, @nil cb_call)) = pi))).
  { simpl. rewrite Hl1. auto. }
  destruct (_percent_str e); try exact Hquiet.
  destruct (f _) as [p|]; [|exact Hquiet].
  destruct (Qlt_bool_spec p (inject_Z (last_percent st1))) as [Hlt|Hge]; [exact Hquiet|].
  unfold _emit_download_percent.
  destruct cb; [|exact Hquiet]. cbn [negb].
  pose proof (percent_int_bounds p) as Hpi.
  destruct (Z.eqb_spec (int_of_float (max 0 (min 100 p))) (last_percent st1)) as [Heq|Hne];
    [exact Hquiet|].
  cbn [fst snd set_last_percent last_percent file_total download_percents].
  rewrite String.eqb_refl, int_of_float_inject.
  split; [exact Hft1|]. split; [lia|]. right.
  exists (int_of_float (max 0 (min 100 p))). split; [|auto].
  assert (Hle : last_percent st1 <= int_of_float (max 0 (min 100 p))).
  { rewrite int_of_float_floor by apply clamp_percent_bounds.
    rewrite <- (Qfloor_Z (last_percent st1)). apply Qfloor_resp_le.
    assert (Hcap : (inject_Z (last_percent st1) <= 100)%Q).
    { change 100%Q with (inject_Z 100). rewrite <- Zle_Qle. lia. }
    unfold max, min.
    destruct (Qlt_bool_spec p 100); cbv iota;
      match goal with
      | |- context [Qlt_bool ?a ?b] => destruct (Qlt_bool_spec a b); cbv iota
      end; lra. }
  lia.
Qed.

Lemma run_hook_fallback f cb st events :
  file_total st = ∅ ->
  forallb (fun e => negb (has_total e)) events = true ->
  -1 <= last_percent st <= 100 ->
  increasing_after (last_percent st) (download_percents (snd (run_hook f cb st events))).
Proof.
  revert st. induction events as [|e events IH]; intros st Hft Hall Hb; [exact I|].
  simpl in Hall. apply andb_prop in Hall. destruct Hall as [He Hall].
  apply negb_true_iff in He.
  rewrite run_hook_cons. cbn [snd]. rewrite download_percents_app.
  destruct (hook_fallback_step f cb st e Hft He Hb) as [Hft' [Hb' Hcase]].
  specialize (IH (fst (hook f cb st e)) Hft' Hall Hb').
  destruct Hcase as [[Hn Hl]|[pi [Hlt [Hp Hl]]]].
  - rewrite Hn, <- Hl. exact IH.
  - rewrite Hp. simpl. split; [exact Hlt|]. rewrite <- Hl. exact IH.
Qed.

(** While no event of a job carries a known total, the hook falls
    back on the coarse percent string, and the integer percents it
    emits are strictly increasing. *)
Theorem fallback_percents_increase (float_of_str : string -> option Q)
        (cb : bool) (events : list progress) :
  forallb (fun e => negb (has_total e)) events = true ->
  increasing_after (-1)
    (download_percents (snd (run_hook float_of_str cb closure_init events))).
Proof.
  intros Hall.
  apply (run_hook_fallback float_of_str cb closure_init events); [reflexivity|exact Hall|].
  simpl. lia.
Qed.

(** Coarse percents 10, 5 and 30 arrive: 10 and 30 are emitted. *)
Lemma fallback_percents_increase_witness :
  increasing_after (-1)
    (download_percents
       (snd (run_hook float_of_digits true closure_init
                      [coarse "a" " 10%"; coarse "a" "  5%"; coarse "a" " 30%"])))
  /\ download_percents
       (snd (run_hook float_of_digits true closure_init
                      [coarse "a" " 10%"; coarse "a" "  5%"; coarse "a" " 30%"]))
     = [10; 30].
Proof.
  split.
  - apply (fallback_percents_increase float_of_digits true). vm_compute. reflexivity.
  - vm_compute. reflexivity.
Defined.

(** C2. On a downloading event, once some stream has a known total,
    the percent handed to [_emit_download_percent] is 100 x (sum over
    the streams with a known total of the downloaded bytes, each
    clamped into [0, its total]) / (sum of those totals); a finished
    event with a known total stores that total as the stream's
    downloaded bytes; streams at (50, 100) and (0, 200) give
    100 x 50 / 300, emitted as 16, and once both streams report their
    totals as downloaded the emitted percent is 100. *)
Theorem aggregate_percent_formula (float_of_str : string -> option Q) :
  (forall (cb : bool) (st : closure) (e : progress),
      eq_str (status e) "downloading" = true ->
      let st1 := record_download st (stream_key e) e in
      known_streams st1 <> [] ->
      (exists p, aggregate st1 = Some p
                 /\ (p == spec_aggregate_percent (known_streams st1))%Q)
      /\ hook float_of_str cb st e
         = _emit_download_percent cb st1 (spec_aggregate_percent (known_streams st1)))
  /\ (forall (cb : bool) (st : closure) (e : progress) (t : Q),
         eq_str (status e) "finished" = true ->
         positive_number (or_ (total_bytes e) (total_bytes_estimate e)) = Some t ->
         let st' := fst (hook float_of_str cb st e) in
         file_total st' !! stream_key e = Some t
         /\ file_downloaded st' !! stream_key e = Some t)
  /\ (let st := fst (run_hook float_of_str true closure_init
                              [downloading "A" 50 100; downloading "B" 0 200]) in
      known_streams st = [(50%Q, 100%Q); (0%Q, 200%Q)]
      /\ (spec_aggregate_percent (known_streams st) == 100 * 50 / 300)%Q
      /\ last_percent st = 16)
  /\ (let r := run_hook float_of_str true closure_init
                        [downloading "A" 50 100; downloading "B" 0 200;
                         downloading "B" 200 200; downloading "A" 100 100] in
      known_streams (fst r) = [(100%Q, 100%Q); (200%Q, 200%Q)]
      /\ (spec_aggregate_percent (known_streams (fst r)) == 100)%Q
      /\ last (download_percents (snd r)) = Some 100).
Proof.
  split; [|split; [|split]].
  - intros cb st e Hs st1 Hne. split.
    + apply aggregate_spec, Hne.
    + apply hook_downloading; assumption.
  - intros cb st e t Hs Ht st'. subst st'.
    rewrite (hook_finished _ _ _ _ _ Hs Ht). simpl.
    split; apply lookup_insert_eq.
  - vm_compute. repeat split; reflexivity.
  - vm_compute. repeat split; reflexivity.
Qed.

(** The formula at a third event: stream A moves on to 80 of 100
    while stream B stands at 0 of 200. *)
Lemma aggregate_percent_formula_witness :
  let st := fst (run_hook float_of_digits true closure_init
                          [downloading "A" 50 100; downloading "B" 0 200]) in
  let e := downloading "A" 80 100 in
  let st1 := record_download st (stream_key e) e in
  (exists p, aggregate st1 = Some p
             /\ (p == spec_aggregate_percent (known_streams st1))%Q)
  /\ hook float_of_digits true st e
     = _emit_download_percent true st1 (spec_aggregate_percent (known_streams st1)).
Proof.
  intros st e st1.
  apply (proj1 (aggregate_percent_formula float_of_digits) true st e).
  - reflexivity.
  - vm_compute. discriminate.
Defined.


End DownloaderProofs.

(* ===================================================================== *)
(** * Properties of the progress reporter                                *)
(* ===================================================================== *)

Module ReporterProofs.
Import Py Reporter PyFacts.

(** A stall wake-up changes nothing but the time of the last render. *)
Lemma stall_keeps_progress (min_interval : Q) (st : locals) (now : Q) :
  let st' := fst (iteration min_interval st (StallTimeout now)) in
  last_progress_time st' = last_progress_time st
  /\ last_seen_percent st' = last_seen_percent st
  /\ last_sent_percent st' = last_sent_percent st
  /\ phase st' = phase st.
Proof.
  simpl. destruct (Qlt_bool _ _); simpl; repeat split; reflexivity.
Qed.

(** [last_progress_time] and [last_seen_percent] move only when an
    event is rendered, and then to that event's time. *)
Lemma progress_origin (min_interval : Q) (st : locals) (w : wakeup) :
  let '(st', out) := iteration min_interval st w in
  (last_progress_time st' = last_progress_time st
   /\ last_seen_percent st' = last_seen_percent st)
  \/ (exists new_phase percent now,
         w = Event new_phase percent now
         /\ out <> None
         /\ last_progress_time st' = now).
Proof.
  destruct w as [new_phase percent now|now]; simpl.
  - destruct (negb (String.eqb (if negb (String.eqb new_phase "") then new_phase else phase st)
                               "download")).
    + destruct (Qlt_bool _ _); [left; split; reflexivity|].
      right. exists new_phase, percent, now. repeat split. discriminate.
    + destruct percent as [p|]; [|left; split; reflexivity].
      destruct (_ =? _); [left; split; reflexivity|].
      destruct (Qlt_bool _ _); [left; split; reflexivity|].
      right. exists new_phase, (Some p), now. repeat split. discriminate.
  - destruct (Qlt_bool _ _); left; split; reflexivity.
Qed.

(** What a timed-out wait renders from given locals, once
    [min_interval] has passed since the last render. *)
Lemma stall_render (min_interval : Q) (st : locals) (now : Q) :
  (min_interval <= now - last_sent_time st)%Q ->
  let note := no_progress_note (int_of_float (now - last_progress_time st)) in
  (phase st <> "download" ->
   snd (iteration min_interval st (StallTimeout now))
   = Some ("Processing... " ++ note)%string)
  /\ (phase st = "download" -> 0 < last_seen_percent st ->
      snd (iteration min_interval st (StallTimeout now))
      = Some ("Downloading... " ++ str_of_int (last_seen_percent st) ++ "% " ++ note)%string)
  /\ (phase st = "download" -> last_seen_percent st <= 0 ->
      snd (iteration min_interval st (StallTimeout now)) = Some "Downloading...").
Proof.
  intros Hrate note.
  assert (Hr : Qlt_bool (now - last_sent_time st) min_interval = false)
    by (apply Qlt_bool_false; exact Hrate).
  unfold iteration. rewrite Hr. cbn [fst snd].
  split; [|split].
  - intros Hph. apply String.eqb_neq in Hph. rewrite Hph. reflexivity.
  - intros Hph Hpos. apply String.eqb_eq in Hph. rewrite Hph. cbn [negb].
    destruct (Z.leb_spec (last_seen_percent st) 0); [lia|]. reflexivity.
  - intros Hph Hpos. apply String.eqb_eq in Hph. rewrite Hph. cbn [negb].
    destruct (Z.leb_spec (last_seen_percent st) 0); [reflexivity|lia].
Qed.

(** A timed-out wait within [min_interval] of the last render renders
    nothing. *)
Lemma stall_silent (min_interval : Q) (st : locals) (now : Q) :
  (now - last_sent_time st < min_interval)%Q ->
  snd (iteration min_interval st (StallTimeout now)) = None.
Proof.
  intros H. unfold iteration. rewrite (Qlt_bool_true _ _ H). reflexivity.
Qed.

(** Timed-out waits, rendered or not, move neither the time of the
    last progress nor the percent nor the phase. *)
Lemma stalls_keep_progress (min_interval : Q) (stalls : list Q) (st : locals) :
  let st' := fst (progress_updater min_interval st (map StallTimeout stalls)) in
  last_progress_time st' = last_progress_time st
  /\ last_seen_percent st' = last_seen_percent st
  /\ phase st' = phase st.
Proof.
  revert st. induction stalls as [|x stalls IH]; intros st; [repeat split; reflexivity|].
  cbn [map progress_updater].
  destruct (stall_keeps_progress min_interval st x) as (H1 & H2 & _ & H4).
  cbv zeta in H1, H2, H4.
  destruct (iteration min_interval st (StallTimeout x)) as [st1 out] eqn:E.
  cbn [fst] in H1, H2, H4.
  specialize (IH st1). cbv zeta in IH.
  destruct (progress_updater min_interval st1 (map StallTimeout stalls)) as [st2 outs].
  cbn [fst] in *. destruct IH as (I1 & I2 & I3).
  repeat split; congruence.
Qed.

(** An event that is rendered becomes the last progress: its time is
    recorded, and in the download phase its percent. *)
Lemma rendered_event_recorded (min_interval : Q) (st : locals)
      (new_phase : string) (percent : option Q) (t : Q) :
  snd (iteration min_interval st (Event new_phase percent t)) <> None ->
  let st1 := fst (iteration min_interval st (Event new_phase percent t)) in
  last_progress_time st1 = t
  /\ (phase st1 = "download" ->
      exists p, percent = Some p /\ last_seen_percent st1 = int_of_float p).
Proof.
  cbn [iteration].
  destruct (negb (String.eqb (if negb (String.eqb new_phase "") then new_phase else phase st)
                             "download")) eqn:Eph.
  - destruct (Qlt_bool _ _); cbn [fst snd]; [congruence|].
    intros _. split; [reflexivity|].
    intros Hd. cbn [phase] in Hd. rewrite Hd in Eph. discriminate.
  - destruct percent as [p|]; cbn [fst snd]; [|congruence].
    destruct (_ =? _); cbn [fst snd]; [congruence|].
    destruct (Qlt_bool _ _); cbn [fst snd]; [congruence|].
    intros _. split; [reflexivity|]. intros _. exists p. split; reflexivity.
Qed.

(** C6 (counterexample). Before any percent above zero was rendered,
    a timed-out wait in the download phase renders the bare text
    "Downloading...", with no percent and no elapsed-time annotation;
    with a minimum render interval of 30 seconds, a wait that times
    out 10 seconds after 42% was rendered renders nothing; once the
    processing phase was announced after 42%, the stall message shows
    no percent; and an event that arrives within [min_interval] of
    the last render is dropped before [last_seen_percent] and
    [last_progress_time] are assigned: with 42% rendered at time 7
    and 50% arriving at time 11 under a minimum interval of 5
    seconds, the wait that times out at 21 still shows 42% and counts
    from time 7. *)
Lemma stall_without_annotation :
  snd (iteration 1 (start 5) (StallTimeout 15)) = Some "Downloading..."
  /\ contains "no progress" "Downloading..." = false
  /\ contains "%" "Downloading..." = false
  /\ snd (progress_updater 30 (start 5)
                           [Event "download" (Some 42%Q) 40; StallTimeout 50])
     = ["Downloading... 42%"]
  /\ snd (progress_updater 1 (start 5)
                           [Event "download" (Some 42%Q) 7; Event "processing" None 9;
                            StallTimeout 30])
     = ["Downloading... 42%"; "Processing..."; "Processing... (no progress for 0:21)"]
  /\ contains "42%" "Processing... (no progress for 0:21)" = false
  /\ snd (progress_updater 5 (start 5)
                           [Event "download" (Some 42%Q) 7; Event "download" (Some 50%Q) 11;
                            StallTimeout 21])
     = ["Downloading... 42%"; "Downloading... 42% (no progress for 0:14)"].
Proof. vm_compute. repeat split; reflexivity. Qed.

(** C6 (as the code has it). A timed-out wait renders nothing while
    less than [min_interval] has passed since the last render, and a
    stall message otherwise. When the last event received was
    rendered, then, however many waits have timed out since and
    whether or not they rendered: in the download phase with that
    event's percent above zero the message is
    "Downloading... NN% (no progress for M:SS)" with NN that percent
    and M:SS the whole seconds since that event; with a percent of
    zero or below it is the bare "Downloading..."; in another phase it
    is "Processing... (no progress for M:SS)". Before any event the
    message is the bare "Downloading...". *)
Theorem stall_message (min_interval : Q) (st : locals)
        (new_phase : string) (percent : option Q) (t : Q) (stalls : list Q) (now : Q) :
  snd (iteration min_interval st (Event new_phase percent t)) <> None ->
  let st1 := fst (iteration min_interval st (Event new_phase percent t)) in
  let st2 := fst (progress_updater min_interval st1 (map StallTimeout stalls)) in
  let out := snd (iteration min_interval st2 (StallTimeout now)) in
  let note := no_progress_note (int_of_float (now - t)) in
  ((now - last_sent_time st2 < min_interval)%Q -> out = None)
  /\ ((min_interval <= now - last_sent_time st2)%Q ->
      (phase st1 <> "download" -> out = Some ("Processing... " ++ note)%string)
      /\ (phase st1 = "download" ->
          exists p,
            percent = Some p
            /\ (0 < int_of_float p ->
                out = Some ("Downloading... " ++ str_of_int (int_of_float p) ++ "% "
                              ++ note)%string)
            /\ (int_of_float p <= 0 -> out = Some "Downloading...")))
  /\ (forall (start_time : Q) (waits : list Q) (at_time : Q),
         let st0 := fst (progress_updater min_interval (start start_time)
                                          (map StallTimeout waits)) in
         (min_interval <= at_time - last_sent_time st0)%Q ->
         snd (iteration min_interval st0 (StallTimeout at_time)) = Some "Downloading...").
Proof.
  intros Hrendered st1 st2 out note.
  destruct (rendered_event_recorded min_interval st new_phase percent t Hrendered)
    as [Htime Hpercent]. fold st1 in Htime, Hpercent.
  destruct (stalls_keep_progress min_interval stalls st1) as (K1 & K2 & K3).
  fold st2 in K1, K2, K3.
  split; [|split].
  - apply stall_silent.
  - intros Hrate.
    destruct (stall_render min_interval st2 now Hrate) as (R1 & R2 & R3).
    cbv zeta in R1, R2, R3. rewrite K1, Htime in R1, R2. fold note in R1, R2.
    split.
    + intros Hph. apply R1. congruence.
    + intros Hph. destruct (Hpercent Hph) as [p [Hp Hseen]]. exists p.
      split; [exact Hp|]. split.
      * intros Hpos. unfold out. rewrite R2; [congruence|congruence|lia].
      * intros Hle. apply R3; [congruence|lia].
  - intros start_time waits at_time st0 Hrate.
    destruct (stalls_keep_progress min_interval waits (start start_time)) as (_ & S2 & S3).
    fold st0 in S2, S3.
    apply (proj2 (proj2 (stall_render min_interval st0 at_time Hrate))).
    + rewrite S3. reflexivity.
    + rewrite S2. cbn. lia.
Qed.

(** With 42% rendered at time 7, a wait that timed out and rendered
    at time 20, and nothing heard since, the wake-up at time 80
    renders 42% again with 1:13 of silence: counted from time 7, not
    from the render at time 20. *)
Lemma stall_message_witness :
  snd (iteration 1 (fst (progress_updater 1 after_42 (map StallTimeout [20%Q])))
                 (StallTimeout 80))
  = Some "Downloading... 42% (no progress for 1:13)"
  /\ contains "42%" "Downloading... 42% (no progress for 1:13)" = true.
Proof.
  assert (Hrendered : snd (iteration 1 (start 5) (Event "download" (Some 42%Q) 7)) <> None)
    by (vm_compute; discriminate).
  destruct (stall_message 1 (start 5) "download" (Some 42%Q) 7 [20%Q] 80 Hrendered)
    as [_ [H _]].
  split; [|vm_compute; reflexivity].
  destruct H as [_ H]; [vm_compute; discriminate|].
  destruct H as [p [Hp [Hpos _]]]; [vm_compute; reflexivity|].
  injection Hp as <-.
  unfold after_42. rewrite Hpos; [vm_compute; reflexivity|vm_compute; reflexivity].
Defined.

End ReporterProofs.

(* ===================================================================== *)
(** * Properties of the worker loop                                      *)
(* ===================================================================== *)

Module WorkerProofs.
Import Py Worker.

(** ** Statements that keep a property of the locals *)

Lemma deletes_snoc l a :
  deletes (mkLocals (session_dir l) (job_success l) (trace l ++ [a]))
  = deletes l || is_rmtree a.
Proof. unfold deletes. simpl. rewrite existsb_app. simpl. rewrite orb_false_r. reflexivity. Qed.

Lemma stable_untouched : stable untouched.
Proof.
  split; unfold untouched.
  - intros l a Ha Hl. rewrite deletes_snoc, Hl, Ha. reflexivity.
  - intros l p Hl. exact Hl.
Qed.

Lemma stable_pending_job : stable pending_job.
Proof.
  split; unfold pending_job.
  - intros l a Ha [Hl Hj]. rewrite deletes_snoc, Hl, Ha. split; [reflexivity|exact Hj].
  - intros l p Hl. exact Hl.
Qed.

Section Keeps.

Variable P : locals -> Prop.
Hypothesis P_stable : stable P.

Lemma keeps_ret {A : Type} (a : A) : keeps P (ret a).
Proof. intros l Hl. exact Hl. Qed.

Lemma keeps_call {A : Type} (o : outcome A) : keeps P (call o).
Proof. intros l Hl. exact Hl. Qed.

Lemma keeps_emit (a : action) : is_rmtree a = false -> keeps P (emit a).
Proof. intros Ha l Hl. apply (stable_emit P P_stable); assumption. Qed.

Lemma keeps_set_session_dir (p : path) : keeps P (set_session_dir p).
Proof. intros l Hl. apply (stable_dir P P_stable); assumption. Qed.

Lemma keeps_bind {A B : Type} (c : M A) (k : A -> M B) :
  keeps P c -> (forall a, keeps P (k a)) -> keeps P (bind c k).
Proof.
  intros Hc Hk l Hl. unfold bind.
  specialize (Hc l Hl). destruct (c l) as [[a|e] l1]; simpl in *.
  - apply Hk, Hc.
  - exact Hc.
Qed.

Lemma keeps_try_finally {A : Type} (c : M A) (f : M unit) :
  keeps P c -> keeps P f -> keeps P (try_finally c f).
Proof.
  intros Hc Hf l Hl. unfold try_finally.
  specialize (Hc l Hl). destruct (c l) as [r l1]; simpl in *.
  specialize (Hf l1 Hc). destruct (f l1) as [[u|e] l2]; simpl in *; exact Hf.
Qed.

Lemma keeps_suppress_cancelled (c : M unit) :
  keeps P c -> keeps P (suppress_cancelled c).
Proof.
  intros Hc l Hl. unfold suppress_cancelled.
  specialize (Hc l Hl). destruct (c l) as [[u|[| |]] l1]; simpl in *; exact Hc.
Qed.

Lemma keeps_except_Exception (c h : M unit) :
  keeps P c -> keeps P h -> keeps P (except_Exception c h).
Proof.
  intros Hc Hh l Hl. unfold except_Exception.
  specialize (Hc l Hl). destruct (c l) as [[u|e] l1]; simpl in *; [exact Hc|].
  destruct (is_Exception e); [apply Hh, Hc|exact Hc].
Qed.

Lemma keeps_edit_message_text w text : keeps P (edit_message_text w text).
Proof.
  unfold edit_message_text. apply keeps_bind; [apply keeps_emit; reflexivity|].
  intros _. apply keeps_call.
Qed.

Lemma keeps_safe_edit_italic w text : keeps P (safe_edit_italic w text).
Proof.
  unfold safe_edit_italic. apply keeps_except_Exception.
  - apply keeps_bind; [apply keeps_emit; reflexivity|intros _; apply keeps_call].
  - apply keeps_emit. reflexivity.
Qed.

Lemma keeps_deliver w n idx files : keeps P (deliver w n idx files).
Proof.
  revert idx. induction files as [|p files IH]; intros idx; simpl.
  - apply keeps_ret.
  - apply keeps_bind; [apply keeps_safe_edit_italic|intros _].
    apply keeps_bind; [apply keeps_emit; reflexivity|intros _].
    apply keeps_bind; [apply keeps_call|intros _].
    apply keeps_bind; [|intros _; apply IH].
    apply keeps_except_Exception; [|apply keeps_emit; reflexivity].
    apply keeps_bind; [apply keeps_emit; reflexivity|intros _; apply keeps_call].
Qed.

Lemma keeps_download w sd :
  keeps P (try_finally (call (download_urls w sd)) (suppress_cancelled (call (progress_task w)))).
Proof.
  apply keeps_try_finally; [apply keeps_call|].
  apply keeps_suppress_cancelled, keeps_call.
Qed.

End Keeps.

Lemma keeps_untouched_set_job_success b : keeps untouched (set_job_success b).
Proof. intros l Hl. exact Hl. Qed.

Ltac prove_keeps :=
  repeat (intros;
          first
            [ exact stable_untouched
            | exact stable_pending_job
            | reflexivity
            | apply keeps_ret
            | apply keeps_call
            | apply keeps_emit
            | apply keeps_set_session_dir
            | apply keeps_untouched_set_job_success
            | apply keeps_edit_message_text
            | apply keeps_safe_edit_italic
            | apply keeps_deliver
            | apply keeps_download
            | apply keeps_bind
            | match goal with
              | |- keeps _ (match ?x with _ => _ end) => destruct x
              end ]).

(** ** The job body and its handlers never call [shutil.rmtree] *)

Lemma job_body_untouched w root job : keeps untouched (job_body w root job).
Proof. unfold job_body. prove_keeps. Qed.

Lemma job_handlers_untouched w job (c : M unit) :
  keeps untouched c -> keeps untouched (job_handlers w job c).
Proof.
  intros Hc l Hl. unfold job_handlers.
  specialize (Hc l Hl). destruct (c l) as [[u|e] l1]; simpl in *; [exact Hc|].
  destruct (is_Exception e); [|exact Hc].
  assert (Hk : keeps untouched
                 (emit (Log "error" "Job failed") ;;; edit_message_text w (failure_text job)))
    by prove_keeps.
  apply Hk, Hc.
Qed.

(** The handlers change neither [job_success] nor [session_dir]. *)
Lemma job_handlers_locals w job (c : M unit) l :
  job_success (snd (job_handlers w job c l)) = job_success (snd (c l))
  /\ session_dir (snd (job_handlers w job c l)) = session_dir (snd (c l)).
Proof.
  unfold job_handlers. destruct (c l) as [[u|e] l1]; simpl; [split; reflexivity|].
  destruct (is_Exception e); simpl; [|split; reflexivity].
  unfold bind, emit, edit_message_text, bind, emit, call. simpl.
  destruct (bot_edit w (failure_text job)); simpl; split; reflexivity.
Qed.

(** When the handler for [Exception] runs, it issues the edit with
    the generic failure text. *)
Lemma job_handlers_render w job (c : M unit) l e :
  fst (c l) = Raised e ->
  is_Exception e = true ->
  renders (failure_text job) (snd (job_handlers w job c l)) = true.
Proof.
  intros Hr He. unfold job_handlers.
  destruct (c l) as [r l1]; simpl in *. subst r. rewrite He.
  unfold bind, emit, edit_message_text, bind, emit, call, renders. simpl.
  destruct (bot_edit w (failure_text job)); simpl;
    rewrite !existsb_app; simpl; rewrite String.eqb_refl, !orb_true_r; reflexivity.
Qed.


(** ** [_cleanup_session_dir] always returns *)

Lemma cleanup_total w sd root l :
  exists l', _cleanup_session_dir w sd root l = (Returned tt, l')
             /\ cleanup_end w sd root l l'.
Proof.
  unfold _cleanup_session_dir, cleanup_body, bind, call, emit, of_os.
  destruct (resolve w root) as [[|]|rroot] eqn:Hroot; simpl.
  - exists l. split; [reflexivity|]. apply GoneAtResolve. left. exact Hroot.
  - eexists. split; [reflexivity|]. apply FailedAtResolve. left. exact Hroot.
  - destruct (resolve w sd) as [[|]|rsd] eqn:Hsd; simpl.
    + exists l. split; [reflexivity|]. apply GoneAtResolve. right. eauto.
    + eexists. split; [reflexivity|]. apply FailedAtResolve. right. eauto.
    + destruct (is_relative_to rsd rroot) eqn:Hrel; simpl.
      2:{ eexists. split; [reflexivity|]. eapply RefusedOutside; eauto. }
      destruct (startswith (name rsd) "session-") eqn:Hname; simpl.
      2:{ eexists. split; [reflexivity|]. eapply RefusedName; eauto. }
      destruct (rmtree w rsd) as [[|]|[]] eqn:Hrm; simpl.
      * eexists. split; [reflexivity|]. eapply GoneAtRmtree; eauto.
      * eexists. split; [reflexivity|].
        replace (mkLocals _ _ _)
          with (logged l [Rmtree rsd; Log "warning" "Failed to cleanup session dir"])
          by (unfold logged; simpl; rewrite <- app_assoc; reflexivity).
        eapply FailedAtRmtree; eauto.
      * eexists. split; [reflexivity|].
        replace (mkLocals _ _ _)
          with (logged l [Rmtree rsd; Log "info" "Cleaned up session dir"])
          by (unfold logged; simpl; rewrite <- app_assoc; reflexivity).
        eapply Deleted; eauto.
Qed.

Lemma cleanup_end_locals w sd root l l' :
  cleanup_end w sd root l l' ->
  session_dir l' = session_dir l /\ job_success l' = job_success l.
Proof. intros H. destruct H; split; reflexivity. Qed.

(** A call of [shutil.rmtree] means both safety checks passed, and it
    is a call on the resolved session directory. *)
Lemma cleanup_end_deletes w sd root l l' :
  cleanup_end w sd root l l' ->
  deletes l = false ->
  deletes l' = true ->
  exists rroot rsd,
    resolve w root = inr rroot /\ resolve w sd = inr rsd
    /\ is_relative_to rsd rroot = true
    /\ startswith (name rsd) "session-" = true
    /\ forall p, In (Rmtree p) (trace l') -> p = rsd.
Proof.
  intros H Hl Hd.
  assert (Hold : forall p, ~ In (Rmtree p) (trace l)).
  { intros p Hin. unfold deletes in Hl.
    assert (existsb is_rmtree (trace l) = true)
      by (apply existsb_exists; exists (Rmtree p); split; [exact Hin|reflexivity]).
    congruence. }
  destruct H;
    try (exfalso; unfold deletes, logged in Hd; simpl in Hd;
         rewrite ?existsb_app in Hd; unfold deletes in Hl; rewrite Hl in Hd;
         simpl in Hd; discriminate);
    exists rroot, rsd; repeat split; try assumption;
    intros p Hin; unfold logged in Hin; simpl in Hin;
    apply in_app_or in Hin; destruct Hin as [Hin|Hin];
    try (exfalso; exact (Hold p Hin));
    simpl in Hin; intuition congruence.
Qed.

Lemma job_finally_result w root l :
  exists l', job_finally w root l = (Returned tt, l')
             /\ session_dir l' = session_dir l
             /\ job_success l' = job_success l
             /\ (l' = l
                 \/ (job_success l = true
                     /\ exists sd, session_dir l = Some sd /\ cleanup_end w sd root l l')).
Proof.
  unfold job_finally.
  destruct (job_success l) eqn:Hj;
    [|exists l; split; [reflexivity|split; [auto|split; [auto|left; reflexivity]]]].
  destruct (session_dir l) as [sd|] eqn:Hs;
    [|exists l; split; [reflexivity|split; [auto|split; [auto|left; reflexivity]]]].
  destruct (cleanup_total w sd root l) as [l' [Hc He]].
  exists l'. destruct (cleanup_end_locals _ _ _ _ _ He) as [Hs' Hj'].
  split; [exact Hc|]. split; [congruence|]. split; [congruence|].
  right. split; [reflexivity|]. exists sd. split; [reflexivity|exact He].
Qed.

(** [process_job] is its handlers followed by a [finally] clause that
    always returns. *)
Lemma process_job_unfold w root job :
  let h := job_handlers w job (job_body w root job) initial in
  exists l', job_finally w root (snd h) = (Returned tt, l')
             /\ process_job w root job = (fst h, l').
Proof.
  intros h. unfold process_job, try_finally. fold h.
  destruct h as [r l1] eqn:Hh. simpl.
  destruct (job_finally_result w root l1) as [l' [Hf _]].
  exists l'. rewrite Hf. split; reflexivity.
Qed.


(** ** Where an exception can leave the body once the job succeeded *)

Lemma bind_raised {A B : Type} (c : M A) (k : A -> M B) l e l' :
  bind c k l = (Raised e, l') ->
  keeps pending_job c ->
  pending_job l ->
  job_success l' = true ->
  exists a l1, pending_job l1 /\ k a l1 = (Raised e, l').
Proof.
  intros H Hc Hl Hj. unfold bind in H.
  specialize (Hc l Hl). destruct (c l) as [[a|e0] l1]; simpl in Hc.
  - exists a, l1. split; assumption.
  - injection H as -> ->. destruct Hc as [_ Hc]. congruence.
Qed.

Lemma keeps_raised {A : Type} (c : M A) l e l' :
  c l = (Raised e, l') ->
  keeps pending_job c ->
  pending_job l ->
  job_success l' = false.
Proof.
  intros H Hc Hl. specialize (Hc l Hl). rewrite H in Hc. apply Hc.
Qed.

(** If the body raises with [job_success] already set, the exception
    is the one raised by the final edit of the message to "Done.". *)
Lemma raised_after_success w root job e l' :
  job_body w root job initial = (Raised e, l') ->
  job_success l' = true ->
  bot_edit w "Done." = Raised e.
Proof.
  intros H Hj. unfold job_body in H.
  assert (Hp : pending_job initial) by (split; reflexivity).
  revert H Hp. generalize initial. intros l H Hp.
  apply bind_raised in H; [|prove_keeps|assumption|assumption].
  clear Hp l. destruct H as (u1 & l & Hp & H).
  apply bind_raised in H; [|prove_keeps|assumption|assumption].
  clear Hp l. destruct H as (u2 & l & Hp & H).
  apply bind_raised in H; [|prove_keeps|assumption|assumption].
  clear Hp l. destruct H as (sd & l & Hp & H).
  apply bind_raised in H; [|prove_keeps|assumption|assumption].
  clear Hp l. destruct H as (u3 & l & Hp & H).
  apply bind_raised in H; [|prove_keeps|assumption|assumption].
  clear Hp l. destruct H as (u4 & l & Hp & H).
  apply bind_raised in H; [|prove_keeps|assumption|assumption].
  clear Hp l. destruct H as (files & l & Hp & H).
  destruct files as [|f files].
  - exfalso. apply keeps_raised in H; [congruence|prove_keeps|assumption].
  - apply bind_raised in H; [|prove_keeps|assumption|assumption].
    clear Hp l. destruct H as (u5 & l & Hp & H).
    apply bind_raised in H; [|prove_keeps|assumption|assumption].
    clear Hp l. destruct H as (u6 & l & Hp & H).
    unfold bind, set_job_success, edit_message_text, bind, emit, call in H. simpl in H.
    destruct (bot_edit w "Done.") as [[]|e']; simpl in H; [discriminate|].
    injection H as -> _. reflexivity.
Qed.


(** ** A job marked successful has its session directory *)

Lemma stable_has_dir : stable has_dir.
Proof.
  split; unfold has_dir.
  - intros l a _ Hl. exact Hl.
  - intros l p _. discriminate.
Qed.

Lemma keeps_has_dir_set_job_success b : keeps has_dir (set_job_success b).
Proof. intros l Hl. exact Hl. Qed.

Ltac prove_has_dir :=
  repeat (intros;
          first
            [ exact stable_has_dir
            | reflexivity
            | apply keeps_ret
            | apply keeps_call
            | apply keeps_emit
            | apply keeps_set_session_dir
            | apply keeps_has_dir_set_job_success
            | apply keeps_edit_message_text
            | apply keeps_safe_edit_italic
            | apply keeps_deliver
            | apply keeps_download
            | apply keeps_bind
            | match goal with
              | |- keeps _ (match ?x with _ => _ end) => destruct x
              end ]).

(** [job_success] is set only after [session_dir]. *)
Lemma success_has_dir w root job :
  job_success (snd (job_body w root job initial)) = true ->
  has_dir (snd (job_body w root job initial)).
Proof.
  intros Hj. unfold job_body in *.
  assert (Hp : pending_job initial) by (split; reflexivity).
  revert Hj Hp. generalize initial. intros l Hj Hp.
  unfold bind at 1. unfold bind at 1 in Hj.
  assert (K1 : keeps pending_job (edit_message_text w (UI.italic "Starting download... 0%")))
    by prove_keeps.
  specialize (K1 l Hp).
  destruct (edit_message_text w (UI.italic "Starting download... 0%") l) as [[u1|e1] l1];
    cbn [fst snd] in *; [|destruct K1; congruence].
  unfold bind at 1. unfold bind at 1 in Hj.
  assert (K2 : keeps pending_job (emit (Log "info" "Start job"))) by prove_keeps.
  specialize (K2 l1 K1).
  destruct (emit (Log "info" "Start job") l1) as [[u2|e2] l2];
    cbn [fst snd] in *; [|destruct K2; congruence].
  unfold bind at 1. unfold bind at 1 in Hj.
  assert (K3 : keeps pending_job (call (ensure_session_dir w root))) by prove_keeps.
  specialize (K3 l2 K2).
  destruct (call (ensure_session_dir w root) l2) as [[sd|e3] l3];
    cbn [fst snd] in *; [|destruct K3; congruence].
  unfold bind at 1. clear Hj.
  assert (K4 : has_dir (snd (set_session_dir sd l3))) by (cbn; discriminate).
  destruct (set_session_dir sd l3) as [[u4|e4] l4]; cbn [fst snd] in *; [|exact K4].
  match goal with
  | |- has_dir (snd (?c l4)) =>
      assert (K5 : keeps has_dir c) by prove_has_dir; exact (K5 l4 K4)
  end.
Qed.

(** Once both paths resolve and both checks pass, [shutil.rmtree] is
    called. *)
Lemma cleanup_end_called w sd root l l' rroot rsd :
  cleanup_end w sd root l l' ->
  resolve w root = inr rroot ->
  resolve w sd = inr rsd ->
  is_relative_to rsd rroot = true ->
  startswith (name rsd) "session-" = true ->
  deletes l' = true.
Proof.
  intros H Hroot Hsd Hrel Hname.
  destruct H as [r1 r2 H1 H2 H3 H4 H5|r1 r2 H1 H2 H3 H4 H5|r1 r2 H1 H2 H3 H4 H5
                 |r1 r2 H1 H2 H3|r1 r2 H1 H2 H3 H4|H|H];
    try (unfold deletes, logged; cbn [trace]; rewrite existsb_app;
         apply orb_true_iff; right; reflexivity).
  - rewrite Hroot in H1. rewrite Hsd in H2. congruence.
  - rewrite Hroot in H1. rewrite Hsd in H2. congruence.
  - destruct H as [H|[r [H1 H2]]]; [congruence|]. rewrite Hsd in H2. discriminate.
  - destruct H as [H|[r [H1 H2]]]; [congruence|]. rewrite Hsd in H2. discriminate.
Qed.

(** ** The claims about cleanup *)

(** C5 (counterexample). First, all files are delivered, then the
    final edit to "Done." raises an exception that is not a
    cancellation: the handler renders the generic failure text, and
    the session directory is deleted all the same. Second, under a
    download root named "session-data", a session directory that
    resolves to the root itself is deleted: [shutil.rmtree] is called
    on the root, which is no descendant of the root and whose name is
    not one that [new_session_id] builds. *)
Lemma cleanup_outside_the_claim :
  (fst (job_body world_done_fails sample_root sample_job initial) = Raised OtherException
   /\ is_Exception OtherException = true
   /\ renders (failure_text sample_job)
              (snd (process_job world_done_fails sample_root sample_job)) = true
   /\ deletes (snd (process_job world_done_fails sample_root sample_job)) = true)
  /\ (resolve world_root_alias session_named_root = inr session_named_root
      /\ session_dir (snd (process_job world_root_alias session_named_root sample_job))
         = Some session_under_root
      /\ resolve world_root_alias session_under_root = inr session_named_root
      /\ In (Rmtree session_named_root)
            (trace (snd (process_job world_root_alias session_named_root sample_job)))
      /\ is_descendant session_named_root session_named_root = false
      /\ is_session_id (name session_named_root) = false
      /\ is_session_id (name session_under_root) = true).
Proof.
  split.
  - vm_compute. repeat split; reflexivity.
  - split; [reflexivity|]. split; [vm_compute; reflexivity|]. split; [reflexivity|].
    split; [|repeat split; reflexivity].
    vm_compute. repeat (first [left; reflexivity | right]).
Qed.

(** C5 (as the code has it). [shutil.rmtree] is called only for a job
    marked successful, only on the resolved session directory, and
    only after that directory was found to be the resolved download
    root or to lie below it, and to bear a name starting with
    "session-". A job marked successful always has its session
    directory, and cleanup then runs however the job body ended:
    [shutil.rmtree] is called exactly when both paths resolve and both
    checks pass, so a failing check refuses the deletion. When an
    exception other than a cancellation leaves the body before the
    job is marked successful, nothing is deleted and the edit with the
    generic failure text is issued; and the only exception that can
    leave the body after the job is marked successful is the one of
    the final "Done." edit. *)
Theorem cleanup_only_after_success (w : world) (root : path) (job : Queue.DownloadJob) :
  (deletes (snd (process_job w root job)) = true ->
   job_success (snd (process_job w root job)) = true
   /\ exists sd rroot rsd,
       session_dir (snd (process_job w root job)) = Some sd
       /\ resolve w root = inr rroot
       /\ resolve w sd = inr rsd
       /\ is_relative_to rsd rroot = true
       /\ startswith (name rsd) "session-" = true
       /\ forall p, In (Rmtree p) (trace (snd (process_job w root job))) -> p = rsd)
  /\ (job_success (snd (job_body w root job initial)) = true ->
      job_success (snd (process_job w root job)) = true
      /\ exists sd,
          session_dir (snd (process_job w root job)) = Some sd
          /\ cleanup_end w sd root (snd (job_handlers w job (job_body w root job) initial))
                         (snd (process_job w root job))
          /\ (deletes (snd (process_job w root job)) = true
              <-> exists rroot rsd,
                  resolve w root = inr rroot
                  /\ resolve w sd = inr rsd
                  /\ is_relative_to rsd rroot = true
                  /\ startswith (name rsd) "session-" = true))
  /\ (forall e,
         fst (job_body w root job initial) = Raised e ->
         is_Exception e = true ->
         job_success (snd (job_body w root job initial)) = false ->
         deletes (snd (process_job w root job)) = false
         /\ renders (failure_text job) (snd (process_job w root job)) = true)
  /\ (forall e,
         fst (job_body w root job initial) = Raised e ->
         job_success (snd (job_body w root job initial)) = true ->
         bot_edit w "Done." = Raised e).
Proof.
  destruct (process_job_unfold w root job) as [l' [Hf Hp]]. cbv zeta in Hf, Hp.
  set (h := job_handlers w job (job_body w root job) initial) in *.
  assert (Hu : untouched (snd h)).
  { apply job_handlers_untouched; [apply job_body_untouched|reflexivity]. }
  destruct (job_handlers_locals w job (job_body w root job) initial) as [Hjs Hsd].
  fold h in Hjs, Hsd.
  destruct (job_finally_result w root (snd h)) as [l'' [Hf' [Hs [Hj Hc]]]].
  rewrite Hf in Hf'. injection Hf' as <-.
  rewrite Hp. cbn [snd]. split; [|split; [|split]].
  - intros Hd. destruct Hc as [->|[Hsucc [sd [Hdir Hend]]]]; [unfold untouched in Hu; congruence|].
    split; [congruence|].
    destruct (cleanup_end_deletes _ _ _ _ _ Hend Hu Hd) as [rroot [rsd H]].
    exists sd, rroot, rsd. split; [congruence|]. exact H.
  - intros Hsucc. split; [congruence|].
    pose proof (success_has_dir w root job Hsucc) as Hdir. unfold has_dir in Hdir.
    destruct (session_dir (snd (job_body w root job initial))) as [sd|] eqn:Esd;
      [|congruence].
    exists sd. split; [congruence|].
    assert (Hend : cleanup_end w sd root (snd h) l').
    { unfold job_finally in Hf.
      replace (job_success (snd h)) with true in Hf by congruence.
      replace (session_dir (snd h)) with (Some sd) in Hf by congruence.
      destruct (cleanup_total w sd root (snd h)) as [l2 [Hc2 He2]].
      rewrite Hc2 in Hf. injection Hf as <-. exact He2. }
    split; [exact Hend|]. split.
    + intros Hd. destruct (cleanup_end_deletes _ _ _ _ _ Hend Hu Hd)
        as (rroot & rsd & H1 & H2 & H3 & H4 & _).
      exists rroot, rsd. auto.
    + intros (rroot & rsd & H1 & H2 & H3 & H4).
      exact (cleanup_end_called _ _ _ _ _ _ _ Hend H1 H2 H3 H4).
  - intros e Hr He Hfalse.
    assert (Hl : l' = snd h).
    { destruct Hc as [->|[Hsucc _]]; [reflexivity|]. congruence. }
    rewrite Hl. split; [exact Hu|].
    apply (job_handlers_render w job _ initial e Hr He).
  - intros e Hr Hsucc.
    apply (raised_after_success w root job e (snd (job_body w root job initial))); [|exact Hsucc].
    destruct (job_body w root job initial) as [r l0]. simpl in *. subst r. reflexivity.
Qed.

(** The download fails: nothing is deleted and the failure text is
    rendered. The job succeeds: the session directory that is deleted
    lies under the root and bears a session name. *)
Lemma cleanup_only_after_success_witness :
  (deletes (snd (process_job world_download_fails sample_root sample_job)) = false
   /\ renders (failure_text sample_job)
              (snd (process_job world_download_fails sample_root sample_job)) = true)
  /\ job_success (snd (process_job world_ok sample_root sample_job)) = true.
Proof.
  split.
  - apply (proj1 (proj2 (proj2 (cleanup_only_after_success world_download_fails sample_root
                                                            sample_job)))
                 OtherException); vm_compute; reflexivity.
  - apply (proj1 (cleanup_only_after_success world_ok sample_root sample_job)).
    vm_compute. reflexivity.
Defined.

(** C10. [_cleanup_session_dir] always returns, whatever the
    filesystem calls do: it has deleted the directory, or found it
    gone and returned silently, or refused with a warning, or logged
    the failure; it leaves [job_success] as it was. So a job ends the
    way its handlers ended, and a job whose handlers returned lets the
    worker loop go on to the next job. *)
Theorem cleanup_never_raises :
  (forall (w : world) (sd root : path) (l : locals),
      exists l', _cleanup_session_dir w sd root l = (Returned tt, l')
                 /\ cleanup_end w sd root l l'
                 /\ job_success l' = job_success l)
  /\ (forall (w : world) (root : path) (job : Queue.DownloadJob),
         fst (process_job w root job)
         = fst (job_handlers w job (job_body w root job) initial)
         /\ job_success (snd (process_job w root job))
            = job_success (snd (job_body w root job initial)))
  /\ (forall (w : world) (root : path) (job : Queue.DownloadJob)
             (rest : list (Queue.DownloadJob * world)),
         fst (job_handlers w job (job_body w root job) initial) = Returned tt ->
         worker_loop root ((job, w) :: rest)
         = (fst (worker_loop root rest),
            snd (process_job w root job) :: snd (worker_loop root rest))).
Proof.
  assert (Hjob : forall w root job,
             fst (process_job w root job)
             = fst (job_handlers w job (job_body w root job) initial)
             /\ job_success (snd (process_job w root job))
                = job_success (snd (job_body w root job initial))).
  { intros w root job.
    destruct (process_job_unfold w root job) as [l' [Hf Hp]]. cbv zeta in Hf, Hp.
    destruct (job_handlers_locals w job (job_body w root job) initial) as [Hjs _].
    destruct (job_finally_result w root
                (snd (job_handlers w job (job_body w root job) initial)))
      as [l'' [Hf' [_ [Hj _]]]].
    rewrite Hf in Hf'. injection Hf' as <-.
    rewrite Hp. cbn [fst snd]. split; [reflexivity|congruence]. }
  split; [|split].
  - intros w sd root l. destruct (cleanup_total w sd root l) as [l' [Hc He]].
    exists l'. split; [exact Hc|]. split; [exact He|].
    apply (cleanup_end_locals _ _ _ _ _ He).
  - exact Hjob.
  - intros w root job rest Hret. cbn [worker_loop].
    destruct (Hjob w root job) as [Ho _]. rewrite Hret in Ho.
    destruct (process_job w root job) as [r l]. simpl in Ho. subst r. cbn [snd].
    destruct (worker_loop root rest) as [r ls]. reflexivity.
Qed.

(** A job that succeeded while [shutil.rmtree] fails on its session
    directory: the loop still goes on to the next job. *)
Lemma cleanup_never_raises_witness :
  worker_loop sample_root [(sample_job, world_rmtree_fails); (sample_job, world_ok)]
  = (fst (worker_loop sample_root [(sample_job, world_ok)]),
     snd (process_job world_rmtree_fails sample_root sample_job)
         :: snd (worker_loop sample_root [(sample_job, world_ok)])).
Proof.
  apply (proj2 (proj2 cleanup_never_raises)). vm_compute. reflexivity.
Defined.


End WorkerProofs.

(* ===================================================================== *)
(** * Properties of the selection callbacks                              *)
(* ===================================================================== *)

Module HandlersProofs.
Import Py Handlers PyFacts.

Lemma with_state_same (sv : services) : with_state sv (state sv) = sv.
Proof. destruct sv. reflexivity. Qed.

(** The owner check fails for a click of another user, and for a
    click that carries no message or one of another chat. *)
Lemma validate_rejects (update : Update) (query : CallbackQuery)
      (pending : State.PendingSelection) :
  callback_query update = Some query ->
  (exists u, from_user query = Some u /\ id u <> State.user_id pending)
  \/ message query = None
  \/ (exists m, message query = Some m /\ chat_id m <> State.chat_id pending) ->
  _validate_selection_owner update pending = false.
Proof.
  intros Hq H. unfold _validate_selection_owner. rewrite Hq.
  destruct H as [[u [Hu Hne]]|[Hm|[m [Hm Hne]]]].
  - rewrite Hu. apply Z.eqb_neq in Hne. rewrite Hne. reflexivity.
  - rewrite Hm. destruct (from_user query) as [u|]; [|reflexivity].
    destruct (negb _); reflexivity.
  - rewrite Hm. apply Z.eqb_neq in Hne. rewrite Hne.
    destruct (from_user query) as [u|]; [|reflexivity].
    destruct (negb _); reflexivity.
Qed.

(** C9 (counterexample). The sample selection of user 42, created at
    time 100 under a TTL of one day, is clicked by user 99 at time
    86501: the click is not turned down by the owner check but
    answered as expired, and the selection is no longer in the store
    afterwards. *)
Lemma stranger_click_purges_expired :
  let r := on_playlist_callback int_of_digits 8 86501 86502 sample_services
                                (click_entry_2 99) in
  State.pending (state sample_services) !! "a1b2c3d4e5f60718" = Some sample_pending
  /\ State.user_id sample_pending <> 99
  /\ snd (fst r) = expired_reply
  /\ snd (fst r) <> rejection
  /\ State.pending (state (fst (fst r))) !! "a1b2c3d4e5f60718" = None
  /\ fst (fst r) <> sample_services.
Proof.
  cbv zeta.
  assert (H : on_playlist_callback int_of_digits 8 86501 86502 sample_services
                                   (click_entry_2 99)
              = (mkServices (State.new_state 86400) Queue.new_queue false,
                 expired_reply, Done)) by (vm_compute; reflexivity).
  rewrite H. cbn [fst snd]. split; [vm_compute; reflexivity|].
  split; [cbn; lia|]. split; [reflexivity|]. split; [discriminate|].
  split; [reflexivity|].
  intros E. apply (f_equal (fun sv => State.pending (state sv) !! "a1b2c3d4e5f60718")) in E.
  vm_compute in E. discriminate.
Qed.

(** C9 (as the code has it). For a selection held by the store: while
    it has not expired, a callback that comes from a user other than
    the stored [user_id], or that carries no message or a message of
    a chat other than the stored [chat_id], fails the owner check, and
    both callbacks then answer "This selection is not for you." and
    return with the store, the selection in it and the queue exactly
    as they were; once it has expired, both callbacks answer that the
    session has expired, whoever clicked, and the lookup has removed
    the selection from the store. *)
Theorem only_owner_mutates (int_of_str : string -> option Z) (page_size : Z) (now later : Q)
        (sv : services) (update : Update) (query : CallbackQuery)
        (d prefix token action : string) (pending : State.PendingSelection) :
  callback_query update = Some query ->
  data query = Some d ->
  split3 d = Some (prefix, token, action) ->
  State.pending (state sv) !! token = Some pending ->
  (State.expired (state sv) now pending = false ->
   (exists u, from_user query = Some u /\ id u <> State.user_id pending)
   \/ message query = None
   \/ (exists m, message query = Some m /\ chat_id m <> State.chat_id pending) ->
   _validate_selection_owner update pending = false
   /\ on_playlist_callback int_of_str page_size now later sv update = (sv, rejection, Done)
   /\ on_quality_callback int_of_str now later sv update = (sv, rejection, Done)
   /\ State.pending
        (state (fst (fst (on_playlist_callback int_of_str page_size now later sv update))))
        !! token = Some pending
   /\ State.pending (state (fst (fst (on_quality_callback int_of_str now later sv update))))
        !! token = Some pending)
  /\ (State.expired (state sv) now pending = true ->
      let purged :=
        with_state sv (State.mkState (delete token (State.pending (state sv)))
                                     (State._ttl_sec (state sv))) in
      on_playlist_callback int_of_str page_size now later sv update
      = (purged, expired_reply, Done)
      /\ on_quality_callback int_of_str now later sv update = (purged, expired_reply, Done)
      /\ State.pending (state purged) !! token = None).
Proof.
  intros Hq Hd Hs Hl. split.
  - intros He Hother.
    pose proof (validate_rejects update query pending Hq Hother) as Hv.
    assert (Hp : on_playlist_callback int_of_str page_size now later sv update
                 = (sv, rejection, Done)).
    { unfold on_playlist_callback. rewrite Hq, Hd, Hs.
      rewrite (StateProofs.get_live _ _ _ _ Hl He), Hv, with_state_same. reflexivity. }
    assert (Hy : on_quality_callback int_of_str now later sv update = (sv, rejection, Done)).
    { unfold on_quality_callback. rewrite Hq, Hd, Hs.
      rewrite (StateProofs.get_live _ _ _ _ Hl He), Hv, with_state_same. reflexivity. }
    rewrite Hp, Hy. simpl. repeat split; assumption.
  - intros He. cbv zeta. split; [|split].
    + unfold on_playlist_callback. rewrite Hq, Hd, Hs.
      rewrite (StateProofs.get_expired _ _ _ _ Hl He). reflexivity.
    + unfold on_quality_callback. rewrite Hq, Hd, Hs.
      rewrite (StateProofs.get_expired _ _ _ _ Hl He). reflexivity.
    + unfold with_state. cbn [state State.pending]. apply lookup_delete_eq.
Qed.

(** User 99 clicks "pick entry 2" on the selection of user 42: the
    click is rejected and nothing changes, while the same click by
    user 42 consumes the selection and enqueues a job. *)
Lemma only_owner_mutates_witness :
  _validate_selection_owner (click_entry_2 99) sample_pending = false
  /\ on_playlist_callback int_of_digits 8 200 201 sample_services (click_entry_2 99)
     = (sample_services, rejection, Done)
  /\ on_quality_callback int_of_digits 200 201 sample_services (click_entry_2 99)
     = (sample_services, rejection, Done)
  /\ State.pending
       (state (fst (fst (on_playlist_callback int_of_digits 8 200 201 sample_services
                                              (click_entry_2 99)))))
       !! "a1b2c3d4e5f60718" = Some sample_pending
  /\ State.pending
       (state (fst (fst (on_quality_callback int_of_digits 200 201 sample_services
                                             (click_entry_2 99)))))
       !! "a1b2c3d4e5f60718" = Some sample_pending.
Proof.
  apply (proj1 (only_owner_mutates int_of_digits 8 200 201 sample_services (click_entry_2 99)
           (mkQuery (Some (mkUser 99)) (Some (mkMessage 7 11)) (Some "pl:a1b2c3d4e5f60718:t2"))
           "pl:a1b2c3d4e5f60718:t2" "pl" "a1b2c3d4e5f60718" "t2" sample_pending
           eq_refl eq_refl eq_refl eq_refl)).
  - vm_compute. reflexivity.
  - left. exists (mkUser 99). split; [reflexivity|]. simpl. lia.
Defined.

(** The owner's click does go through: the selection is consumed and
    the job for entry 2 is enqueued at position 1. *)
Lemma owner_click_enqueues :
  let r := on_playlist_callback int_of_digits 8 200 201 sample_services (click_entry_2 42) in
  State.pending (state (fst (fst r))) !! "a1b2c3d4e5f60718" = None
  /\ map Queue.playlist_items (Queue.items (queue (fst (fst r)))) = [Some "2"]
  /\ worker_started (fst (fst r)) = true.
Proof. vm_compute. repeat split; reflexivity. Qed.

End HandlersProofs.

(* ===================================================================== *)
(** * Further properties: queue positions                                *)
(* ===================================================================== *)

Module PositionsProofs.
Import Queue Positions.

Lemma enumerate_app {A : Type} (start : Z) (xs ys : list A) :
  enumerate start (xs ++ ys)
  = enumerate start xs ++ enumerate (start + Z.of_nat (length xs)) ys.
Proof.
  revert start. induction xs as [|x xs IH]; intros start; simpl.
  - rewrite Z.add_0_r. reflexivity.
  - rewrite IH. do 3 f_equal. lia.
Qed.

Lemma enumerate_lookup {A : Type} (start : Z) (l : list A) (i : nat) (x : A) :
  l !! i = Some x -> enumerate start l !! i = Some (start + Z.of_nat i, x).
Proof.
  revert start i. induction l as [|y l IH]; intros start i H; [discriminate|].
  destruct i as [|i]; simpl in *.
  - injection H as ->. rewrite Z.add_0_r. reflexivity.
  - rewrite (IH (start + 1) i H). do 2 f_equal. lia.
Qed.

Lemma refresh_lookup (q : DownloadQueue) (i : nat) (job : DownloadJob) :
  items q !! i = Some job ->
  snd (update_waiting_queue_positions q) !! i = Some (told job (1 + Z.of_nat i)).
Proof.
  intros H. unfold update_waiting_queue_positions, snapshot. cbn [snd].
  rewrite list_lookup_fmap, (enumerate_lookup 1 _ _ _ H). reflexivity.
Qed.

Lemma get_head (q q' : DownloadQueue) (job : DownloadJob) :
  get q = Some (job, q') -> items q = job :: items q'.
Proof.
  unfold get. destruct (items q) as [|j rest]; [discriminate|].
  intros H. injection H as -> <-. reflexivity.
Qed.

(** The position [enqueue] returns counts the jobs enqueued so far and
    not yet handed to the worker, the new job included: after any
    schedule it is (jobs enqueued) - (jobs received) + 1. *)
Theorem enqueue_position_counts_waiting (ops : list op) (job : DownloadJob) :
  snd (enqueue (queue (run ops init)) job)
  = Z.of_nat (length (enqueued ops)) - Z.of_nat (length (received (run ops init))) + 1.
Proof.
  pose proof (QueueProofs.run_log ops init) as H.
  apply (f_equal (@length DownloadJob)) in H.
  change (received init) with (@nil DownloadJob) in H.
  change (items (queue init)) with (@nil DownloadJob) in H.
  rewrite !length_app in H. cbn [length] in H.
  unfold enqueue. cbn [snd items]. rewrite length_app. cbn [length]. lia.
Qed.

(** The refresh of the waiting jobs' status messages issues one edit
    per waiting job, in queue order; the job just enqueued is told the
    position [enqueue] returned, after the edits of the jobs before it;
    and once the worker has taken the head of the queue, every job
    left is told a position one lower than before. *)
Theorem refresh_tells_positions :
  (forall q : DownloadQueue,
      length (snd (update_waiting_queue_positions q)) = length (items q))
  /\ (forall (q : DownloadQueue) (job : DownloadJob),
         snd (update_waiting_queue_positions (fst (enqueue q job)))
         = snd (update_waiting_queue_positions q) ++ [told job (snd (enqueue q job))])
  /\ (forall (q q' : DownloadQueue) (head job : DownloadJob) (i : nat),
         get q = Some (head, q') ->
         items q' !! i = Some job ->
         snd (update_waiting_queue_positions q) !! S i = Some (told job (Z.of_nat i + 2))
         /\ snd (update_waiting_queue_positions q') !! i = Some (told job (Z.of_nat i + 1))).
Proof.
  split; [|split].
  - intros q. unfold update_waiting_queue_positions, snapshot. cbn [snd].
    rewrite length_map. generalize 1. induction (items q) as [|x l IH]; intros s; simpl;
      [reflexivity|]. rewrite IH. reflexivity.
  - intros q job. unfold update_waiting_queue_positions, snapshot, enqueue, told.
    cbn [fst snd items]. rewrite enumerate_app, map_app. simpl.
    replace (Z.of_nat (length (items q ++ [job]))) with (1 + Z.of_nat (length (items q)))
      by (rewrite length_app; cbn [length]; lia).
    reflexivity.
  - intros q q' head job i Hget Hi.
    apply get_head in Hget.
    split.
    + replace (Z.of_nat i + 2) with (1 + Z.of_nat (S i)) by lia.
      apply refresh_lookup. rewrite Hget. exact Hi.
    + replace (Z.of_nat i + 1) with (1 + Z.of_nat i) by lia.
      apply refresh_lookup. exact Hi.
Qed.

(** Three jobs wait; the worker takes the first: the third job, told
    position 3 before, is told position 2. *)
Lemma refresh_tells_positions_witness :
  snd (update_waiting_queue_positions (mkQueue [job_a; job_b; job_a])) !! 2%nat
  = Some (told job_a 3)
  /\ snd (update_waiting_queue_positions (mkQueue [job_b; job_a])) !! 1%nat
     = Some (told job_a 2).
Proof.
  apply (proj2 (proj2 refresh_tells_positions)
               (mkQueue [job_a; job_b; job_a]) (mkQueue [job_b; job_a]) job_a job_a 1%nat);
    reflexivity.
Defined.

End PositionsProofs.

(* ===================================================================== *)
(** * Further properties: the selection session store                    *)
(* ===================================================================== *)

Module StoreProofs.
Import State.

Lemma state_eta (st : InMemoryState) : mkState (pending st) (_ttl_sec st) = st.
Proof. destruct st. reflexivity. Qed.

(** A selection stored under a token is what [get] and [pop] of that
    token return while it is no older than the TTL, and nothing once
    it is older; storing it touches no other token and not the TTL. *)
Theorem create_then_lookup (st : InMemoryState) (token : string) (p : PendingSelection)
        (now : Q) :
  let st1 := fst (create st token p) in
  snd (create st token p) = token
  /\ snd (get st1 now token) = (if expired st now p then None else Some p)
  /\ snd (pop st1 now token) = (if expired st now p then None else Some p)
  /\ _ttl_sec st1 = _ttl_sec st
  /\ forall other, other <> token -> pending st1 !! other = pending st !! other.
Proof.
  cbv zeta. unfold create, get, pop. cbn [fst snd pending _ttl_sec].
  rewrite lookup_insert_eq.
  change (expired (mkState (<[token:=p]> (pending st)) (_ttl_sec st)) now p)
    with (expired st now p).
  destruct (expired st now p); cbn [fst snd pending]; rewrite ?lookup_insert_eq;
    repeat split; try reflexivity;
    intros other Hne; apply lookup_insert_ne; congruence.
Qed.

(** A lookup of one token, whether it returns the selection, purges
    it as expired or finds nothing, leaves every other token's entry
    and the TTL as they were. *)
Theorem lookup_touches_one_token (st : InMemoryState) (now : Q) (token other : string) :
  other <> token ->
  pending (fst (get st now token)) !! other = pending st !! other
  /\ pending (fst (pop st now token)) !! other = pending st !! other
  /\ _ttl_sec (fst (get st now token)) = _ttl_sec st
  /\ _ttl_sec (fst (pop st now token)) = _ttl_sec st.
Proof.
  intros Hne. unfold get, pop.
  destruct (pending st !! token) as [p|]; [|repeat split; reflexivity].
  destruct (expired st now p); cbn [fst pending _ttl_sec];
    repeat split; try reflexivity; apply lookup_delete_ne; congruence.
Qed.

Lemma lookup_touches_one_token_witness :
  pending (fst (get sample_store 161 "a1b2c3d4e5f60718")) !! "ffffffffffffffff"
  = pending sample_store !! "ffffffffffffffff"
  /\ pending (fst (pop sample_store 161 "a1b2c3d4e5f60718")) !! "ffffffffffffffff"
     = pending sample_store !! "ffffffffffffffff"
  /\ _ttl_sec (fst (get sample_store 161 "a1b2c3d4e5f60718")) = _ttl_sec sample_store
  /\ _ttl_sec (fst (pop sample_store 161 "a1b2c3d4e5f60718")) = _ttl_sec sample_store.
Proof.
  apply (lookup_touches_one_token sample_store 161%Q "a1b2c3d4e5f60718" "ffffffffffffffff").
  discriminate.
Defined.

(** [pop] returns what [get] returns and always leaves the store
    without the token; [get] leaves the store as it was whenever it
    returns a selection; and a selection stored under a fresh token
    and popped before it expires leaves the store exactly as it was
    before it was stored. *)
Theorem pop_is_get_then_delete :
  (forall (st : InMemoryState) (now : Q) (token : string),
      snd (pop st now token) = snd (get st now token)
      /\ pending (fst (pop st now token)) = delete token (pending st))
  /\ (forall (st : InMemoryState) (now : Q) (token : string) (p : PendingSelection),
         snd (get st now token) = Some p -> fst (get st now token) = st)
  /\ (forall (st : InMemoryState) (now : Q) (token : string) (p : PendingSelection),
         pending st !! token = None ->
         expired st now p = false ->
         pop (fst (create st token p)) now token = (st, Some p)).
Proof.
  split; [|split].
  - intros st now token. unfold pop, get.
    destruct (pending st !! token) as [p|] eqn:Hl.
    + destruct (expired st now p); cbn [fst snd pending]; split; try reflexivity;
        exact Hl.
    + cbn [fst snd]. split; [reflexivity|]. symmetry. apply delete_id. exact Hl.
  - intros st now token p. unfold get.
    destruct (pending st !! token) as [p0|]; [|discriminate].
    destruct (expired st now p0); [discriminate|reflexivity].
  - intros st now token p Hfresh Hlive. unfold create, pop. cbn [fst pending _ttl_sec].
    rewrite lookup_insert_eq.
    change (expired (mkState (<[token:=p]> (pending st)) (_ttl_sec st)) now p)
      with (expired st now p).
    rewrite Hlive, delete_insert_eq, (delete_id _ _ Hfresh), state_eta. reflexivity.
Qed.

(** At time 130 the sample selection, stored at time 100 under a TTL
    of 60 seconds, is read and then consumed. *)
Lemma pop_is_get_then_delete_witness :
  fst (get sample_store 130 "a1b2c3d4e5f60718") = sample_store
  /\ pop (fst (create (new_state 60) "a1b2c3d4e5f60718" sample_pending)) 130 "a1b2c3d4e5f60718"
     = (new_state 60, Some sample_pending).
Proof.
  split.
  - apply (proj1 (proj2 pop_is_get_then_delete) sample_store 130%Q "a1b2c3d4e5f60718"
                 sample_pending).
    vm_compute. reflexivity.
  - apply (proj2 (proj2 pop_is_get_then_delete)); vm_compute; reflexivity.
Defined.

End StoreProofs.

(* ===================================================================== *)
(** * Further properties: HTML escaping                                  *)
(* ===================================================================== *)

Module UIProofs.
Import UI Text.

Lemma string_forall_app f (a b : string) :
  string_forall f (a ++ b)%string = string_forall f a && string_forall f b.
Proof.
  induction a as [|c a IH]; simpl; [reflexivity|].
  rewrite IH, andb_assoc. reflexivity.
Qed.

(** Whatever the text, its escaped form holds none of the characters
    [<], [>], double quote and single quote, so a text shown in
    italics cannot open or close a tag of its own; and a text without
    those characters and without [&] is left as it is. *)
Theorem html_escape_no_markup :
  (forall s : string, string_forall (fun c => negb (is_markup c)) (html_escape s) = true)
  /\ (forall s : string,
         string_forall (fun c => negb (is_special c)) s = true -> html_escape s = s).
Proof.
  split.
  - induction s as [|c s IH]; [reflexivity|].
    cbn [html_escape]. rewrite string_forall_app, IH, andb_true_r.
    destruct (Nat.eqb (nat_of_ascii c) 38) eqn:E38; [reflexivity|].
    destruct (Nat.eqb (nat_of_ascii c) 60) eqn:E60; [reflexivity|].
    destruct (Nat.eqb (nat_of_ascii c) 62) eqn:E62; [reflexivity|].
    destruct (Nat.eqb (nat_of_ascii c) 34) eqn:E34; [reflexivity|].
    destruct (Nat.eqb (nat_of_ascii c) 39) eqn:E39; [reflexivity|].
    cbn [string_forall]. unfold is_markup. rewrite E60, E62, E34, E39. reflexivity.
  - induction s as [|c s IH]; [reflexivity|].
    cbn [string_forall html_escape]. intros H. apply andb_prop in H. destruct H as [Hc Hs].
    rewrite (IH Hs). unfold is_special, is_markup in Hc.
    apply negb_true_iff in Hc. rewrite !orb_false_iff in Hc.
    destruct Hc as [[[[H60 H62] H34] H39] H38].
    rewrite H38, H60, H62, H34, H39. reflexivity.
Qed.

Lemma html_escape_no_markup_witness :
  html_escape "Downloading... 42% (no progress for 1:13)"
  = "Downloading... 42% (no progress for 1:13)".
Proof.
  apply (proj2 html_escape_no_markup). vm_compute. reflexivity.
Defined.

End UIProofs.

(* ===================================================================== *)
(** * Further properties: the progress hook                              *)
(* ===================================================================== *)

Module HookProofs.
Import Observed Py Downloader PyFacts.

(** What a single call of [hook] can hand to the callback. *)
Lemma hook_output_shape f cb st e :
  snd (hook f cb st e) = []
  \/ snd (hook f cb st e) = [("processing", None)]
  \/ exists pi, 0 <= pi <= 100
                /\ snd (hook f cb st e) = [("download", Some (inject_Z pi))].
Proof.
  assert (Hemit : forall st1 p,
             snd (_emit_download_percent cb st1 p) = []
             \/ snd (_emit_download_percent cb st1 p) = [("processing", None)]
             \/ exists pi, 0 <= pi <= 100
                           /\ snd (_emit_download_percent cb st1 p)
                              = [("download", Some (inject_Z pi))]).
  { intros st1 p. unfold _emit_download_percent.
    destruct cb; cbn [negb]; [|left; reflexivity].
    destruct (_ =? _); [left; reflexivity|].
    right. right. eexists. split; [apply percent_int_bounds|reflexivity]. }
  unfold hook.
  destruct (eq_str (status e) "postprocessing" || eq_str (status e) "processing").
  { unfold _emit_processing. destruct cb; cbn [negb]; [|left; reflexivity].
    destruct (processing_announced st); [left|right; left]; reflexivity. }
  destruct (eq_str (status e) "finished").
  { destruct (positive_number _); left; reflexivity. }
  destruct (eq_str (status e) "downloading"); cbn [negb]; [|left; reflexivity].
  destruct (aggregate _); [apply Hemit|].
  destruct (_percent_str e); try (left; reflexivity).
  destruct (f _); [|left; reflexivity].
  destruct (Qlt_bool _ _); [left; reflexivity|apply Hemit].
Qed.

(** Every integer percent the hook emits lies in 0..100, whatever
    byte counts or percent strings the raw events carry and whatever
    state the hook starts from. *)
Theorem emitted_percents_bounded (float_of_str : string -> option Q)
        (cb : bool) (st : closure) (events : list progress) :
  Forall (fun pi => 0 <= pi <= 100)
         (download_percents (snd (run_hook float_of_str cb st events))).
Proof.
  revert st. induction events as [|e events IH]; intros st; [constructor|].
  rewrite DownloaderProofs.run_hook_cons. cbn [snd].
  rewrite DownloaderProofs.download_percents_app. apply Forall_app. split; [|apply IH].
  destruct (hook_output_shape float_of_str cb st e) as [H|[H|[pi [Hb H]]]]; rewrite H.
  - constructor.
  - constructor.
  - simpl. rewrite DownloaderProofs.int_of_float_inject. repeat constructor; lia.
Qed.

(** Without a callback ([progress_cb is None]) the hook emits
    nothing, and neither the last percent nor the processing latch
    ever moves. *)
Theorem no_callback_no_emission (float_of_str : string -> option Q)
        (st : closure) (events : list progress) :
  snd (run_hook float_of_str false st events) = []
  /\ last_percent (fst (run_hook float_of_str false st events)) = last_percent st
  /\ processing_announced (fst (run_hook float_of_str false st events))
     = processing_announced st.
Proof.
  revert st. induction events as [|e events IH]; intros st; [repeat split|].
  rewrite DownloaderProofs.run_hook_cons. cbn [fst snd].
  assert (H : snd (hook float_of_str false st e) = []
              /\ last_percent (fst (hook float_of_str false st e)) = last_percent st
              /\ processing_announced (fst (hook float_of_str false st e))
                 = processing_announced st).
  { unfold hook.
    destruct (eq_str (status e) "postprocessing" || eq_str (status e) "processing");
      [repeat split|].
    destruct (eq_str (status e) "finished");
      [destruct (positive_number _); repeat split|].
    destruct (eq_str (status e) "downloading"); cbn [negb]; [|repeat split].
    destruct (DownloaderProofs.record_download_scalars st (stream_key e) e) as [Hl Ha].
    destruct (aggregate _); [repeat split; assumption|].
    destruct (_percent_str e); try (repeat split; assumption).
    destruct (float_of_str _); [|repeat split; assumption].
    destruct (Qlt_bool _ _); repeat split; assumption. }
  destruct H as [Ho [Hl Ha]]. destruct (IH (fst (hook float_of_str false st e))) as [IHo [IHl IHa]].
  rewrite Ho, IHo, IHl, IHa. repeat split; assumption.
Qed.

(** A raw event changes the byte counts of its own stream only: the
    downloaded bytes and the total recorded for any other stream key
    stay as they were. *)
Theorem hook_touches_one_stream (float_of_str : string -> option Q)
        (cb : bool) (st : closure) (e : progress) (key : string) :
  key <> stream_key e ->
  file_total (fst (hook float_of_str cb st e)) !! key = file_total st !! key
  /\ file_downloaded (fst (hook float_of_str cb st e)) !! key = file_downloaded st !! key.
Proof.
  intros Hne.
  assert (Hrec : file_total (record_download st (stream_key e) e) !! key = file_total st !! key
                 /\ file_downloaded (record_download st (stream_key e) e) !! key
                    = file_downloaded st !! key).
  { unfold record_download.
    destruct (nonneg_number _), (positive_number _); cbn; split;
      rewrite ?lookup_insert_ne by congruence; reflexivity. }
  assert (Hemit : forall st1 p,
             file_total (fst (_emit_download_percent cb st1 p)) = file_total st1
             /\ file_downloaded (fst (_emit_download_percent cb st1 p)) = file_downloaded st1).
  { intros st1 p. unfold _emit_download_percent.
    destruct cb; cbn [negb]; [|split; reflexivity].
    destruct (_ =? _); split; reflexivity. }
  unfold hook.
  destruct (eq_str (status e) "postprocessing" || eq_str (status e) "processing").
  { unfold _emit_processing. destruct cb; cbn [negb]; [|split; reflexivity].
    destruct (processing_announced st); split; reflexivity. }
  destruct (eq_str (status e) "finished").
  { destruct (positive_number _); cbn; [|split; reflexivity].
    split; rewrite ?lookup_insert_ne by congruence; reflexivity. }
  destruct (eq_str (status e) "downloading"); cbn [negb]; [|split; reflexivity].
  destruct (aggregate _).
  { destruct (Hemit (record_download st (stream_key e) e) q) as [-> ->]. exact Hrec. }
  destruct (_percent_str e); try exact Hrec.
  destruct (float_of_str _); [|exact Hrec].
  destruct (Qlt_bool _ _); [exact Hrec|].
  destruct (Hemit (record_download st (stream_key e) e) q) as [-> ->]. exact Hrec.
Qed.

Lemma hook_touches_one_stream_witness :
  file_total (fst (hook float_of_digits true
                        (fst (run_hook float_of_digits true closure_init
                                       [downloading "A" 50 100]))
                        (downloading "B" 0 200))) !! "A" = Some 100%Q
  /\ file_downloaded (fst (hook float_of_digits true
                                (fst (run_hook float_of_digits true closure_init
                                               [downloading "A" 50 100]))
                                (downloading "B" 0 200))) !! "A" = Some 50%Q.
Proof.
  destruct (hook_touches_one_stream float_of_digits true
              (fst (run_hook float_of_digits true closure_init [downloading "A" 50 100]))
              (downloading "B" 0 200) "A") as [Ht Hd]; [discriminate|].
  rewrite Ht, Hd. split; vm_compute; reflexivity.
Defined.

Lemma known_stream_positive st (d t : Q) :
  In (d, t) (known_streams st) -> (0 < t)%Q.
Proof.
  intros H. apply list_elem_of_In in H. unfold known_streams in H.
  apply list_elem_of_omap in H. destruct H as [[k t0] [_ H]].
  unfold stream_of in H. cbn [fst snd] in H.
  destruct (Qlt_bool_spec 0 t0) as [Hpos|]; [|discriminate].
  injection H as _ <-. exact Hpos.
Qed.

Lemma complete_sums (l : list (Q * Q)) :
  (forall d t, In (d, t) l -> (0 < t)%Q /\ (t <= d)%Q) ->
  (Qsum (map (fun dt => clamp 0 (snd dt) (fst dt)) l) == Qsum (map snd l))%Q
  /\ (l <> [] -> (0 < Qsum (map snd l))%Q)
  /\ (0 <= Qsum (map snd l))%Q.
Proof.
  induction l as [|[d t] l IH]; intros H.
  - simpl. split; [reflexivity|split; [congruence|lra]].
  - destruct (H d t (or_introl eq_refl)) as [Hpos Hle].
    destruct IH as [IHs [_ IHn]]; [intros d' t' Hin; apply H; right; exact Hin|].
    unfold Qsum in *. cbn [map foldr fst snd].
    assert (Hc : (clamp 0 t d == t)%Q).
    { unfold clamp. rewrite (Q.min_l t d) by exact Hle. apply Q.max_r. lra. }
    rewrite Hc, IHs. split; [reflexivity|split; [intros _; lra|lra]].
Qed.

(** Once every stream with a known total has all its bytes (as after
    its final byte count or its finished event), a downloading event
    brings the emitted percent to 100: it emits 100 unless 100 was the
    last percent emitted. This is stated for totals that are whole
    numbers of bytes with a hundredfold sum of at most 2^53, where the
    float arithmetic of the source is exact; with a fractional total
    estimate the quotient of the source can round below 100. *)
Theorem complete_streams_give_100 (float_of_str : string -> option Q)
        (st : closure) (e : progress) :
  eq_str (status e) "downloading" = true ->
  let st1 := record_download st (stream_key e) e in
  known_streams st1 <> [] ->
  exact_totals (known_streams st1) ->
  (forall d t, In (d, t) (known_streams st1) -> (t <= d)%Q) ->
  last_percent (fst (hook float_of_str true st e)) = 100
  /\ download_percents (snd (hook float_of_str true st e))
     = if last_percent st =? 100 then [] else [100].
Proof.
  intros Hs st1 Hne _ Hall.
  rewrite (DownloaderProofs.hook_downloading _ _ _ _ Hs Hne). fold st1.
  destruct (complete_sums (known_streams st1)) as [Hsum [Hpos _]].
  { intros d t Hin. split; [exact (known_stream_positive _ _ _ Hin)|exact (Hall _ _ Hin)]. }
  specialize (Hpos Hne).
  assert (Hp : (spec_aggregate_percent (known_streams st1) == 100)%Q).
  { unfold spec_aggregate_percent. rewrite Hsum. apply Qdiv_mult_l. lra. }
  rewrite (DownloaderProofs.emit_download_percent_comp true st1 _ _ Hp).
  destruct (DownloaderProofs.record_download_scalars st (stream_key e) e) as [Hl _].
  fold st1 in Hl. unfold _emit_download_percent. cbn [negb].
  change (int_of_float (max 0 (min 100 100))) with 100. rewrite Hl.
  destruct (100 =? last_percent st) eqn:E.
  - apply Z.eqb_eq in E. rewrite <- E. cbn. split; [congruence|reflexivity].
  - rewrite Z.eqb_sym, E. cbn. split; reflexivity.
Qed.

(** The video stream is complete at 100 of 100 bytes and 100 percent
    was emitted; the audio stream started at 0 of 200 bytes and 33
    percent was emitted; the last byte count of the audio stream
    brings the percent back to 100. *)
Lemma complete_streams_give_100_witness :
  let st := fst (run_hook float_of_digits true closure_init
                          [downloading "video" 100 100; finished "video" 100;
                           downloading "audio" 0 200]) in
  last_percent (fst (hook float_of_digits true st (downloading "audio" 200 200))) = 100
  /\ download_percents (snd (hook float_of_digits true st (downloading "audio" 200 200)))
     = [100].
Proof.
  intros st.
  assert (Hk : known_streams (record_download st (stream_key (downloading "audio" 200 200))
                                              (downloading "audio" 200 200))
               = [(200%Q, 200%Q); (100%Q, 100%Q)]) by (vm_compute; reflexivity).
  assert (Hlast : (last_percent st =? 100) = false) by (vm_compute; reflexivity).
  destruct (complete_streams_give_100 float_of_digits st (downloading "audio" 200 200))
    as [Hl Hp].
  - reflexivity.
  - rewrite Hk. discriminate.
  - rewrite Hk. split; [repeat constructor|vm_compute; discriminate].
  - rewrite Hk. intros d t Hin.
    destruct Hin as [Hin|[Hin|[]]]; injection Hin as <- <-; discriminate.
  - split; [exact Hl|]. rewrite Hp, Hlast. reflexivity.
Defined.


End HookProofs.

(* ===================================================================== *)
(** * Further properties: the reporter's render rate                     *)
(* ===================================================================== *)

Module RateProofs.
Import Py Reporter Observed PyFacts.

(** An iteration renders only when [min_interval] has passed since
    the last render, and then records its own clock reading as the
    time of the last render; otherwise the time of the last render
    stays. *)
Lemma iteration_rate (min_interval : Q) (st : locals) (w : wakeup) :
  match snd (iteration min_interval st w) with
  | Some _ =>
      (min_interval <= wakeup_time w - last_sent_time st)%Q
      /\ last_sent_time (fst (iteration min_interval st w)) = wakeup_time w
  | None => last_sent_time (fst (iteration min_interval st w)) = last_sent_time st
  end.
Proof.
  destruct w as [new_phase percent now|now]; cbn [iteration wakeup_time].
  - destruct (negb (String.eqb (if negb (String.eqb new_phase "") then new_phase else phase st)
                               "download")).
    + cbn [last_sent_time].
      destruct (Qlt_bool_spec (now - last_sent_time st) min_interval); cbn; [reflexivity|].
      split; [assumption|reflexivity].
    + destruct percent as [p|]; [|reflexivity].
      destruct (_ =? _); [reflexivity|]. cbn [last_sent_time].
      destruct (Qlt_bool_spec (now - last_sent_time st) min_interval); cbn; [reflexivity|].
      split; [assumption|reflexivity].
  - destruct (Qlt_bool_spec (now - last_sent_time st) min_interval); cbn; [reflexivity|].
    split; [assumption|reflexivity].
Qed.

(** Whatever events and time-outs arrive and whenever, two successive
    renders of the reporter are at least [min_interval] apart on its
    clock (the first one counted from the initial [last_sent_time]);
    one clock reading is kept per rendered text. *)
Theorem renders_respect_min_interval (min_interval : Q) (st : locals) (ws : list wakeup) :
  spaced min_interval (last_sent_time st) (render_times min_interval st ws)
  /\ length (render_times min_interval st ws)
     = length (snd (progress_updater min_interval st ws)).
Proof.
  revert st. induction ws as [|w ws IH]; intros st; [split; [exact I|reflexivity]|].
  cbn [render_times progress_updater].
  pose proof (iteration_rate min_interval st w) as Hr.
  destruct (iteration min_interval st w) as [st1 out]. cbn [fst snd] in Hr.
  destruct (IH st1) as [IHs IHl].
  destruct (progress_updater min_interval st1 ws) as [st2 outs]. cbn [snd] in *.
  destruct out as [text|].
  - destruct Hr as [Hgap Hlast]. cbn [spaced length].
    replace (match w with Event _ _ now => now | StallTimeout now => now end)
      with (wakeup_time w) by (destruct w; reflexivity).
    rewrite <- Hlast, IHl. split; [|reflexivity]. split; [rewrite Hlast; exact Hgap|exact IHs].
  - rewrite <- Hr. split; [exact IHs|exact IHl].
Qed.

End RateProofs.

(* ===================================================================== *)
(** * Further properties: delivery and crash isolation in the worker     *)
(* ===================================================================== *)

Module DeliveryProofs.
Import Py Worker Observed.

Lemma sent_snoc l a :
  sent (mkLocals (session_dir l) (job_success l) (trace l ++ [a]))
  = sent l ++ match a with Send p => [p] | _ => [] end.
Proof. unfold sent. cbn [trace]. rewrite omap_app. destruct a; reflexivity. Qed.

Lemma unlinked_snoc l a :
  unlinked (mkLocals (session_dir l) (job_success l) (trace l ++ [a]))
  = unlinked l ++ match a with Unlink p => [p] | _ => [] end.
Proof. unfold unlinked. cbn [trace]. rewrite omap_app. destruct a; reflexivity. Qed.

Lemma obs_emit ps us b a : is_delivery a = false -> keeps (obs ps us b) (emit a).
Proof.
  intros Ha l [Hs [Hu Hj]]. unfold emit, obs. cbn [snd].
  rewrite sent_snoc, unlinked_snoc. cbn [job_success].
  destruct a; try discriminate; rewrite !app_nil_r; auto.
Qed.

Lemma obs_set_session_dir ps us b p : keeps (obs ps us b) (set_session_dir p).
Proof. intros l H. exact H. Qed.

Ltac prove_obs :=
  repeat (intros;
          first
            [ reflexivity
            | apply WorkerProofs.keeps_ret
            | apply WorkerProofs.keeps_call
            | apply obs_emit
            | apply obs_set_session_dir
            | apply WorkerProofs.keeps_bind
            | apply WorkerProofs.keeps_try_finally
            | apply WorkerProofs.keeps_suppress_cancelled
            | apply WorkerProofs.keeps_except_Exception ]).

Lemma obs_edit_message_text ps us b w text : keeps (obs ps us b) (edit_message_text w text).
Proof. unfold edit_message_text. prove_obs. Qed.

Lemma obs_safe_edit_italic ps us b w text : keeps (obs ps us b) (safe_edit_italic w text).
Proof. unfold safe_edit_italic. prove_obs. Qed.

Lemma bind_return {A B : Type} (c : M A) (k : A -> M B) l a l1 :
  c l = (Returned a, l1) -> bind c k l = k a l1.
Proof. intros H. unfold bind. rewrite H. reflexivity. Qed.

Lemma bind_raise {A B : Type} (c : M A) (k : A -> M B) l e l1 :
  c l = (Raised e, l1) -> bind c k l = (Raised e, l1).
Proof. intros H. unfold bind. rewrite H. reflexivity. Qed.

Lemma deliver_progress w n idx files ps us b l :
  obs ps us b l ->
  progress_of w files ps us (snd (deliver w n idx files l))
  /\ job_success (snd (deliver w n idx files l)) = b
  /\ (fst (deliver w n idx files l) = Returned tt ->
      sent (snd (deliver w n idx files l)) = ps ++ files
      /\ unlinked (snd (deliver w n idx files l)) = us ++ files
      /\ all_sent w files).
Proof.
  revert idx ps us l. induction files as [|p files IH]; intros idx ps us l Hobs.
  - destruct Hobs as [Hs [Hu Hj]]. cbn. split; [|split; [exact Hj|]].
    + exists 0%nat, 0%nat. cbn. rewrite !app_nil_r. repeat split; auto. constructor.
    + intros _. rewrite !app_nil_r. repeat split; auto. constructor.
  - cbn [deliver].
    match goal with
    | |- context [bind (safe_edit_italic w ?text) _ l] =>
        pose proof (obs_safe_edit_italic ps us b w text l Hobs) as H1;
        destruct (safe_edit_italic w text l) as [[[]|e] l1] eqn:E1
    end; cbn [snd] in H1.
    2:{ rewrite (bind_raise _ _ _ _ _ E1).
        destruct H1 as [Hs [Hu Hj]]. cbn [fst snd]. split; [|split; [exact Hj|discriminate]].
        exists 0%nat, 0%nat. cbn. rewrite !app_nil_r. repeat split; auto; try lia. constructor. }
    rewrite (bind_return _ _ _ _ _ E1). cbv beta.
    set (l2 := mkLocals (session_dir l1) (job_success l1) (trace l1 ++ [Send p])).
    assert (E2 : emit (Send p) l1 = (Returned tt, l2)) by reflexivity.
    rewrite (bind_return _ _ _ _ _ E2). cbv beta.
    assert (H2 : obs (ps ++ [p]) us b l2).
    { destruct H1 as [Hs [Hu Hj]]. unfold obs, l2. rewrite sent_snoc, unlinked_snoc.
      cbn [job_success]. rewrite Hs, Hu, app_nil_r. auto. }
    destruct (send_file w p) as [[]|e] eqn:Hsend.
    2:{ assert (E3 : call (send_file w p) l2 = (Raised e, l2))
          by (unfold call; rewrite Hsend; reflexivity).
        rewrite Hsend in *. rewrite (bind_raise _ _ _ _ _ E3).
        destruct H2 as [Hs [Hu Hj]]. cbn [fst snd]. split; [|split; [exact Hj|discriminate]].
        exists 1%nat, 0%nat. cbn. rewrite app_nil_r. repeat split; auto; try lia. constructor. }
    assert (E3 : call (@Returned unit tt) l2 = (Returned tt, l2)) by reflexivity.
    rewrite (bind_return _ _ _ _ _ E3). cbv beta.
    assert (H3 : exists l3,
               except_Exception (emit (Unlink p);;; call (of_os (unlink w p)))
                                (emit (Log "warning" "Failed to delete sent file")) l2
               = (Returned tt, l3)
               /\ obs (ps ++ [p]) (us ++ [p]) b l3).
    { destruct H2 as [Hs [Hu Hj]].
      unfold except_Exception, bind, emit, call, of_os. cbn [fst snd].
      destruct (unlink w p) as [[|]|[]]; cbn [fst snd is_Exception exn_of_os_error];
        eexists; (split; [reflexivity|]);
        unfold obs; rewrite !sent_snoc, !unlinked_snoc; cbn [job_success];
        rewrite Hs, Hu, ?app_nil_r; auto. }
    destruct H3 as [l3 [E4 H3]].
    rewrite (bind_return _ _ _ _ _ E4). cbv beta.
    destruct (IH (idx + 1) (ps ++ [p]) (us ++ [p]) l3 H3) as [[k [k' Hk]] [Hj Hret]].
    split; [|split; [exact Hj|]].
    + destruct Hk as [Hs [Hu [Hle [Hle' [Hlen Hall]]]]].
      exists (S k), (S k'). cbn [firstn length].
      rewrite Hs, Hu, <- !app_assoc. cbn.
      repeat split; auto; try lia. constructor; assumption.
    + intros Hr. destruct (Hret Hr) as [Hs [Hu Hall]].
      rewrite Hs, Hu, <- !app_assoc. cbn. repeat split; auto. constructor; assumption.
Qed.

Lemma body_delivery_ext w root l l' :
  sent l' = sent l -> unlinked l' = unlinked l -> job_success l' = job_success l ->
  body_delivery w root l -> body_delivery w root l'.
Proof.
  intros Hs Hu Hj [H|[sd [files [He [Hd [[k [k' Hp]] Hsucc]]]]]].
  - left. rewrite Hs, Hu, Hj. exact H.
  - right. exists sd, files. split; [exact He|]. split; [exact Hd|]. split.
    + exists k, k'. rewrite Hs, Hu. exact Hp.
    + rewrite Hs, Hu, Hj. exact Hsucc.
Qed.

Ltac keep_step H :=
  match goal with
  | |- context [bind ?c _ ?l] =>
      let Hk := fresh "Hk" in
      let E := fresh "E" in
      let H' := fresh "Hobs" in
      assert (Hk : keeps (obs [] [] false) c)
        by first [apply obs_edit_message_text | apply obs_safe_edit_italic | prove_obs];
      pose proof (Hk l H) as H'; clear Hk;
      destruct (c l) as [[?|?] ?] eqn:E; cbn [snd] in H';
      [ rewrite (bind_return _ _ _ _ _ E); cbv beta; clear H
      | rewrite (bind_raise _ _ _ _ _ E); left; exact H' ]
  end.

Lemma job_body_delivers w root job :
  body_delivery w root (snd (job_body w root job initial)).
Proof.
  unfold job_body.
  assert (H0 : obs [] [] false initial) by (repeat split).
  revert H0. generalize initial. intros l0 H0.
  keep_step H0. keep_step Hobs.
  (* the session directory *)
  match goal with
  | |- context [bind (call ?o) _ ?l] =>
      destruct o as [sd|e] eqn:Hensure;
      [ rewrite (bind_return (call (Returned sd)) _ l sd l eq_refl); cbv beta
      | rewrite (bind_raise (call (Raised e)) _ l e l eq_refl); left; exact Hobs0 ]
  end.
  keep_step Hobs0. keep_step Hobs.
  (* the download *)
  match goal with
  | |- context [bind ?c _ ?l] =>
      assert (Hd : (exists files, c l = (Returned files, l)
                                  /\ download_urls w sd = Returned files)
                   \/ (exists e, c l = (Raised e, l)))
  end.
  { unfold try_finally, call, suppress_cancelled.
    destruct (download_urls w sd) as [files|e]; destruct (progress_task w) as [[]|[| |]];
      eauto. }
  destruct Hd as [[files [Edl Hdown]]|[e Edl]];
    [rewrite (bind_return _ _ _ _ _ Edl); cbv beta
    |rewrite (bind_raise _ _ _ _ _ Edl); left; exact Hobs0].
  clear Edl. destruct files as [|f files].
  { keep_step Hobs0.
    pose proof (obs_edit_message_text [] [] false w
                  "Download finished, but the file was not found." _ Hobs) as H.
    left. exact H. }
  keep_step Hobs0.
  (* the delivery loop *)
  match goal with
  | |- context [bind (deliver w ?n ?idx ?fs) _ ?l] =>
      destruct (deliver_progress w n idx fs [] [] false l Hobs) as [Hp [Hj Hret]];
      destruct (deliver w n idx fs l) as [[[]|e] l'] eqn:Edv; cbn [fst snd] in Hp, Hj, Hret
  end.
  2:{ rewrite (bind_raise _ _ _ _ _ Edv). right. exists sd, (f :: files).
      split; [exact Hensure|]. split; [exact Hdown|]. split; [exact Hp|].
      cbn [snd]. rewrite Hj. discriminate. }
  rewrite (bind_return _ _ _ _ _ Edv). cbv beta.
  destruct (Hret eq_refl) as [Hs [Hu Hall]]. cbn [app] in Hs, Hu.
  right. exists sd, (f :: files).
  split; [exact Hensure|]. split; [exact Hdown|].
  assert (Hend : sent (snd ((set_job_success true;;; edit_message_text w "Done.";;;
                             emit (Log "info" "Job done")) l')) = f :: files
                 /\ unlinked (snd ((set_job_success true;;; edit_message_text w "Done.";;;
                                    emit (Log "info" "Job done")) l')) = f :: files).
  { unfold bind, set_job_success, edit_message_text, bind, emit, call. cbn [fst snd].
    destruct (bot_edit w "Done.") as [[]|e]; cbn [fst snd];
      rewrite ?sent_snoc, ?unlinked_snoc, ?app_nil_r;
      unfold sent, unlinked in *; cbn [trace];
      rewrite ?omap_app, ?app_nil_r; cbn [omap]; rewrite ?app_nil_r; auto. }
  destruct Hend as [Hs' Hu']. split.
  - exists (length (f :: files)), (length (f :: files)).
    rewrite Hs', Hu', firstn_all. cbn [app]. repeat split; auto.
  - intros _. repeat split; assumption.
Qed.


(** The handlers and the [finally] clause send and unlink nothing
    and leave the success flag alone. *)
Lemma process_job_keeps_delivery w root job :
  sent (snd (process_job w root job)) = sent (snd (job_body w root job initial))
  /\ unlinked (snd (process_job w root job)) = unlinked (snd (job_body w root job initial))
  /\ job_success (snd (process_job w root job))
     = job_success (snd (job_body w root job initial)).
Proof.
  destruct (WorkerProofs.process_job_unfold w root job) as [l' [Hf Hp]]. cbv zeta in Hf, Hp.
  rewrite Hp. cbn [snd].
  assert (Hh : sent (snd (job_handlers w job (job_body w root job) initial))
               = sent (snd (job_body w root job initial))
               /\ unlinked (snd (job_handlers w job (job_body w root job) initial))
                  = unlinked (snd (job_body w root job initial))
               /\ job_success (snd (job_handlers w job (job_body w root job) initial))
                  = job_success (snd (job_body w root job initial))).
  { unfold job_handlers. destruct (job_body w root job initial) as [[u|e] l1]; cbn [snd];
      [repeat split|].
    destruct (is_Exception e); [|repeat split].
    unfold bind, emit, edit_message_text, bind, emit, call. cbn [fst snd].
    destruct (bot_edit w (failure_text job)); cbn [snd];
      rewrite !sent_snoc, !unlinked_snoc, !app_nil_r; repeat split. }
  destruct Hh as [Hs [Hu Hj]]. rewrite <- Hs, <- Hu, <- Hj.
  destruct (WorkerProofs.job_finally_result w root
              (snd (job_handlers w job (job_body w root job) initial)))
    as [l'' [Hf' [_ [Hj' Hc]]]].
  rewrite Hf in Hf'. injection Hf' as <-.
  split; [|split; [|exact Hj']].
  - destruct Hc as [->|[_ [sd [_ Hend]]]]; [reflexivity|].
    destruct Hend; unfold logged, sent; cbn [trace]; rewrite ?omap_app; cbn [omap];
      rewrite ?app_nil_r; reflexivity.
  - destruct Hc as [->|[_ [sd [_ Hend]]]]; [reflexivity|].
    destruct Hend; unfold logged, unlinked; cbn [trace]; rewrite ?omap_app; cbn [omap];
      rewrite ?app_nil_r; reflexivity.
Qed.

Lemma process_job_delivers w root job :
  body_delivery w root (snd (process_job w root job)).
Proof.
  destruct (process_job_keeps_delivery w root job) as [Hs [Hu Hj]].
  apply (body_delivery_ext w root _ _ Hs Hu Hj), job_body_delivers.
Qed.

(** The files of a job are handed to [send_file] in the order the
    download returned them, each at most once and none skipped: the
    files sent are a prefix of the files produced; and a job is marked
    successful only when every produced file was sent and [send_file]
    returned for each. *)
Theorem delivery_in_order (w : world) (root : path) (job : Queue.DownloadJob) :
  (sent (snd (process_job w root job)) = []
   \/ exists sd files k,
       ensure_session_dir w root = Returned sd
       /\ download_urls w sd = Returned files
       /\ sent (snd (process_job w root job)) = firstn k files)
  /\ (job_success (snd (process_job w root job)) = true ->
      exists sd files,
        ensure_session_dir w root = Returned sd
        /\ download_urls w sd = Returned files
        /\ sent (snd (process_job w root job)) = files
        /\ all_sent w files).
Proof.
  destruct (process_job_delivers w root job)
    as [[Hs [Hu Hj]]|[sd [files [He [Hd [[k [k' [Hs _]]] Hsucc]]]]]].
  - split; [left; exact Hs|]. rewrite Hj. discriminate.
  - split.
    + right. exists sd, files, k. auto.
    + intros Ht. destruct (Hsucc Ht) as [Hs' [_ Hall]]. exists sd, files. auto.
Qed.

(** The world in which everything works: its one file is sent. *)
Lemma delivery_in_order_witness :
  exists sd files,
    ensure_session_dir world_ok sample_root = Returned sd
    /\ download_urls world_ok sd = Returned files
    /\ sent (snd (process_job world_ok sample_root sample_job)) = files
    /\ all_sent world_ok files.
Proof.
  apply (proj2 (delivery_in_order world_ok sample_root sample_job)).
  vm_compute. reflexivity.
Defined.

(** A produced file is unlinked only after [send_file] returned for
    it: the files unlinked are a prefix of the files sent that misses
    at most the last one, and [send_file] returned for each of them. *)
Theorem unlink_only_after_send (w : world) (root : path) (job : Queue.DownloadJob) :
  exists k' : nat,
    unlinked (snd (process_job w root job)) = firstn k' (sent (snd (process_job w root job)))
    /\ (length (sent (snd (process_job w root job))) <= S k')%nat
    /\ all_sent w (unlinked (snd (process_job w root job))).
Proof.
  destruct (process_job_delivers w root job)
    as [[Hs [Hu Hj]]|[sd [files [He [Hd [[k [k' Hp]] _]]]]]].
  - exists 0%nat. rewrite Hs, Hu. cbn. repeat split; [lia|constructor].
  - destruct Hp as [Hs [Hu [Hle [Hle' [Hlen Hall]]]]]. cbn [app] in Hs, Hu.
    exists k'. rewrite Hs, Hu. rewrite firstn_firstn, Nat.min_l by exact Hle.
    rewrite length_firstn, Nat.min_l by exact Hlen.
    repeat split; [exact Hle'|exact Hall].
Qed.

(** An exception leaves the processing of a job, and so ends the
    worker loop, in two cases only: the job body was cancelled, or the
    edit that shows the failure text to the user itself raised. Any
    other exception of the body is absorbed once that edit returns;
    and a cancellation of the body is always passed on. *)
Theorem worker_survives_job_failure (w : world) (root : path) (job : Queue.DownloadJob) :
  (forall e,
      fst (process_job w root job) = Raised e ->
      (e = CancelledError /\ fst (job_body w root job initial) = Raised CancelledError)
      \/ (bot_edit w (failure_text job) = Raised e
          /\ exists e0, is_Exception e0 = true
                        /\ fst (job_body w root job initial) = Raised e0))
  /\ (forall e0,
         fst (job_body w root job initial) = Raised e0 ->
         is_Exception e0 = true ->
         bot_edit w (failure_text job) = Returned tt ->
         fst (process_job w root job) = Returned tt)
  /\ (fst (job_body w root job initial) = Raised CancelledError ->
      fst (process_job w root job) = Raised CancelledError).
Proof.
  destruct (WorkerProofs.process_job_unfold w root job) as [l' [_ Hp]]. cbv zeta in Hp.
  rewrite Hp. cbn [fst]. unfold job_handlers.
  destruct (job_body w root job initial) as [[[]|e0] l1]; cbn [fst].
  - split; [intros e H; discriminate|]. split; [intros e H; discriminate|discriminate].
  - destruct (is_Exception e0) eqn:He0.
    + unfold bind, emit, edit_message_text, bind, emit, call. cbn [fst snd].
      destruct (bot_edit w (failure_text job)) as [[]|e1]; cbn [fst].
      * split; [intros e H; discriminate|]. split; [reflexivity|].
        intros H. injection H as ->. discriminate.
      * split; [|split].
        -- intros e H. injection H as ->. right. split; [reflexivity|]. eauto.
        -- intros e H _ Hb. discriminate.
        -- intros H. injection H as ->. discriminate.
    + destruct e0; try discriminate. cbn [fst]. split; [|split].
      * intros e H. injection H as <-. left. split; reflexivity.
      * intros e H. injection H as <-. discriminate.
      * reflexivity.
Qed.

(** The download fails and the failure text is shown: the job ends
    by returning, so the loop goes on. *)
Lemma worker_survives_job_failure_witness :
  fst (process_job world_download_fails sample_root sample_job) = Returned tt.
Proof.
  apply (proj1 (proj2 (worker_survives_job_failure world_download_fails sample_root sample_job))
               OtherException); vm_compute; reflexivity.
Defined.

(** The handlers only add to the trace. *)
Lemma handlers_extend_trace w job (c : M unit) l :
  exists t, trace (snd (job_handlers w job c l)) = trace (snd (c l)) ++ t.
Proof.
  unfold job_handlers. destruct (c l) as [[u|e] l1]; cbn [snd];
    [exists []; rewrite app_nil_r; reflexivity|].
  destruct (is_Exception e); [|exists []; rewrite app_nil_r; reflexivity].
  unfold bind, emit, edit_message_text, bind, emit, call. cbn [fst snd].
  destruct (bot_edit w (failure_text job)); cbn [snd trace];
    rewrite <- app_assoc; eexists; reflexivity.
Qed.

(** The body of a job whose download returns no file. *)
Lemma empty_result_body w root sd job :
  bot_edit w (UI.italic "Starting download... 0%") = Returned tt ->
  ensure_session_dir w root = Returned sd ->
  download_urls w sd = Returned [] ->
  progress_task w = Returned tt \/ progress_task w = Raised CancelledError ->
  job_body w root job initial
  = (bot_edit w "Download finished, but the file was not found.",
     mkLocals (Some sd) false
              [Edit (UI.italic "Starting download... 0%"); Log "info" "Start job";
               Log "info" "Session dir"; Log "warning" "Job finished but no files found";
               Edit "Download finished, but the file was not found."]).
Proof.
  intros Hstart Hens Hdown Htask. unfold job_body.
  erewrite bind_return
    by (unfold edit_message_text, bind, emit, call; cbn [fst snd]; rewrite Hstart; reflexivity).
  cbv beta. erewrite bind_return by reflexivity.
  cbv beta. erewrite bind_return by (unfold call; rewrite Hens; reflexivity).
  cbv beta. erewrite bind_return by reflexivity.
  cbv beta. erewrite bind_return by reflexivity.
  cbv beta. erewrite bind_return
    by (unfold try_finally, suppress_cancelled, call; rewrite Hdown;
        destruct Htask as [-> | ->]; reflexivity).
  cbv beta iota. erewrite bind_return by reflexivity.
  cbv beta. unfold edit_message_text. erewrite bind_return by reflexivity.
  reflexivity.
Qed.

(** When the download returns no file, the job sends nothing, is not
    marked successful, deletes nothing and keeps its session
    directory, and the status message is edited to say that no file
    was found. *)
Theorem empty_result_keeps_session (w : world) (root sd : path) (job : Queue.DownloadJob) :
  bot_edit w (UI.italic "Starting download... 0%") = Returned tt ->
  ensure_session_dir w root = Returned sd ->
  download_urls w sd = Returned [] ->
  progress_task w = Returned tt \/ progress_task w = Raised CancelledError ->
  let l := snd (process_job w root job) in
  sent l = []
  /\ job_success l = false
  /\ deletes l = false
  /\ session_dir l = Some sd
  /\ renders "Download finished, but the file was not found." l = true.
Proof.
  intros Hstart Hens Hdown Htask l. subst l.
  pose proof (empty_result_body w root sd job Hstart Hens Hdown Htask) as Hb.
  destruct (WorkerProofs.process_job_unfold w root job) as [l' [Hf Hp]]. cbv zeta in Hf, Hp.
  destruct (WorkerProofs.job_handlers_locals w job (job_body w root job) initial) as [Hjs Hdir].
  destruct (handlers_extend_trace w job (job_body w root job) initial) as [t Htr].
  assert (Hu : untouched (snd (job_handlers w job (job_body w root job) initial))).
  { apply WorkerProofs.job_handlers_untouched;
      [apply WorkerProofs.job_body_untouched|reflexivity]. }
  destruct (WorkerProofs.job_finally_result w root
              (snd (job_handlers w job (job_body w root job) initial)))
    as [l'' [Hf' [_ [_ Hc]]]].
  rewrite Hf in Hf'. injection Hf' as <-.
  rewrite Hb in Hjs, Hdir, Htr. cbn [snd session_dir job_success trace] in Hjs, Hdir, Htr.
  assert (Hl : l' = snd (job_handlers w job (job_body w root job) initial)).
  { destruct Hc as [H|[H _]]; [exact H|congruence]. }
  destruct (process_job_keeps_delivery w root job) as [Hs _].
  rewrite Hb in Hs. cbn [snd] in Hs.
  cbn [session_dir job_success trace] in Hjs, Hdir, Htr.
  rewrite Hp in *. cbn [snd] in *. rewrite Hl.
  split; [rewrite <- Hl, Hs; reflexivity|].
  split; [exact Hjs|]. split; [exact Hu|]. split; [exact Hdir|].
  unfold renders. rewrite Htr, existsb_app. apply orb_true_iff. left. reflexivity.
Qed.

(** A download that returns no file: the session directory stays. *)
Lemma empty_result_keeps_session_witness :
  deletes (snd (process_job world_no_files sample_root sample_job)) = false.
Proof.
  destruct (empty_result_keeps_session world_no_files sample_root sample_session sample_job)
    as (_ & _ & H & _).
  - reflexivity.
  - reflexivity.
  - reflexivity.
  - right. reflexivity.
  - exact H.
Defined.

End DeliveryProofs.

(* ===================================================================== *)
(** * Further properties: the inline keyboards                           *)
(* ===================================================================== *)

Module KeyboardsProofs.
Import Py Keyboards.

Lemma clamp_page_idem (page count : Z) :
  clamp_page (clamp_page page count) count = clamp_page page count.
Proof. unfold clamp_page. lia. Qed.

Lemma slice_length {A : Type} (l : list A) (start stop : Z) :
  0 <= start -> 0 <= stop ->
  (length (slice l start stop) <= Z.to_nat (stop - start))%nat.
Proof.
  intros Hs Ht. unfold slice. cbv zeta. rewrite length_firstn.
  destruct (Z.ltb_spec start 0); [lia|].
  destruct (Z.ltb_spec stop 0); lia.
Qed.

(** For a page size other than zero the playlist keyboard is built
    for every requested page number, however stale or far out of
    range: it is the keyboard of the nearest existing page. With a
    positive page size it shows at most [page_size] entries, followed
    by one navigation row. A page size of zero makes it fail. *)
Theorem page_request_is_clamped (token : string) (pending : State.PendingSelection)
        (page page_size : Z) :
  (page_size <> 0 ->
   let count := page_count (Z.of_nat (length (State.playlist_entries pending))) page_size in
   playlist_page_keyboard token pending page page_size
   = playlist_page_keyboard token pending (clamp_page page count) page_size
   /\ 0 <= clamp_page page count <= count - 1
   /\ exists rows,
       playlist_page_keyboard token pending page page_size
       = Some (rows ++ [nav_row token (clamp_page page count) count])
       /\ (0 < page_size -> (length rows <= Z.to_nat page_size)%nat))
  /\ (page_size = 0 -> playlist_page_keyboard token pending page page_size = None).
Proof.
  split.
  - intros Hps count. unfold playlist_page_keyboard.
    apply Z.eqb_neq in Hps. rewrite Hps. fold count. rewrite clamp_page_idem.
    assert (Hcount : 1 <= count) by (unfold count, page_count; apply Z.le_max_l).
    assert (Hclamp : 0 <= clamp_page page count <= count - 1).
    { clearbody count. unfold clamp_page. lia. }
    split; [reflexivity|]. split; [exact Hclamp|].
    eexists. split; [reflexivity|].
    intros Hpos. rewrite length_map.
    etransitivity; [apply slice_length; nia|].
    generalize (clamp_page page count * page_size). intros start. lia.
  - intros ->. reflexivity.
Qed.

(** The sample playlist of two entries, one entry per page: page 7
    does not exist, and the keyboard shown is the one of page 1. *)
Lemma page_request_is_clamped_witness :
  playlist_page_keyboard "a1b2c3d4e5f60718" Handlers.sample_pending 7 1
  = playlist_page_keyboard "a1b2c3d4e5f60718" Handlers.sample_pending 1 1.
Proof.
  destruct (proj1 (page_request_is_clamped "a1b2c3d4e5f60718" Handlers.sample_pending 7 1))
    as [H _]; [discriminate|].
  exact H.
Defined.

(** ** The pages cover the playlist *)

Lemma chunks_cover {A : Type} (size : nat) (l : list A) (n : nat) :
  (0 < size)%nat ->
  (length l <= n * size)%nat ->
  concat (map (fun p => firstn size (skipn (p * size) l)) (seq 0 n)) = l.
Proof.
  intros Hsize. revert l. induction n as [|n IH]; intros l Hlen.
  - destruct l; [reflexivity|simpl in Hlen; lia].
  - cbn [seq map concat]. rewrite <- seq_shift, map_map.
    transitivity (firstn size l ++ skipn size l); [|apply firstn_skipn].
    cbn [Nat.mul skipn]. f_equal.
    rewrite <- (IH (skipn size l)) by (rewrite length_skipn; lia).
    f_equal. apply map_ext. intros p.
    rewrite skipn_skipn. do 2 f_equal. lia.
Qed.

Lemma slice_page {A : Type} (l : list A) (p size : nat) :
  (0 < size)%nat ->
  (p * size <= length l)%nat ->
  slice l (Z.of_nat p * Z.of_nat size)
        (Z.min (Z.of_nat (length l)) (Z.of_nat p * Z.of_nat size + Z.of_nat size))
  = firstn size (skipn (p * size) l).
Proof.
  intros Hsize Hp. unfold slice.
  destruct (Z.ltb_spec (Z.of_nat p * Z.of_nat size) 0) as [|_]; [lia|].
  destruct (Z.ltb_spec (Z.min (Z.of_nat (length l))
                              (Z.of_nat p * Z.of_nat size + Z.of_nat size)) 0) as [|_]; [lia|].
  replace (Z.to_nat (Z.min (Z.of_nat p * Z.of_nat size) (Z.of_nat (length l))))
    with (p * size)%nat by lia.
  destruct (Nat.le_gt_cases (p * size + size) (length l)) as [Hfull|Hpart].
  - f_equal. lia.
  - replace (Z.to_nat _) with (length l - p * size)%nat by lia.
    rewrite !firstn_all2; [reflexivity|rewrite length_skipn; lia|rewrite length_skipn; lia].
Qed.

Lemma removelast_snoc {A : Type} (l : list A) (x : A) : removelast (l ++ [x]) = l.
Proof. apply removelast_last. Qed.

(** With a positive page size, the entry rows of the pages
    0 .. page_count - 1, taken one page after the other, are the rows
    of all the playlist entries in playlist order: every entry is
    offered on exactly one page. *)
Theorem pages_cover_playlist (token : string) (pending : State.PendingSelection)
        (page_size : Z) :
  0 < page_size ->
  let count := page_count (Z.of_nat (length (State.playlist_entries pending))) page_size in
  concat (map (fun p : nat =>
                 entry_rows (playlist_page_keyboard token pending (Z.of_nat p) page_size))
              (seq 0 (Z.to_nat count)))
  = map (entry_row token pending) (State.playlist_entries pending).
Proof.
  intros Hps count.
  set (entries := State.playlist_entries pending) in *.
  set (size := Z.to_nat page_size).
  assert (Hsize : (0 < size)%nat) by (unfold size; lia).
  assert (Hps' : page_size = Z.of_nat size) by (unfold size; lia).
  assert (Hdiv : (Z.of_nat (length entries) + page_size - 1) / page_size * page_size
                 <= Z.of_nat (length entries) + page_size - 1).
  { rewrite Z.mul_comm. apply Z.mul_div_le. lia. }
  assert (Hdiv' : Z.of_nat (length entries) + page_size - 1
                  < ((Z.of_nat (length entries) + page_size - 1) / page_size + 1) * page_size).
  { pose proof (Z.mod_pos_bound (Z.of_nat (length entries) + page_size - 1) page_size Hps).
    pose proof (Z.div_mod (Z.of_nat (length entries) + page_size - 1) page_size). nia. }
  assert (Hcover : (length entries <= Z.to_nat count * size)%nat).
  { unfold count, page_count. nia. }
  transitivity (map (entry_row token pending)
                    (concat (map (fun p => firstn size (skipn (p * size) entries))
                                 (seq 0 (Z.to_nat count)))));
    [|f_equal; apply (chunks_cover size entries (Z.to_nat count) Hsize Hcover)].
  rewrite concat_map, map_map. f_equal.
  apply map_ext_in. intros p Hp. apply in_seq in Hp.
  unfold playlist_page_keyboard. fold entries. fold count.
  destruct (Z.eqb_spec page_size 0); [lia|].
  cbn [entry_rows]. rewrite removelast_snoc. f_equal.
  assert (Hclamp : clamp_page (Z.of_nat p) count = Z.of_nat p) by (unfold clamp_page; lia).
  rewrite Hclamp, Hps'. apply slice_page; [exact Hsize|].
  destruct (Nat.le_gt_cases (p * size) (length entries)) as [H|H]; [exact H|].
  exfalso. unfold count, page_count in Hp. nia.
Qed.

(** The sample playlist of two entries, one entry per page. *)
Lemma pages_cover_playlist_witness :
  concat (map (fun p : nat =>
                 entry_rows (playlist_page_keyboard "a1b2c3d4e5f60718" Handlers.sample_pending
                                                    (Z.of_nat p) 1))
              (seq 0 (Z.to_nat (page_count
                                  (Z.of_nat (length (State.playlist_entries
                                                       Handlers.sample_pending))) 1))))
  = map (entry_row "a1b2c3d4e5f60718" Handlers.sample_pending)
        (State.playlist_entries Handlers.sample_pending).
Proof.
  apply (pages_cover_playlist "a1b2c3d4e5f60718" Handlers.sample_pending 1). lia.
Defined.

End KeyboardsProofs.

(* ===================================================================== *)
(** * Further properties: from a keyboard button to the queue            *)
(* ===================================================================== *)

Module ClickProofs.
Import Py Handlers Keyboards.

Lemma cut_colon_app (a b : string) :
  colon_free a = true -> cut_colon (a ++ String ":" b) = Some (a, b).
Proof.
  induction a as [|c a IH]; intros H.
  - reflexivity.
  - cbn [colon_free] in H. apply andb_true_iff in H as [Hc Ha].
    apply negb_true_iff in Hc.
    change (cut_colon (String c a ++ String ":" b))
      with (if Ascii.eqb c ":"%char then Some (EmptyString, (a ++ String ":" b)%string)
            else match cut_colon (a ++ String ":" b) with
                 | Some (a', b') => Some (String c a', b')
                 | None => None
                 end).
    rewrite Hc, (IH Ha). reflexivity.
Qed.

Lemma split3_playlist_data (token action : string) :
  colon_free token = true ->
  split3 ("pl:" ++ token ++ ":" ++ action) = Some ("pl", token, action).
Proof.
  intros H. unfold split3.
  change ("pl:" ++ token ++ ":" ++ action)%string
    with ("pl" ++ String ":" (token ++ String ":" action))%string.
  rewrite (cut_colon_app "pl" _ eq_refl), (cut_colon_app token action H). reflexivity.
Qed.

Lemma split3_quality_data (token action : string) :
  colon_free token = true ->
  split3 ("q:" ++ token ++ ":" ++ action) = Some ("q", token, action).
Proof.
  intros H. unfold split3.
  change ("q:" ++ token ++ ":" ++ action)%string
    with ("q" ++ String ":" (token ++ String ":" action))%string.
  rewrite (cut_colon_app "q" _ eq_refl), (cut_colon_app token action H). reflexivity.
Qed.

Lemma validate_accepts (user : User) (msg : Message) (d : option string)
      (pending : State.PendingSelection) :
  id user = State.user_id pending ->
  chat_id msg = State.chat_id pending ->
  _validate_selection_owner (mkUpdate (Some (mkQuery (Some user) (Some msg) d))) pending = true.
Proof.
  intros Hu Hm. unfold _validate_selection_owner. cbn [callback_query from_user message].
  rewrite Hu, Hm, !Z.eqb_refl. reflexivity.
Qed.

Lemma first_sorted_singleton (idx : Z) : first_sorted {[idx]} = Some idx.
Proof. unfold first_sorted. rewrite elements_singleton. reflexivity. Qed.

(** What [enqueue_from_pending] does for a token whose selection is in
    the store and no older than the TTL. *)
Lemma enqueue_live (now : Q) (sv : services) (token : string)
      (pending : State.PendingSelection) (mid : Z) :
  State.pending (state sv) !! token = Some pending ->
  State.expired (state sv) now pending = false ->
  let playlist_items :=
    match State.playlist_entries pending with
    | [] => None
    | _ :: _ => Some (str_of_int (default 1 (first_sorted (State.selected_indices pending))))
    end in
  let job := Queue.mkJob (State.chat_id pending) (State.url pending) [State.url pending]
                         (State.selected_height pending) playlist_items mid in
  fst (enqueue_from_pending now sv token mid)
  = mkServices (State.mkState (delete token (State.pending (state sv)))
                              (State._ttl_sec (state sv)))
               (Queue.mkQueue (Queue.items (queue sv) ++ [job])) true.
Proof.
  intros Hl He. cbv zeta. unfold enqueue_from_pending, State.pop.
  rewrite Hl, He. reflexivity.
Qed.

Lemma slice_In {A : Type} (l : list A) (start stop : Z) (x : A) :
  In x (slice l start stop) -> In x l.
Proof.
  unfold slice. intros H. apply list_elem_of_In in H. apply list_elem_of_In.
  apply elem_of_take in H as [i [H _]]. rewrite lookup_drop in H.
  eapply list_elem_of_lookup_2. exact H.
Qed.

Lemma playlist_entry_action (s : string) :
  String.eqb (String "t" s) "noop" = false
  /\ String.eqb (String "t" s) "all" = false
  /\ String.eqb (String "t" s) "none" = false
  /\ String.eqb (String "t" s) "done" = false
  /\ startswith (String "t" s) "p" = false
  /\ startswith (String "t" s) "t" = true.
Proof. destruct s; repeat split; reflexivity. Qed.

Lemma playlist_page_action (s : string) :
  String.eqb (String "p" s) "noop" = false
  /\ String.eqb (String "p" s) "all" = false
  /\ String.eqb (String "p" s) "none" = false
  /\ String.eqb (String "p" s) "done" = false
  /\ startswith (String "p" s) "p" = true.
Proof. destruct s; repeat split; reflexivity. Qed.

Lemma quality_height_action (s : string) :
  String.eqb (String "h" s) "best" = false
  /\ startswith (String "h" s) "h" = true.
Proof. destruct s; repeat split; reflexivity. Qed.

Lemma assign_lookup (sv : services) (token : string) (p : State.PendingSelection) :
  State.pending (state (assign sv token p)) !! token = Some p.
Proof. unfold assign, with_state. cbn [state State.pending]. apply lookup_insert_eq. Qed.

Lemma assign_enqueue (later : Q) (sv : services) (token : string)
      (p p' : State.PendingSelection) (mid : Z) :
  State.expired (state sv) later p = false ->
  State.created_at p' = State.created_at p ->
  fst (enqueue_from_pending later (assign sv token p') token mid)
  = mkServices (State.mkState (delete token (State.pending (state sv)))
                              (State._ttl_sec (state sv)))
               (Queue.mkQueue
                  (Queue.items (queue sv)
                   ++ [Queue.mkJob (State.chat_id p') (State.url p') [State.url p']
                         (State.selected_height p')
                         match State.playlist_entries p' with
                         | [] => None
                         | _ :: _ =>
                             Some (str_of_int
                                     (default 1 (first_sorted (State.selected_indices p'))))
                         end mid])) true.
Proof.
  intros He Hc.
  rewrite (enqueue_live later (assign sv token p') token p' mid (assign_lookup sv token p')).
  - unfold assign, with_state. cbn [state queue State.pending State._ttl_sec].
    rewrite delete_insert_eq. reflexivity.
  - unfold State.expired in *. unfold assign, with_state.
    cbn [state State._ttl_sec]. rewrite Hc. exact He.
Qed.

Section Clicks.

Variable int_of_str : string -> option Z.
Variable page_size : Z.

(** What the owner's click on the button of a playlist entry does. *)
Lemma entry_click_result (now later : Q) (sv : services) (token : string)
        (pending : State.PendingSelection) (entry : State.PlaylistEntry)
        (button : InlineKeyboardButton) (user : User) (msg : Message) :
  colon_free token = true ->
  State.pending (state sv) !! token = Some pending ->
  State.expired (state sv) now pending = false ->
  State.expired (state sv) later pending = false ->
  In entry (State.playlist_entries pending) ->
  In button (entry_row token pending entry) ->
  (length (State.heights pending) < 2)%nat ->
  int_of_str (str_of_int (State.index entry)) = Some (State.index entry) ->
  id user = State.user_id pending ->
  chat_id msg = State.chat_id pending ->
  let update := mkUpdate (Some (mkQuery (Some user) (Some msg) (Some (callback_data button)))) in
  let r := on_playlist_callback int_of_str page_size now later sv update in
  fst (fst r)
  = mkServices (State.mkState (delete token (State.pending (state sv)))
                              (State._ttl_sec (state sv)))
               (Queue.mkQueue
                  (Queue.items (queue sv)
                   ++ [Queue.mkJob (State.chat_id pending) (State.url pending)
                         [State.url pending] (State.selected_height pending)
                         (Some (str_of_int (State.index entry))) (message_id msg)])) true
  /\ snd r = Done.
Proof.
  intros Htok Hlook Hnow Hlater Hentry Hbtn Hh Hint Hu Hm.
  unfold entry_row in Hbtn. destruct Hbtn as [<-|[]].
  cbv zeta. unfold on_playlist_callback. cbn [callback_query data callback_data].
  assert (Hs : split3 ("pl:" ++ token ++ ":t" ++ str_of_int (State.index entry))
               = Some ("pl", token, String "t" (str_of_int (State.index entry)))%string)
    by (apply (split3_playlist_data token (String "t" _) Htok)).
  rewrite Hs, (StateProofs.get_live _ _ _ _ Hlook Hnow), HandlersProofs.with_state_same.
  rewrite (validate_accepts user msg _ pending Hu Hm). cbn [negb].
  destruct (playlist_entry_action (str_of_int (State.index entry)))
    as (E1 & E2 & E3 & E4 & E5 & E6).
  rewrite E1, E2, E3, E4, E5, E6. cbn [orb tail1]. rewrite Hint.
  cbn [set_selected_indices State.heights].
  apply Nat.leb_gt in Hh. rewrite Hh.
  match goal with |- context [enqueue_from_pending later (assign sv token ?p') token ?mid] =>
    pose proof (assign_enqueue later sv token pending p' mid Hlater eq_refl) as Hq;
    destruct (enqueue_from_pending later (assign sv token p') token mid) as [sv' out]
  end.
  cbn [fst snd] in *. split; [|reflexivity]. rewrite Hq.
  cbn [set_selected_indices State.chat_id State.url State.selected_height
       State.playlist_entries State.selected_indices message_id_of message].
  rewrite first_sorted_singleton.
  destruct (State.playlist_entries pending); [destruct Hentry|reflexivity].
Qed.

(** The owner's click on the button of a playlist entry, while the
    selection is alive and fewer than two qualities are on offer,
    consumes the selection and appends exactly one job to the queue:
    the job for that entry, carrying the chat, the URL and the chosen
    quality of the selection and the clicked message as progress
    message. The token has to be free of colons, as the hexadecimal
    tokens are. *)
Theorem entry_button_enqueues_entry (now later : Q) (sv : services) (token : string)
        (pending : State.PendingSelection) (entry : State.PlaylistEntry)
        (button : InlineKeyboardButton) (user : User) (msg : Message) :
  colon_free token = true ->
  State.pending (state sv) !! token = Some pending ->
  State.expired (state sv) now pending = false ->
  State.expired (state sv) later pending = false ->
  In entry (State.playlist_entries pending) ->
  In button (entry_row token pending entry) ->
  (length (State.heights pending) < 2)%nat ->
  int_of_str (str_of_int (State.index entry)) = Some (State.index entry) ->
  id user = State.user_id pending ->
  chat_id msg = State.chat_id pending ->
  let update := mkUpdate (Some (mkQuery (Some user) (Some msg) (Some (callback_data button)))) in
  let r := on_playlist_callback int_of_str page_size now later sv update in
  fst (fst r)
  = mkServices (State.mkState (delete token (State.pending (state sv)))
                              (State._ttl_sec (state sv)))
               (Queue.mkQueue
                  (Queue.items (queue sv)
                   ++ [Queue.mkJob (State.chat_id pending) (State.url pending)
                         [State.url pending] (State.selected_height pending)
                         (Some (str_of_int (State.index entry))) (message_id msg)])) true
  /\ snd r = Done.
Proof.
  exact (entry_click_result now later sv token pending entry button user msg).
Qed.

(** The owner's click on any button of the quality keyboard, while the
    selection is alive, consumes the selection and appends exactly one
    job to the queue: its height limit is none for the first button
    and otherwise one of the first six heights on offer, and its
    playlist item is the smallest selected index, or 1 when a playlist
    has no selection. *)
Theorem quality_button_enqueues_height (now later : Q) (sv : services) (token : string)
        (pending : State.PendingSelection) (row : list InlineKeyboardButton)
        (button : InlineKeyboardButton) (user : User) (msg : Message) :
  colon_free token = true ->
  State.pending (state sv) !! token = Some pending ->
  State.expired (state sv) now pending = false ->
  State.expired (state sv) later pending = false ->
  In row (quality_keyboard token (State.heights pending)) ->
  In button row ->
  Forall (fun h => int_of_str (str_of_int h) = Some h) (State.heights pending) ->
  id user = State.user_id pending ->
  chat_id msg = State.chat_id pending ->
  let update := mkUpdate (Some (mkQuery (Some user) (Some msg) (Some (callback_data button)))) in
  let r := on_quality_callback int_of_str now later sv update in
  exists choice : option Z,
    (choice = None \/ exists h, choice = Some h /\ In h (slice (State.heights pending) 0 6))
    /\ fst (fst r)
       = mkServices (State.mkState (delete token (State.pending (state sv)))
                                   (State._ttl_sec (state sv)))
                    (Queue.mkQueue
                       (Queue.items (queue sv)
                        ++ [Queue.mkJob (State.chat_id pending) (State.url pending)
                              [State.url pending] choice
                              match State.playlist_entries pending with
                              | [] => None
                              | _ :: _ =>
                                  Some (str_of_int
                                          (default 1 (first_sorted
                                                        (State.selected_indices pending))))
                              end (message_id msg)])) true
    /\ snd r = Done.
Proof.
  intros Htok Hlook Hnow Hlater Hrow Hbtn Hint Hu Hm.
  unfold quality_keyboard in Hrow. destruct Hrow as [<-|Hrow].
  - destruct Hbtn as [<-|[]]. exists None. split; [left; reflexivity|].
    cbv zeta. unfold on_quality_callback. cbn [callback_query data callback_data].
    assert (Hs : split3 ("q:" ++ token ++ ":best") = Some ("q", token, "best")%string)
      by (apply (split3_quality_data token "best" Htok)).
    rewrite Hs, (StateProofs.get_live _ _ _ _ Hlook Hnow), HandlersProofs.with_state_same.
    rewrite (validate_accepts user msg _ pending Hu Hm). cbn [negb].
    change (String.eqb "best" "best") with true. cbv iota.
    match goal with |- context [enqueue_from_pending later (assign sv token ?p') token ?mid] =>
      pose proof (assign_enqueue later sv token pending p' mid Hlater eq_refl) as Hq;
      destruct (enqueue_from_pending later (assign sv token p') token mid) as [sv' out]
    end.
    cbn [fst snd] in *. split; [|reflexivity]. rewrite Hq. reflexivity.
  - apply in_map_iff in Hrow as [h [<- Hh]]. destruct Hbtn as [<-|[]].
    exists (Some h). split; [right; exists h; split; [reflexivity|exact Hh]|].
    assert (Hint' : int_of_str (str_of_int h) = Some h).
    { rewrite Forall_forall in Hint. apply Hint. apply list_elem_of_In.
      eapply slice_In. exact Hh. }
    cbv zeta. unfold on_quality_callback. cbn [callback_query data callback_data].
    assert (Hs : split3 ("q:" ++ token ++ ":h" ++ str_of_int h)
                 = Some ("q", token, String "h" (str_of_int h))%string)
      by (apply (split3_quality_data token (String "h" _) Htok)).
    rewrite Hs, (StateProofs.get_live _ _ _ _ Hlook Hnow), HandlersProofs.with_state_same.
    rewrite (validate_accepts user msg _ pending Hu Hm). cbn [negb].
    destruct (quality_height_action (str_of_int h)) as (E1 & E2).
    rewrite E1, E2. cbn [tail1]. rewrite Hint'.
    match goal with |- context [enqueue_from_pending later (assign sv token ?p') token ?mid] =>
      pose proof (assign_enqueue later sv token pending p' mid Hlater eq_refl) as Hq;
      destruct (enqueue_from_pending later (assign sv token p') token mid) as [sv' out]
    end.
    cbn [fst snd] in *. split; [|reflexivity]. rewrite Hq. reflexivity.
Qed.

(** The owner's click on a button of the navigation row of the
    keyboard of an existing page, with a page size other than zero,
    changes neither the store nor the queue. The page counter in the
    middle asks for nothing; an arrow replaces the keyboard by the one
    of the previous or the next page, which is again an existing page
    and so is shown as asked, without clamping. *)
Theorem nav_button_stays_in_range (now later : Q) (sv : services) (token : string)
        (pending : State.PendingSelection) (page : Z)
        (button : InlineKeyboardButton) (user : User) (msg : Message) :
  let count := page_count (Z.of_nat (length (State.playlist_entries pending))) page_size in
  page_size <> 0 ->
  colon_free token = true ->
  State.pending (state sv) !! token = Some pending ->
  State.expired (state sv) now pending = false ->
  0 <= page <= count - 1 ->
  In button (nav_row token page count) ->
  int_of_str (str_of_int (page - 1)) = Some (page - 1) ->
  int_of_str (str_of_int (page + 1)) = Some (page + 1) ->
  id user = State.user_id pending ->
  chat_id msg = State.chat_id pending ->
  let update := mkUpdate (Some (mkQuery (Some user) (Some msg) (Some (callback_data button)))) in
  let r := on_playlist_callback int_of_str page_size now later sv update in
  fst (fst r) = sv
  /\ snd r = Done
  /\ (snd (fst r) = [Answer None false]
      \/ exists page' markup,
          0 <= page' <= count - 1
          /\ (page' = page - 1 \/ page' = page + 1)
          /\ clamp_page page' count = page'
          /\ playlist_page_keyboard token pending page' page_size = Some markup
          /\ snd (fst r) = [Answer None false; EditMarkup markup]).
Proof.
  intros count Hps Htok Hlook Hnow Hpage Hbtn Hprev Hnext Hu Hm.
  assert (Hpage_button : forall page', 0 <= page' <= count - 1 ->
            (page' = page - 1 \/ page' = page + 1) ->
            let update := mkUpdate (Some (mkQuery (Some user) (Some msg)
                            (Some ("pl:" ++ token ++ ":p" ++ str_of_int page')%string))) in
            let r := on_playlist_callback int_of_str page_size now later sv update in
            fst (fst r) = sv /\ snd r = Done
            /\ exists markup,
                playlist_page_keyboard token pending page' page_size = Some markup
                /\ snd (fst r) = [Answer None false; EditMarkup markup]).
  { intros page' Hrange Hwhich. cbv zeta. unfold on_playlist_callback.
    cbn [callback_query data].
    assert (Hs : split3 ("pl:" ++ token ++ ":p" ++ str_of_int page')
                 = Some ("pl", token, String "p" (str_of_int page'))%string)
      by (apply (split3_playlist_data token (String "p" _) Htok)).
    rewrite Hs, (StateProofs.get_live _ _ _ _ Hlook Hnow), HandlersProofs.with_state_same.
    rewrite (validate_accepts user msg _ pending Hu Hm). cbn [negb].
    destruct (playlist_page_action (str_of_int page')) as (E1 & E2 & E3 & E4 & E5).
    rewrite E1, E2, E3, E4, E5. cbn [orb tail1].
    assert (Hint : int_of_str (str_of_int page') = Some page')
      by (destruct Hwhich as [->| ->]; assumption).
    rewrite Hint.
    destruct (playlist_page_keyboard token pending page' page_size) as [markup|] eqn:Hk.
    - split; [reflexivity|]. split; [reflexivity|]. exists markup. split; reflexivity.
    - exfalso. unfold playlist_page_keyboard in Hk.
      apply Z.eqb_neq in Hps. rewrite Hps in Hk. discriminate. }
  unfold nav_row in Hbtn. rewrite !in_app_iff in Hbtn.
  destruct Hbtn as [Hb|[Hb|Hb]].
  - destruct (Z.ltb_spec 0 page); [|destruct Hb]. destruct Hb as [<-|[]].
    cbn [callback_data].
    destruct (Hpage_button (page - 1)) as (R1 & R2 & markup & R3 & R4);
      [lia|left; reflexivity|].
    split; [exact R1|]. split; [exact R2|].
    right. exists (page - 1), markup. split; [lia|]. split; [left; reflexivity|].
    split; [unfold clamp_page; lia|]. split; [exact R3|exact R4].
  - destruct Hb as [<-|[]]. cbv zeta. unfold on_playlist_callback.
    cbn [callback_query data callback_data].
    assert (Hs : split3 ("pl:" ++ token ++ ":noop") = Some ("pl", token, "noop")%string)
      by (apply (split3_playlist_data token "noop" Htok)).
    rewrite Hs, (StateProofs.get_live _ _ _ _ Hlook Hnow), HandlersProofs.with_state_same.
    rewrite (validate_accepts user msg _ pending Hu Hm). cbn [negb].
    change (String.eqb "noop" "noop") with true. cbv iota.
    split; [reflexivity|]. split; [reflexivity|]. left. reflexivity.
  - destruct (Z.ltb_spec page (count - 1)); [|destruct Hb]. destruct Hb as [<-|[]].
    cbn [callback_data].
    destruct (Hpage_button (page + 1)) as (R1 & R2 & markup & R3 & R4);
      [lia|right; reflexivity|].
    split; [exact R1|]. split; [exact R2|].
    right. exists (page + 1), markup. split; [lia|]. split; [right; reflexivity|].
    split; [unfold clamp_page; lia|]. split; [exact R3|exact R4].
Qed.

End Clicks.

(** Entry 2 of the sample playlist, clicked by its owner, user 42. *)
Lemma entry_button_enqueues_entry_witness :
  Queue.items (queue (fst (fst (on_playlist_callback int_of_digits 8 200 201 sample_services
                                  (click_entry_2 42)))))
  = [Queue.mkJob 7 "http://x/list" ["http://x/list"] None (Some "2") 11].
Proof.
  pose proof (entry_button_enqueues_entry int_of_digits 8 200 201 sample_services
                "a1b2c3d4e5f60718" sample_pending
                (State.mkEntry 2 "two" "http://x/2" None)
                (mkButton (white_circle ++ " 2. two") "pl:a1b2c3d4e5f60718:t2")
                (mkUser 42) (mkMessage 7 11)) as H.
  destruct H as [H _].
  - reflexivity.
  - reflexivity.
  - reflexivity.
  - reflexivity.
  - right. left. reflexivity.
  - left. reflexivity.
  - cbn. lia.
  - reflexivity.
  - reflexivity.
  - reflexivity.
  - change (click_entry_2 42)
      with (mkUpdate (Some (mkQuery (Some (mkUser 42)) (Some (mkMessage 7 11))
                              (Some "pl:a1b2c3d4e5f60718:t2")))).
    cbn [callback_data] in H. rewrite H. reflexivity.
Defined.


(** The button of 720p on the sample selection, clicked by its owner. *)
Lemma quality_button_enqueues_height_witness :
  snd (on_quality_callback int_of_digits 200 201 sample_services
         (mkUpdate (Some (mkQuery (Some (mkUser 42)) (Some (mkMessage 7 11))
                            (Some "q:a1b2c3d4e5f60718:h720")))))
  = Done.
Proof.
  destruct (quality_button_enqueues_height int_of_digits 200 201 sample_services
              "a1b2c3d4e5f60718" sample_pending
              [mkButton "Up to 720p" "q:a1b2c3d4e5f60718:h720"]
              (mkButton "Up to 720p" "q:a1b2c3d4e5f60718:h720")
              (mkUser 42) (mkMessage 7 11)) as [choice [_ [_ H]]].
  - reflexivity.
  - reflexivity.
  - reflexivity.
  - reflexivity.
  - right. left. reflexivity.
  - left. reflexivity.
  - constructor; [reflexivity|constructor].
  - reflexivity.
  - reflexivity.
  - exact H.
Defined.

(** The arrow to page 2 on the first of two pages of the sample
    playlist, shown one entry per page, clicked by its owner. *)
Lemma nav_button_stays_in_range_witness :
  fst (fst (on_playlist_callback int_of_digits 1 200 201 sample_services
              (mkUpdate (Some (mkQuery (Some (mkUser 42)) (Some (mkMessage 7 11))
                                 (Some "pl:a1b2c3d4e5f60718:p1"))))))
  = sample_services.
Proof.
  destruct (nav_button_stays_in_range int_of_digits 1 200 201 sample_services
              "a1b2c3d4e5f60718" sample_pending 0
              (mkButton right_arrow "pl:a1b2c3d4e5f60718:p1")
              (mkUser 42) (mkMessage 7 11)) as [H _].
  - discriminate.
  - reflexivity.
  - reflexivity.
  - reflexivity.
  - vm_compute. split; discriminate.
  - right. left. reflexivity.
  - reflexivity.
  - reflexivity.
  - reflexivity.
  - reflexivity.
  - exact H.
Defined.

End ClickProofs.

(* ===================================================================== *)
(** * Further properties: the dotenv loader                              *)
(* ===================================================================== *)

Module ConfigProofs.
Import Py Config Text.

Lemma load_line_keeps (environ : gmap string string) (line k v : string) :
  environ !! k = Some v -> load_line environ line !! k = Some v.
Proof.
  intros H. unfold load_line. cbv zeta.
  destruct (_ || _); [exact H|].
  destruct (cut_equals _) as [[key value]|]; [|exact H].
  destruct (String.eqb _ _); [exact H|].
  destruct (environ !! strip key) eqn:Hk; [exact H|].
  rewrite lookup_insert_ne; [exact H|]. intros E. rewrite E in Hk. congruence.
Qed.




(** ** Loading the same file again *)

Lemma load_line_dom (environ : gmap string string) (line : string) :
  dom environ ⊆ dom (load_line environ line).
Proof.
  intros k Hk. apply elem_of_dom in Hk as [v Hv]. apply elem_of_dom.
  exists v. apply load_line_keeps, Hv.
Qed.

Lemma load_lines_dom (lines : list string) (environ : gmap string string) :
  dom environ ⊆ dom (fold_left load_line lines environ).
Proof.
  revert environ. induction lines as [|line lines IH]; intros environ; [reflexivity|].
  cbn [fold_left]. etransitivity; [apply load_line_dom|apply IH].
Qed.

Lemma load_line_stable (e E : gmap string string) (line : string) :
  dom (load_line e line) ⊆ dom E -> load_line E line = E.
Proof.
  unfold load_line. cbv zeta.
  destruct (_ || _); [reflexivity|].
  destruct (cut_equals _) as [[key value]|]; [|reflexivity].
  destruct (String.eqb _ _); [reflexivity|].
  intros H.
  assert (Hin : strip key ∈ dom E).
  { apply H. destruct (e !! strip key) eqn:Hk.
    - apply elem_of_dom. eauto.
    - apply elem_of_dom. rewrite lookup_insert_eq. eauto. }
  apply elem_of_dom in Hin as [v Hv]. rewrite Hv. reflexivity.
Qed.

Lemma load_lines_stable (lines : list string) (e E : gmap string string) :
  dom (fold_left load_line lines e) ⊆ dom E -> fold_left load_line lines E = E.
Proof.
  revert e. induction lines as [|line lines IH]; intros e H; [reflexivity|].
  cbn [fold_left] in *.
  rewrite (load_line_stable e E line).
  - apply (IH (load_line e line)), H.
  - etransitivity; [apply load_lines_dom|exact H].
Qed.

(** Loading a file a second time changes nothing: every name the file
    can set is set after the first pass. *)
Theorem dotenv_reload_changes_nothing (file : option (list string))
        (environ : gmap string string) :
  load_dotenv file (load_dotenv file environ) = load_dotenv file environ.
Proof.
  destruct file as [lines|]; [|reflexivity]. cbn [load_dotenv].
  apply (load_lines_stable lines environ). reflexivity.
Qed.

(** ** Quoted values *)

Lemma append_cons (c : ascii) (a b : string) :
  (String c a ++ b)%string = String c (a ++ b).
Proof. reflexivity. Qed.

Lemma string_app_assoc (a b c : string) : ((a ++ b) ++ c = a ++ b ++ c)%string.
Proof. induction a as [|x a IH]; [reflexivity|]. rewrite !append_cons, IH. reflexivity. Qed.

Lemma list_of_string_app (a b : string) :
  list_ascii_of_string (a ++ b) = list_ascii_of_string a ++ list_ascii_of_string b.
Proof.
  induction a as [|c a IH]; [reflexivity|].
  rewrite append_cons. cbn [list_ascii_of_string app]. rewrite IH. reflexivity.
Qed.

Lemma string_of_list_app (a b : list ascii) :
  string_of_list_ascii (a ++ b)
  = (string_of_list_ascii a ++ string_of_list_ascii b)%string.
Proof.
  induction a as [|c a IH]; [reflexivity|].
  cbn [string_of_list_ascii app]. rewrite IH. reflexivity.
Qed.

Lemma rev_string_app (a b : string) :
  rev_string (a ++ b) = (rev_string b ++ rev_string a)%string.
Proof.
  unfold rev_string. rewrite list_of_string_app, rev_app_distr, string_of_list_app.
  reflexivity.
Qed.

Lemma rev_string_involutive (s : string) : rev_string (rev_string s) = s.
Proof.
  unfold rev_string.
  rewrite list_ascii_of_string_of_list_ascii, rev_involutive.
  apply string_of_list_ascii_of_string.
Qed.

Lemma rev_string_cons (c : ascii) (s : string) :
  rev_string (String c s) = (rev_string s ++ String c "")%string.
Proof. apply (rev_string_app (String c "") s). Qed.

Lemma rev_string_forall (f : ascii -> bool) (s : string) :
  string_forall f (rev_string s) = string_forall f s.
Proof.
  induction s as [|c s IH]; [reflexivity|].
  rewrite rev_string_cons, UIProofs.string_forall_app, IH.
  cbn [string_forall]. rewrite andb_true_r. apply andb_comm.
Qed.

Lemma lstrip_from_pad (back : bool) (pad s : string) :
  string_forall isspace pad = true -> lstrip_from back (pad ++ s) = lstrip_from back s.
Proof.
  induction pad as [|c pad IH]; intros H; [reflexivity|].
  cbn [string_forall] in H. apply andb_true_iff in H as [Hc Hp].
  rewrite append_cons. cbn [lstrip_from]. rewrite Hc. apply IH, Hp.
Qed.

(** A quote is no white space and no byte of a white-space character. *)
Lemma quote_is_no_space (q : ascii) :
  q = double_quote \/ q = single_quote ->
  isspace q = false
  /\ (forall c, isspace2 q c = false /\ isspace2 c q = false)
  /\ (forall c d, isspace3 q c d = false /\ isspace3 c d q = false).
Proof.
  intros [->| ->]; (split; [reflexivity|]); split; intros; split;
    try reflexivity;
    unfold isspace2, isspace3; cbv zeta;
    change (nat_of_ascii double_quote) with 34%nat;
    change (nat_of_ascii single_quote) with 39%nat;
    cbn [Nat.eqb Nat.leb andb orb];
    rewrite ?andb_false_r; reflexivity.
Qed.

Lemma lstrip_from_quote (back : bool) (q : ascii) (rest : string) :
  q = double_quote \/ q = single_quote ->
  lstrip_from back (String q rest) = String q rest.
Proof.
  intros Hq. destruct (quote_is_no_space q Hq) as (H1 & H2 & H3).
  cbn [lstrip_from]. rewrite H1.
  destruct rest as [|c2 rest]; [reflexivity|].
  destruct (H2 c2) as [H2a H2b]. rewrite H2a, H2b.
  destruct rest as [|c3 rest]; [destruct back; reflexivity|].
  destruct (H3 c2 c3) as [H3a _]. destruct (H3 c3 c2) as [_ H3b]. rewrite H3a, H3b.
  destruct back; reflexivity.
Qed.

Lemma strip_padded (left right v : string) (q : ascii) :
  q = double_quote \/ q = single_quote ->
  string_forall isspace left = true ->
  string_forall isspace right = true ->
  strip (left ++ String q (v ++ String q right)) = String q (v ++ String q "").
Proof.
  intros Hq Hl Hr. unfold strip, lstrip, rstrip.
  rewrite (lstrip_from_pad false left _ Hl), (lstrip_from_quote false q _ Hq).
  assert (Hrev : rev_string (String q (v ++ String q right))
                 = (rev_string right ++ String q (rev_string (String q v)))%string).
  { change (String q (v ++ String q right))
      with (String q v ++ (String q "" ++ right))%string.
    rewrite (rev_string_app (String q v)), (rev_string_app (String q "") right).
    rewrite string_app_assoc. reflexivity. }
  rewrite Hrev, lstrip_from_pad by (rewrite rev_string_forall; exact Hr).
  rewrite (lstrip_from_quote true q _ Hq).
  rewrite rev_string_cons, rev_string_involutive. reflexivity.
Qed.

Lemma last_char_snoc (v : string) (c : ascii) : last_char (v ++ String c "") = Some c.
Proof.
  induction v as [|x v IH]; [reflexivity|].
  rewrite append_cons. cbn [last_char]. rewrite IH.
  destruct v; reflexivity.
Qed.

Lemma drop_last_snoc (v : string) (c : ascii) : drop_last (v ++ String c "") = v.
Proof.
  induction v as [|x v IH]; [reflexivity|].
  rewrite append_cons. cbn [drop_last]. rewrite IH.
  destruct v; reflexivity.
Qed.

(** A value written between a pair of double quotes or a pair of
    single quotes, with any white space around the quotes, is read as
    the text between the quotes, its own white space and quotes
    included: one pair is removed, and no more. *)
Theorem quoted_value_is_unwrapped (q : ascii) (left right v : string) :
  q = double_quote \/ q = single_quote ->
  string_forall isspace left = true ->
  string_forall isspace right = true ->
  _strip_quotes (left ++ String q (v ++ String q right)) = v.
Proof.
  intros Hq Hl Hr. unfold _strip_quotes. cbv zeta.
  rewrite (strip_padded left right v q Hq Hl Hr).
  rewrite last_char_snoc, drop_last_snoc.
  rewrite (proj2 (Ascii.eqb_eq q q) eq_refl).
  destruct Hq as [->| ->]; reflexivity.
Qed.

(** The value [ "a 'b' " ] with a blank on either side. *)
Lemma quoted_value_is_unwrapped_witness :
  _strip_quotes (" " ++ String double_quote ("a 'b' " ++ String double_quote " "))
  = "a 'b' ".
Proof.
  apply (quoted_value_is_unwrapped double_quote " " " " "a 'b' ").
  - left. reflexivity.
  - reflexivity.
  - reflexivity.
Defined.

End ConfigProofs.

(* ===================================================================== *)
(** * Further properties: the heights on offer                           *)
(* ===================================================================== *)

Module ProbeProofs.
Import Py Probe.

Lemma sorted_nodup_strict (l : list Z) :
  StronglySorted Z.le l -> NoDup l -> StronglySorted Z.lt l.
Proof.
  induction 1 as [|x l Hs IH Hall]; intros Hnd; [constructor|].
  apply NoDup_cons in Hnd as [Hx Hnd]. constructor; [apply IH, Hnd|].
  rewrite Forall_forall in *. intros y Hy.
  specialize (Hall y Hy). destruct (Z.eq_dec x y) as [->|Hne]; [contradiction|lia].
Qed.

Lemma sorted_snoc {A : Type} (R : A -> A -> Prop) (l : list A) (x : A) :
  StronglySorted R l -> Forall (fun y => R y x) l -> StronglySorted R (l ++ [x]).
Proof.
  induction 1 as [|y l Hs IH Hall]; intros Hx; cbn [app].
  - repeat constructor.
  - apply Forall_cons in Hx as [Hy Hx]. constructor; [apply IH, Hx|].
    apply Forall_app. split; [exact Hall|]. repeat constructor. exact Hy.
Qed.

Lemma strict_reverse (l : list Z) :
  StronglySorted Z.lt l -> StronglySorted Z.gt (reverse l).
Proof.
  induction 1 as [|x l Hs IH Hall]; [constructor|].
  rewrite reverse_cons. apply sorted_snoc; [exact IH|].
  apply Forall_reverse. eapply Forall_impl; [exact Hall|].
  intros y Hy. cbv beta in Hy. lia.
Qed.

Lemma video_height_positive (fmt : option format) (h : Z) :
  video_height fmt = Some h -> 0 < h.
Proof.
  unfold video_height. destruct fmt as [fmt|]; [|discriminate].
  destruct (as_int (height fmt)) as [z|]; [|discriminate].
  destruct (Z.ltb_spec 0 z); cbn [andb]; [|discriminate].
  destruct (_ && _); [|discriminate]. intros [= <-]. assumption.
Qed.

Lemma available_heights_elem (formats : list (option format)) (h : Z) :
  h ∈ available_heights formats
  <-> exists fmt, fmt ∈ formats /\ video_height fmt = Some h.
Proof.
  unfold available_heights, sorted_desc.
  rewrite elem_of_reverse, merge_sort_Permutation, elem_of_elements,
    elem_of_list_to_set, list_elem_of_omap.
  reflexivity.
Qed.

(** The heights on offer are the heights of the formats that carry a
    picture: every positive integer height of a format whose video
    codec is given and is not "none", and nothing else. Each is listed
    once, the tallest first; elements of [formats] that are no
    dictionaries are passed over. *)
Theorem heights_descend_without_repeats (formats : list (option format)) :
  StronglySorted Z.gt (available_heights formats)
  /\ (forall h : Z,
         In h (available_heights formats)
         <-> exists fmt, In fmt formats /\ video_height fmt = Some h)
  /\ Forall (fun h => 0 < h) (available_heights formats).
Proof.
  split; [|split].
  - unfold available_heights, sorted_desc. apply strict_reverse, sorted_nodup_strict.
    + apply StronglySorted_merge_sort; apply _.
    + rewrite merge_sort_Permutation. apply NoDup_elements.
  - intros h. rewrite <- list_elem_of_In, available_heights_elem.
    split; intros [fmt [Hin Hv]]; exists fmt; (split; [|exact Hv]).
    + apply list_elem_of_In, Hin.
    + apply list_elem_of_In, Hin.
  - apply Forall_forall. intros h Hh.
    apply available_heights_elem in Hh as [fmt [_ Hv]].
    exact (video_height_positive fmt h Hv).
Qed.

End ProbeProofs.

(* ===================================================================== *)
(** * Further properties: from a submitted link to the queue             *)
(* ===================================================================== *)

Module SubmissionProofs.
Import Py Submission.

Lemma probe_of_valid (extract : string -> ProbeResult) (url : string) :
  Probe.is_valid_url url = true -> probe_url extract url = extract url.
Proof. intros H. unfold probe_url. rewrite H. reflexivity. Qed.

Lemma probe_of_invalid (extract : string -> ProbeResult) (url : string) :
  Probe.is_valid_url url = false -> supported (probe_url extract url) = false.
Proof. intros H. unfold probe_url. rewrite H. reflexivity. Qed.

(** A message whose text is no http or https link, or a link yt-dlp
    does not support, or any message while ffmpeg is missing, changes
    neither the store nor the queue and starts no worker; no keyboard
    is shown. *)
Theorem unusable_link_changes_nothing (e : env) (sv : Handlers.services)
        (update : Update) (msg : Message) (t : string) :
  message update = Some msg ->
  text msg = Some t ->
  find_ffmpeg e = false
  \/ Probe.is_valid_url (strip t) = false
  \/ supported (extract e (strip t)) = false ->
  fst (fst (on_text_url e sv update)) = sv
  /\ shown (snd (fst (on_text_url e sv update))) = None.
Proof.
  intros Hm Ht H. unfold on_text_url. rewrite Hm, Ht. cbv zeta.
  destruct (from_user msg) as [user|]; [|split; reflexivity].
  destruct (find_ffmpeg e) eqn:Hf; cbn [negb]; [|split; reflexivity].
  assert (Hs : supported (probe_url (extract e) (strip t)) = false).
  { destruct H as [H|[H|H]]; [discriminate| |].
    - apply probe_of_invalid, H.
    - destruct (Probe.is_valid_url (strip t)) eqn:Hv.
      + rewrite (probe_of_valid _ _ Hv). exact H.
      + apply probe_of_invalid, Hv. }
  rewrite Hs. split; reflexivity.
Qed.

(** A link with another scheme. *)
Lemma unusable_link_changes_nothing_witness :
  fst (fst (on_text_url sample_env empty_services
              (mkUpdate (Some (mkMessage 7 (Some (Handlers.mkUser 42)) (Some "ftp://x/a"))))))
  = empty_services.
Proof.
  destruct (unusable_link_changes_nothing sample_env empty_services
              (mkUpdate (Some (mkMessage 7 (Some (Handlers.mkUser 42)) (Some "ftp://x/a"))))
              (mkMessage 7 (Some (Handlers.mkUser 42)) (Some "ftp://x/a")) "ftp://x/a")
    as [H _].
  - reflexivity.
  - reflexivity.
  - right. left. reflexivity.
  - exact H.
Defined.

(** A supported link with at most one file and fewer than two
    qualities is enqueued at once, provided the selection has not
    outlived the TTL by the time it is popped: exactly one job is
    appended, for the chat of the message and the stripped text, with
    no height limit, with the status message as progress message, and
    with playlist item "1" exactly when a playlist entry was found.
    The token drawn for it is gone from the store afterwards, which
    is left as it was when the token was new. *)
Theorem direct_link_is_enqueued (e : env) (sv : Handlers.services)
        (update : Update) (msg : Message) (user : Handlers.User) (t : string) :
  message update = Some msg ->
  text msg = Some t ->
  from_user msg = Some user ->
  find_ffmpeg e = true ->
  Probe.is_valid_url (strip t) = true ->
  supported (extract e (strip t)) = true ->
  (length (playlist_entries (extract e (strip t))) <= 1)%nat ->
  (length (heights (extract e (strip t))) < 2)%nat ->
  (popped e - created e <= State._ttl_sec (Handlers.state sv))%Q ->
  let r := on_text_url e sv update in
  let job :=
    Queue.mkJob (chat_id msg) (strip t) [strip t] None
                match playlist_entries (extract e (strip t)) with
                | [] => None
                | _ :: _ => Some "1"
                end (status_message_id e) in
  fst (fst r)
  = Handlers.mkServices
      (State.mkState (delete (new_token e) (State.pending (Handlers.state sv)))
                     (State._ttl_sec (Handlers.state sv)))
      (Queue.mkQueue (Queue.items (Handlers.queue sv) ++ [job])) true
  /\ snd r = Done
  /\ (State.pending (Handlers.state sv) !! new_token e = None ->
      Handlers.state (fst (fst r)) = Handlers.state sv).
Proof.
  intros Hm Ht Hu Hf Hv Hs He Hh Httl. cbv zeta.
  unfold on_text_url. rewrite Hm, Ht, Hu, Hf. cbv zeta. cbn [negb].
  rewrite (probe_of_valid _ _ Hv), Hs. cbn [negb].
  unfold State.create.
  apply Nat.ltb_ge in He. rewrite He.
  apply Nat.leb_gt in Hh. rewrite Hh.
  match goal with
  | |- context [Handlers.enqueue_from_pending ?later
                  (Handlers.assign ?sv1 ?token ?p') ?token ?mid] =>
      pose proof (ClickProofs.assign_enqueue later sv1 token p' p' mid) as Hq;
      destruct (Handlers.enqueue_from_pending later (Handlers.assign sv1 token p') token mid)
        as [sv' out]
  end.
  cbn [fst snd] in *.
  rewrite Hq; [|apply PyFacts.Qlt_bool_false; exact Httl|reflexivity].
  cbn [Handlers.set_selected_indices Handlers.with_state Handlers.state Handlers.queue
       State.pending State._ttl_sec State.chat_id State.url State.selected_height
       State.playlist_entries State.selected_indices].
  rewrite delete_insert_eq.
  assert (Hjob : match playlist_entries (extract e (strip t)) with
                 | [] => None
                 | _ :: _ =>
                     Some (str_of_int
                             (default 1
                                (Handlers.first_sorted
                                   match playlist_entries (extract e (strip t)) with
                                   | [] => ∅
                                   | _ :: _ => {[1]}
                                   end)))
                 end
                 = match playlist_entries (extract e (strip t)) with
                   | [] => None
                   | _ :: _ => Some "1"
                   end).
  { destruct (playlist_entries (extract e (strip t))); [reflexivity|].
    rewrite ClickProofs.first_sorted_singleton. reflexivity. }
  rewrite Hjob. split; [reflexivity|]. split; [reflexivity|].
  intros Hfresh. rewrite delete_id by exact Hfresh. apply StoreProofs.state_eta.
Qed.

(** The sample link, for which yt-dlp finds a single file. *)
Lemma direct_link_is_enqueued_witness :
  Queue.items (Handlers.queue (fst (fst (on_text_url sample_env empty_services sample_update))))
  = [Queue.mkJob 7 "http://x/list" ["http://x/list"] None None 11].
Proof.
  destruct (direct_link_is_enqueued sample_env empty_services sample_update
              (mkMessage 7 (Some (Handlers.mkUser 42)) (Some " http://x/list "))
              (Handlers.mkUser 42) " http://x/list ") as [H _].
  - reflexivity.
  - reflexivity.
  - reflexivity.
  - reflexivity.
  - reflexivity.
  - reflexivity.
  - cbn. lia.
  - cbn. lia.
  - vm_compute. discriminate.
  - rewrite H. reflexivity.
Defined.

Section ThenClick.

Variable int_of_str : string -> option Z.

(** A supported link with several files, fewer than two qualities and
    a page size other than zero shows a keyboard; when the sender then
    clicks any entry button of that keyboard within the TTL, exactly
    one job is appended to the queue: it is for the submitted link and
    for a playlist entry that yt-dlp reported, the one the button
    names, and the selection is gone from the store. *)
Theorem playlist_link_then_click (e : env) (sv : Handlers.services)
        (update : Update) (msg : Message) (user : Handlers.User) (t : string)
        (now later : Q) (mid : Z)
        (row : list Keyboards.InlineKeyboardButton) (button : Keyboards.InlineKeyboardButton) :
  message update = Some msg ->
  text msg = Some t ->
  from_user msg = Some user ->
  find_ffmpeg e = true ->
  Probe.is_valid_url (strip t) = true ->
  supported (extract e (strip t)) = true ->
  (1 < length (playlist_entries (extract e (strip t))))%nat ->
  (length (heights (extract e (strip t))) < 2)%nat ->
  playlist_page_size e <> 0 ->
  Keyboards.colon_free (new_token e) = true ->
  (now - created e <= State._ttl_sec (Handlers.state sv))%Q ->
  (later - created e <= State._ttl_sec (Handlers.state sv))%Q ->
  Forall (fun entry => int_of_str (str_of_int (State.index entry)) = Some (State.index entry))
         (playlist_entries (extract e (strip t))) ->
  let r1 := on_text_url e sv update in
  In row (Keyboards.entry_rows (shown (snd (fst r1)))) ->
  In button row ->
  let click :=
    Handlers.mkUpdate
      (Some (Handlers.mkQuery (Some user) (Some (Handlers.mkMessage (chat_id msg) mid))
                              (Some (Keyboards.callback_data button)))) in
  let r2 := Handlers.on_playlist_callback int_of_str (playlist_page_size e) now later (fst (fst r1)) click in
  exists entry : State.PlaylistEntry,
    In entry (playlist_entries (extract e (strip t)))
    /\ fst (fst r2)
       = Handlers.mkServices
           (State.mkState (delete (new_token e) (State.pending (Handlers.state sv)))
                          (State._ttl_sec (Handlers.state sv)))
           (Queue.mkQueue
              (Queue.items (Handlers.queue sv)
               ++ [Queue.mkJob (chat_id msg) (strip t) [strip t] None
                     (Some (str_of_int (State.index entry))) mid])) true
    /\ snd r2 = Handlers.Done.
Proof.
  intros Hm Ht Hu Hf Hv Hs He Hh Hps Htok Hnow Hlater Hint.
  set (probe := extract e (strip t)) in *.
  set (pending := State.mkPending (chat_id msg) (Handlers.id user) (strip t)
                                  (playlist_entries probe) ∅ (heights probe) None (created e)).
  set (sv1 := Handlers.with_state sv
                (State.mkState (<[new_token e := pending]> (State.pending (Handlers.state sv)))
                               (State._ttl_sec (Handlers.state sv)))).
  assert (Hr1 : exists text nav,
             on_text_url e sv update
             = (sv1,
                [ReplyText (UI.italic "Checking the link...");
                 StatusEdit text
                   (Some (map (Keyboards.entry_row (new_token e) pending)
                              (Keyboards.slice (playlist_entries probe) 0
                                 (Z.min (Z.of_nat (length (playlist_entries probe)))
                                        (0 + playlist_page_size e)))
                          ++ [nav]))],
                Done)).
  { unfold on_text_url. rewrite Hm, Ht, Hu, Hf. cbv zeta. cbn [negb].
    rewrite (probe_of_valid _ _ Hv). fold probe. rewrite Hs. cbn [negb].
    unfold State.create. fold pending. fold sv1.
    apply Nat.ltb_lt in He. rewrite He.
    unfold Keyboards.playlist_page_keyboard.
    apply Z.eqb_neq in Hps. rewrite Hps. cbv zeta.
    cbn [State.playlist_entries pending].
    assert (Hc : Keyboards.clamp_page 0
                   (Keyboards.page_count (Z.of_nat (length (playlist_entries probe)))
                                         (playlist_page_size e)) = 0).
    { unfold Keyboards.clamp_page, Keyboards.page_count. lia. }
    rewrite Hc. change (0 * playlist_page_size e) with 0.
    eexists. eexists. reflexivity. }
  destruct Hr1 as [text [nav Hr1]].
  cbv zeta. rewrite Hr1. cbn [fst snd shown List.last Keyboards.entry_rows].
  rewrite KeyboardsProofs.removelast_snoc.
  intros Hrow Hbtn. apply in_map_iff in Hrow as [entry [<- Hentry]].
  apply ClickProofs.slice_In in Hentry.
  exists entry. split; [exact Hentry|].
  destruct (ClickProofs.entry_click_result int_of_str (playlist_page_size e) now later sv1 (new_token e) pending
              entry button user (Handlers.mkMessage (chat_id msg) mid)) as [R1 R2].
  - exact Htok.
  - unfold sv1, Handlers.with_state. cbn [Handlers.state State.pending].
    apply lookup_insert_eq.
  - apply PyFacts.Qlt_bool_false. exact Hnow.
  - apply PyFacts.Qlt_bool_false. exact Hlater.
  - exact Hentry.
  - exact Hbtn.
  - apply Nat.leb_gt in Hh. apply Nat.leb_gt. exact Hh.
  - rewrite Forall_forall in Hint. apply Hint. apply list_elem_of_In. exact Hentry.
  - reflexivity.
  - reflexivity.
  - cbv zeta in R1, R2. split; [|exact R2]. rewrite R1.
    unfold sv1, Handlers.with_state.
    cbn [Handlers.state Handlers.queue State.pending State._ttl_sec pending
         State.chat_id State.url State.selected_height Handlers.message_id].
    rewrite delete_insert_eq. reflexivity.
Qed.

End ThenClick.

(** The sample link with its playlist of two entries; the sender then
    picks entry 2. *)
Lemma playlist_link_then_click_witness :
  exists entry : State.PlaylistEntry,
    In entry (State.playlist_entries Handlers.sample_pending)
    /\ Queue.items
         (Handlers.queue
            (fst (fst (Handlers.on_playlist_callback Handlers.int_of_digits
                         (playlist_page_size sample_playlist_env) 200 201
                         (fst (fst (on_text_url sample_playlist_env empty_services
                                                sample_update)))
                         (Handlers.click_entry_2 42)))))
       = [Queue.mkJob 7 "http://x/list" ["http://x/list"] None
                      (Some (str_of_int (State.index entry))) 11].
Proof.
  destruct (playlist_link_then_click Handlers.int_of_digits
              sample_playlist_env empty_services sample_update
              (mkMessage 7 (Some (Handlers.mkUser 42)) (Some " http://x/list "))
              (Handlers.mkUser 42) " http://x/list " 200 201 11
              [Keyboards.mkButton (Keyboards.white_circle ++ " 2. two")
                                  "pl:a1b2c3d4e5f60718:t2"]
              (Keyboards.mkButton (Keyboards.white_circle ++ " 2. two")
                                  "pl:a1b2c3d4e5f60718:t2"))
    as [entry [Hin [H _]]].
  - reflexivity.
  - reflexivity.
  - reflexivity.
  - reflexivity.
  - reflexivity.
  - reflexivity.
  - cbn. lia.
  - cbn. lia.
  - discriminate.
  - reflexivity.
  - vm_compute. discriminate.
  - vm_compute. discriminate.
  - repeat constructor.
  - vm_compute. right. left. reflexivity.
  - left. reflexivity.
  - exists entry. split; [exact Hin|].
    change (Handlers.click_entry_2 42)
      with (Handlers.mkUpdate
              (Some (Handlers.mkQuery (Some (Handlers.mkUser 42))
                                      (Some (Handlers.mkMessage 7 11))
                                      (Some "pl:a1b2c3d4e5f60718:t2")))).
    cbn [Keyboards.callback_data chat_id] in H. rewrite H. reflexivity.
Defined.


End SubmissionProofs.
